(** * Case-study backend: record store, edit reconciliation, history reports

    A shallow embedding of the Express server of this repository
    (the file with the [/api/...] routes) and the properties its
    specification states about it.

    Layout: the first half holds the definitions, one module per part of the
    server; the second half holds the lemmas and theorems. *)

From stdpp Require Import gmap strings list fin_maps.

Open Scope string_scope.
Open Scope list_scope.

(* ===================================================================== *)
(** * Part I: definitions                                                 *)
(* ===================================================================== *)

(** ** JSON data as the server sees it *)

Module Json.

(** What [JSON.parse] returns.  A number is carried by the text that
    [Number.prototype.toString] prints for it ([0] and [-0] both print
    ["0"]; JSON has no NaN), which decides [===], truthiness and string
    conversion of numbers.  An object is a finite map from property names
    to values: a property that is absent reads as [undefined], which is
    [None] below. *)
#[warnings="-register-all"]
Inductive json : Type :=
| JNull
| JBool (b : bool)
| JNum (repr : string)
| JStr (s : string)
| JArr (xs : list json)
| JObj (fields : gmap string json).

Abbreviation obj := (gmap string json).

(** [ToString] of ECMAScript on JSON data; [None] is a TypeError.
    [null], booleans, numbers and strings print as themselves.  An array
    joins the texts of its elements with commas ([null] elements print
    empty) and fails when one of them fails.  An object is converted by
    its [toString] method: a parsed object inherits the one of
    [Object.prototype], which prints ["[object Object]"], unless it has an
    own property of that name; such a property holds JSON data, which is
    not callable, and [valueOf] (inherited or own) never gives a
    primitive, so the conversion throws. *)
Fixpoint ToString (v : json) : option string :=
  match v with
  | JNull => Some "null"
  | JBool true => Some "true"
  | JBool false => Some "false"
  | JNum repr => Some repr
  | JStr s => Some s
  | JArr xs =>
      String.concat "," <$>
        (fix join (xs : list json) : option (list string) :=
           match xs with
           | [] => Some []
           | x :: rest =>
               text ← match x with JNull => Some "" | _ => ToString x end;
               texts ← join rest;
               Some (text :: texts)
           end) xs
  | JObj fields =>
      match fields !! "toString" with
      | Some _ => None
      | None => Some "[object Object]"
      end
  end.

(** A [${...}] hole of a template literal, applied to a property read;
    [None] when the conversion throws. *)
Definition template (ov : option json) : option string :=
  match ov with
  | None => Some "undefined"
  | Some v => ToString v
  end.

(** Truthiness ([ToBoolean]) of a property read. *)
Definition ToBoolean (ov : option json) : bool :=
  match ov with
  | None => false
  | Some JNull => false
  | Some (JBool b) => b
  | Some (JNum repr) => negb (bool_decide (repr = "0"))
  | Some (JStr s) => negb (bool_decide (s = ""))
  | Some (JArr _) => true
  | Some (JObj _) => true
  end.

(** [x === s] for a string [s] (a route parameter, a request field or a
    string literal): only an equal string is strictly equal to it. *)
Definition strict_eq_string (ov : option json) (s : string) : bool :=
  match ov with
  | Some (JStr t) => bool_decide (t = s)
  | _ => false
  end.

(** [x || d]. *)
Definition or_else (ov : option json) (d : json) : json :=
  match ov with
  | Some v => if ToBoolean ov then v else d
  | None => d
  end.

(** SameValueZero on the nodes of parsed JSON, as [Set.prototype.has] and
    [Array.prototype.includes] use it: primitives compare by content; two
    arrays or objects are the same only when they are the same node, and
    every node of a parsed document is visited once. *)
Definition same_value_zero (a b : json) : bool :=
  match a, b with
  | JNull, JNull => true
  | JBool x, JBool y => bool_decide (x = y)
  | JNum x, JNum y => bool_decide (x = y)
  | JStr x, JStr y => bool_decide (x = y)
  | _, _ => false
  end.

(** [v.k] for the property names the handlers read from elements of the
    nested payload ([tensions], [value], [definition]): reading from
    [null] throws a TypeError ([None]); a plain object answers from its
    own properties; numbers, booleans, strings and arrays have no property
    of these names. *)
Definition get (v : json) (k : string) : option (option json) :=
  match v with
  | JNull => None
  | JObj fields => Some (fields !! k)
  | _ => Some None
  end.

(** *** Object literals

    [{ ...a, ...b, k: v }] is evaluated left to right: a spread copies the
    own properties of its source over what is there, a property
    definition sets one property.  A property set to [undefined] stays
    invisible to reads and to [JSON.stringify], so it is dropped. *)
Inductive part : Type :=
| Spread (source : obj)
| Field (k : string) (ov : option json).

Definition define (target : obj) (p : part) : obj :=
  match p with
  | Spread source => source ∪ target
  | Field k (Some v) => <[k := v]> target
  | Field k None => delete k target
  end.

Definition object_literal (parts : list part) : obj :=
  foldl define ∅ parts.

End Json.

Export Json.

(** ** Arrays *)

Module Arr.

(** [Array.prototype.find]: the first element the callback accepts. *)
Fixpoint find {A : Type} (p : A -> bool) (xs : list A) : option A :=
  match xs with
  | [] => None
  | x :: rest => if p x then Some x else find p rest
  end.

(** [Array.prototype.findIndex]; [None] stands for [-1]. *)
Fixpoint findIndex {A : Type} (p : A -> bool) (xs : list A) : option nat :=
  match xs with
  | [] => None
  | x :: rest => if p x then Some 0 else S <$> findIndex p rest
  end.

(** [find] and [findIndex] with a callback that may throw: the outer
    [None] is the exception, which ends the search at the element that
    raised it. *)
Fixpoint find_or_throw {A : Type} (p : A -> option bool) (xs : list A)
    : option (option A) :=
  match xs with
  | [] => Some None
  | x :: rest =>
      match p x with
      | Some true => Some (Some x)
      | Some false => find_or_throw p rest
      | None => None
      end
  end.

Fixpoint findIndex_or_throw {A : Type} (p : A -> option bool) (xs : list A)
    : option (option nat) :=
  match xs with
  | [] => Some None
  | x :: rest =>
      match p x with
      | Some true => Some (Some 0)
      | Some false =>
          match findIndex_or_throw p rest with
          | Some found => Some (fmap (M := option) S found)
          | None => None
          end
      | None => None
      end
  end.

(** [xs.push(x)]. *)
Definition push {A : Type} (xs : list A) (x : A) : list A := xs ++ [x].

(** [xs[i] = x] for an index that [findIndex] returned: an index in range
    is overwritten; [-1] would set a property named ["-1"], which is no
    element and is not serialised. *)
Definition assign {A : Type} (xs : list A) (i : option nat) (x : A) : list A :=
  match i with
  | Some n => <[n := x]> xs
  | None => xs
  end.

(** [Array.prototype.includes] and [Set.prototype.has] over JSON nodes. *)
Definition includes (xs : list json) (v : json) : bool :=
  existsb (same_value_zero v) xs.

(** [forEach] with a callback that may throw: the state the callbacks
    update is threaded through, [None] once one of them threw. *)
Fixpoint forEach {S A : Type} (f : S -> A -> option S) (xs : list A)
    (s : S) : option S :=
  match xs with
  | [] => Some s
  | x :: rest =>
      match f s x with
      | Some s' => forEach f rest s'
      | None => None
      end
  end.

End Arr.

(** ** Strings *)

Module Str.

(** White space and line terminators of ECMAScript among the code units
    below 256. *)
Definition is_white_space (c : Ascii.ascii) : bool :=
  let n := Ascii.nat_of_ascii c in
  (((9 <=? n) && (n <=? 13)) || (n =? 32) || (n =? 160))%nat.

Fixpoint trimStart (s : string) : string :=
  match s with
  | EmptyString => EmptyString
  | String c rest => if is_white_space c then trimStart rest else s
  end.

Definition trimEnd (s : string) : string :=
  String.rev (trimStart (String.rev s)).

(** [String.prototype.trim]. *)
Definition trim (s : string) : string := trimEnd (trimStart s).

(** Truthiness of a string. *)
Definition truthy (s : string) : bool := negb (bool_decide (s = "")).

End Str.

(** ** Record store: one JSON file per collection *)

Module RecordStore.

(** The state of a backing file: [None] when it is absent or does not
    parse ([fs.readFile] or [JSON.parse] throws), otherwise the array of
    records it holds.  Writes replace the whole file. *)
Abbreviation file := (option (list obj)).

(** [loadSubmissions] (case-studies.json). *)
Definition loadSubmissions (SUBMISSIONS_FILE : file) : list obj :=
  match SUBMISSIONS_FILE with
  | Some data => data
  | None => []
  end.

(** [saveSubmissions]. *)
Definition saveSubmissions (submissions : list obj) : file :=
  Some submissions.

(** [loadFocusGroupSubmissions] (case-studies-focus-group.json). *)
Definition loadFocusGroupSubmissions (FOCUS_GROUP_FILE : file) : list obj :=
  match FOCUS_GROUP_FILE with
  | Some data => data
  | None => []
  end.

(** [saveFocusGroupSubmissions]. *)
Definition saveFocusGroupSubmissions (submissions : list obj) : file :=
  Some submissions.

(** [new Date().toISOString()]: the text the k-th reading of the clock
    during one request returns. *)
Abbreviation clock := (nat -> string).

End RecordStore.

Export RecordStore.

(** ** Submission identity *)

Module Identity.

(** The key of a submission.  The server has no function of this name: it
    writes the template literal
    [`${sub.username}|${sub.email}|${sub.submittedAt}`] wherever it needs the
    key (in the three searches of the edit route and in the group
    listing).  The three holes are converted from left to right; there is
    no key ([None]) when one of the conversions throws. *)
Definition identityKey (sub : obj) : option string :=
  username ← template (sub !! "username");
  email ← template (sub !! "email");
  submittedAt ← template (sub !! "submittedAt");
  Some (username +:+ "|" +:+ email +:+ "|" +:+ submittedAt).

End Identity.

Export Identity.

(** ** Edit reconciliation: POST /api/save-edited-submission *)

Module Edit.

(** The fields the route reads from the request body.
    [originalSubmissionId] and [editedData] are typed as the route's
    contract gives them (an [editedData] that is missing spreads nothing
    and is the empty object here); [facilitatorComment] and [editedBy] are
    whatever JSON the body holds under these names, [None] when it holds
    nothing. *)
Record request : Type := {
  originalSubmissionId : string;
  editedData : obj;
  facilitatorComment : option json;
  editedBy : option json
}.

Inductive response : Type :=
| Saved (newSubmissionId : option json) (isNewVersion : bool)  (* 200 *)
| NotFound                                                      (* 404 *)
| ServerError.                                                  (* 500 *)

(** What a request leaves behind.  [memory] is the array [focusGroupData]
    as it stands when the response is sent and [slot] the index at which it
    holds the object that the variable [newSubmission] refers to: the
    variable and the array element are one object, so a later assignment
    through the variable shows in [memory] at [slot]. *)
Record outcome : Type := {
  file_after : file;
  memory : list obj;
  slot : option nat;
  reply : response
}.

(** [sub => `...` === originalSubmissionId]; [None] when the template
    literal throws. *)
Definition has_key (id : string) (sub : obj) : option bool :=
  key ← identityKey sub; Some (bool_decide (key = id)).

(** [sub => sub.isEditedVersion && sub.originalSubmissionId === originalSubmissionId] *)
Definition is_edit_of (id : string) (sub : obj) : bool :=
  ToBoolean (sub !! "isEditedVersion") &&
  strict_eq_string (sub !! "originalSubmissionId") id.

(** [sub => sub.isEditedVersion && `...` === originalSubmissionId]: the
    template literal is evaluated for flagged records only. *)
Definition is_edit_with_key (id : string) (sub : obj) : option bool :=
  if ToBoolean (sub !! "isEditedVersion") then has_key id sub
  else Some false.

(** [editedBy || 'unknown'] *)
Definition editor (req : request) : json :=
  or_else (editedBy req) (JStr "unknown").

(** The two further searches and the three branches that build
    [newSubmission] and put it into [focusGroupData].  The result is the
    updated array, the index that holds [newSubmission], [isNewVersion],
    and how often the clock was read; [None] when a search threw. *)
Definition reconcile (now : clock) (req : request) (focusGroupData : list obj)
    (originalSubmission : obj)
    : option (list obj * option nat * bool * nat) :=
  let id := originalSubmissionId req in
  let existingEditedVersion := Arr.find (is_edit_of id) focusGroupData in
  isEditingEditedVersion ←
    Arr.find_or_throw (is_edit_with_key id) focusGroupData;
  match existingEditedVersion, isEditingEditedVersion with
  | Some existing, _ =>
      let newSubmission := object_literal
        [ Spread originalSubmission;
          Spread existing;
          Spread (editedData req);
          Field "editTimestamp" (Some (JStr (now 0)));
          Field "editedBy" (Some (editor req)) ] in
      let existingIndex := Arr.findIndex (is_edit_of id) focusGroupData in
      Some (Arr.assign focusGroupData existingIndex newSubmission,
            existingIndex, false, 1)
  | None, Some edited =>
      let newSubmission := object_literal
        [ Spread edited;
          Spread (editedData req);
          Field "editTimestamp" (Some (JStr (now 0)));
          Field "editedBy" (Some (editor req)) ] in
      existingIndex ←
        Arr.findIndex_or_throw (is_edit_with_key id) focusGroupData;
      Some (Arr.assign focusGroupData existingIndex newSubmission,
            existingIndex, false, 1)
  | None, None =>
      let newSubmission := object_literal
        [ Spread originalSubmission;
          Spread (editedData req);
          Field "submittedAt" (Some (JStr (now 0)));
          Field "isEditedVersion" (Some (JBool true));
          Field "originalSubmissionId" (Some (JStr id));
          Field "editedBy" (Some (editor req));
          Field "editTimestamp" (Some (JStr (now 1))) ] in
      Some (Arr.push focusGroupData newSubmission,
            Some (length focusGroupData), true, 2)
  end.

(** The test [facilitatorComment && facilitatorComment.trim()]: a falsy
    comment stops at the [&&]; a string is trimmed; any other truthy value
    (a number, [true], an array, an object) has no method [trim], and the
    call throws ([None]). *)
Definition has_comment (req : request) : option bool :=
  match facilitatorComment req with
  | Some (JStr comment) =>
      Some (Str.truthy comment && Str.truthy (Str.trim comment))
  | Some v => if ToBoolean (Some v) then None else Some false
  | None => Some false
  end.

(** The three assignments to [newSubmission] under that test. *)
Definition attach_comment (now : clock) (ticks : nat) (req : request)
    (newSubmission : obj) : obj :=
  foldl define newSubmission
    [ Field "facilitatorComment" (facilitatorComment req);
      Field "facilitatorCommentTimestamp" (Some (JStr (now ticks)));
      Field "facilitatorCommentBy" (Some (editor req)) ].

(** The object [newSubmission] refers to. *)
Definition newSubmission_in (memory : list obj) (slot : option nat) : option obj :=
  match slot with
  | Some i => memory !! i
  | None => None
  end.

(** The route.  The file is read with [fs.readFile] and [JSON.parse]
    directly, inside the handler's [try]; the array is written back before
    the comment is looked at.  Whatever throws inside the [try] is answered
    with 500: before the write the file stays as it was, after the write
    it stays as written. *)
Definition save_edited_submission (now : clock) (req : request)
    (FOCUS_GROUP_FILE : file) : outcome :=
  match FOCUS_GROUP_FILE with
  | None =>
      {| file_after := FOCUS_GROUP_FILE; memory := []; slot := None;
         reply := ServerError |}
  | Some focusGroupData =>
      match Arr.find_or_throw (has_key (originalSubmissionId req))
                              focusGroupData with
      | None =>
          {| file_after := FOCUS_GROUP_FILE; memory := focusGroupData;
             slot := None; reply := ServerError |}
      | Some None =>
          {| file_after := FOCUS_GROUP_FILE; memory := focusGroupData;
             slot := None; reply := NotFound |}
      | Some (Some originalSubmission) =>
          match reconcile now req focusGroupData originalSubmission with
          | None =>
              {| file_after := FOCUS_GROUP_FILE; memory := focusGroupData;
                 slot := None; reply := ServerError |}
          | Some (focusGroupData, newIndex, isNewVersion, ticks) =>
              let written := Some focusGroupData in
              match has_comment req with
              | None =>
                  {| file_after := written; memory := focusGroupData;
                     slot := newIndex; reply := ServerError |}
              | Some attach =>
                  let focusGroupData :=
                    match newIndex with
                    | Some i =>
                        if attach
                        then alter (attach_comment now ticks req) i
                                   focusGroupData
                        else focusGroupData
                    | None => focusGroupData
                    end in
                  {| file_after := written;
                     memory := focusGroupData;
                     slot := newIndex;
                     reply :=
                       Saved (newSubmission_in focusGroupData newIndex
                                ≫= fun newSubmission =>
                                      newSubmission !! "submittedAt")
                             isNewVersion |}
              end
          end
      end
  end.

(** A run of requests, each with its own clock, against the file. *)
Definition run_edits (calls : list (clock * request)) (FOCUS_GROUP_FILE : file)
    : file :=
  foldl (fun f call => file_after (save_edited_submission call.1 call.2 f))
        FOCUS_GROUP_FILE calls.

End Edit.

(** ** Individual case studies: PUT /api/case-studies/:id *)

Module CaseStudies.

Inductive response : Type :=
| Updated (data : obj)   (* 200 *)
| NotFound               (* 404 *)
| Forbidden              (* 403 *)
| ServerError.           (* 500 *)

Record outcome : Type := {
  file_after : file;
  reply : response
}.

(** [s => s.id === id] *)
Definition has_id (id : string) (s : obj) : bool :=
  strict_eq_string (s !! "id") id.

(** The route: [id] is the route parameter, [updateFields] the request
    body. *)
Definition put_case_study (now : clock) (id : string) (updateFields : obj)
    (SUBMISSIONS_FILE : file) : outcome :=
  let submissions := loadSubmissions SUBMISSIONS_FILE in
  match Arr.findIndex (has_id id) submissions with
  | None => {| file_after := SUBMISSIONS_FILE; reply := NotFound |}
  | Some submissionIndex =>
      match submissions !! submissionIndex with
      | None => {| file_after := SUBMISSIONS_FILE; reply := ServerError |}
      | Some current =>
          if negb (strict_eq_string (current !! "status") "pending") then
            {| file_after := SUBMISSIONS_FILE; reply := Forbidden |}
          else
            let updated := object_literal
              [ Spread current;
                Spread updateFields;
                Field "id" (current !! "id");
                Field "submittedAt" (current !! "submittedAt");
                Field "updatedAt" (Some (JStr (now 0))) ] in
            let submissions := <[submissionIndex := updated]> submissions in
            {| file_after := saveSubmissions submissions;
               reply := Updated updated |}
      end
  end.

End CaseStudies.

(** ** History reports: GET /api/user-tension-history/:email *)

Module History.

Definition predefinedTensions : list string :=
  [ "Privacy vs. Transparency";
    "Accuracy vs. Fairness";
    "Autonomy vs. Safety";
    "Efficiency vs. Explainability";
    "Innovation vs. Regulation";
    "Individual vs. Collective Good";
    "Accessibility vs. Complexity";
    "Customization vs. Standardization" ].

(** An element of [userTensionDetails]. *)
Record detail : Type := {
  value : json;
  definition : json;
  source : string;
  submissionDate : option json
}.

Inductive response : Type :=
| Report (data : list detail) (count : nat) (hasSubmissions : bool)  (* 200 *)
| ServerError.                                                       (* 500 *)

(** The set [userTensions], in insertion order, and the array
    [userTensionDetails]. *)
Abbreviation collected := (list json * list detail)%type.

(** The callback of [caseItem.tensions.forEach]. *)
Definition visit_tension (src : string) (sub : obj) (st : collected)
    (tensionItem : json) : option collected :=
  let '(userTensions, userTensionDetails) := st in
  v ← get tensionItem "value";
  match v with
  | Some tension =>
      if ToBoolean v
         && negb (Arr.includes userTensions tension)
         && negb (Arr.includes (JStr <$> predefinedTensions) tension)
      then
        d ← get tensionItem "definition";
        Some (userTensions ++ [tension],
              Arr.push userTensionDetails
                {| value := tension;
                   definition := or_else d (JStr "");
                   source := src;
                   submissionDate := sub !! "submittedAt" |})
      else Some st
  | None => Some st
  end.

(** The callback of [sub.cases.forEach]. *)
Definition visit_case (src : string) (sub : obj) (st : collected)
    (caseItem : json) : option collected :=
  t ← get caseItem "tensions";
  match t with
  | Some (JArr tensions) => Arr.forEach (visit_tension src sub) tensions st
  | _ => Some st
  end.

(** The callback of the two [forEach] over the user's submissions. *)
Definition visit_submission (src : string) (st : collected) (sub : obj)
    : option collected :=
  match sub !! "cases" with
  | Some (JArr cases) => Arr.forEach (visit_case src sub) cases st
  | _ => Some st
  end.

(** The route; [email] is the route parameter. *)
Definition user_tension_history (email : string)
    (FOCUS_GROUP_FILE SUBMISSIONS_FILE : file) : response :=
  let focusGroupData := loadFocusGroupSubmissions FOCUS_GROUP_FILE in
  let individualData := loadSubmissions SUBMISSIONS_FILE in
  let userFocusGroupSubmissions :=
    List.filter (fun sub => strict_eq_string (sub !! "email") email)
                focusGroupData in
  match Arr.forEach (visit_submission "focus-group")
                    userFocusGroupSubmissions ([], []) with
  | None => ServerError
  | Some st =>
      let userIndividualSubmissions :=
        List.filter (fun sub => strict_eq_string (sub !! "author") email
                                || strict_eq_string (sub !! "email") email)
                    individualData in
      match Arr.forEach (visit_submission "individual")
                        userIndividualSubmissions st with
      | None => ServerError
      | Some (_, userTensionDetails) =>
          Report userTensionDetails (length userTensionDetails)
                 (0 <? length userTensionDetails)%nat
      end
  end.

(** The [data] array of a response; a failed request sends none. *)
Definition entries (r : response) : list detail :=
  match r with
  | Report data _ _ => data
  | ServerError => []
  end.

End History.

(** ** Vocabulary of the stated properties *)

Module Vocabulary.

(** "shallow-merge(A, B, C, ...)": the object literal [{...A, ...B, ...C}],
    which is how every branch of the edit route starts its new record. *)
Definition shallow_merge (sources : list obj) : obj :=
  object_literal (Spread <$> sources).

(** The records a file holds; none when it is absent. *)
Definition records (f : file) : list obj :=
  match f with
  | Some data => data
  | None => []
  end.

(** A record whose [isEditedVersion] is the boolean [true] and whose
    [originalSubmissionId] is the string [id]. *)
Definition marked_edit_of (id : string) (sub : obj) : bool :=
  match sub !! "isEditedVersion" with
  | Some (JBool true) => strict_eq_string (sub !! "originalSubmissionId") id
  | _ => false
  end.

(** A record whose [isEditedVersion], when it has one, is a boolean, as
    the data model types it. *)
Definition flag_is_boolean (sub : obj) : Prop :=
  sub !! "isEditedVersion" = None
  ∨ ∃ b : bool, sub !! "isEditedVersion" = Some (JBool b).

(** How many elements of a list a test accepts. *)
Definition count {A : Type} (p : A -> bool) (xs : list A) : nat :=
  length (List.filter p xs).

(** The shape of the store that the edit route keeps up for one [id]: past
    the first record that the route's own search [Edit.is_edit_of id]
    accepts, no record passes the test [q] (which is [marked_edit_of id] in
    the end). *)
Fixpoint guarded (q : obj -> bool) (id : string) (store : list obj) : bool :=
  match store with
  | [] => true
  | sub :: rest =>
      if Edit.is_edit_of id sub
      then forallb (fun r => negb (q r)) rest
      else guarded q id rest
  end.

(** The three fields under which the edit route attaches a facilitator
    comment, and their absence from a record. *)
Definition comment_fields : list string :=
  [ "facilitatorComment"; "facilitatorCommentTimestamp";
    "facilitatorCommentBy" ].

Definition lacks_comment (sub : obj) : Prop :=
  ∀ k, k ∈ comment_fields -> sub !! k = None.

(** A store in which every record has an identity key: its [username],
    [email] and [submittedAt] convert to text, as those of a submission
    do. *)
Definition keyed (store : list obj) : Prop :=
  ∀ sub, sub ∈ store -> is_Some (identityKey sub).

(** The facilitator comment of a request is text whenever it is truthy, as
    the contract of the route types it. *)
Definition comment_is_text (req : Edit.request) : Prop :=
  ∀ v, Edit.facilitatorComment req = Some v ->
       ToBoolean (Some v) = true -> ∃ comment, v = JStr comment.

(** The same request without its facilitator comment. *)
Definition without_comment (req : Edit.request) : Edit.request :=
  {| Edit.originalSubmissionId := Edit.originalSubmissionId req;
     Edit.editedData := Edit.editedData req;
     Edit.facilitatorComment := None;
     Edit.editedBy := Edit.editedBy req |}.

(** The tension history collected so far carries no predefined label. *)
Definition custom_only (st : History.collected) : Prop :=
  ∀ entry label,
    entry ∈ st.2 -> label ∈ History.predefinedTensions ->
    History.value entry ≠ JStr label.

End Vocabulary.

Export Vocabulary.

(** ** Sample data *)

Module Sample.

Definition alice_key : string := "alice|a@x.com|2024-01-01T00:00:00Z".

(** A focus-group submission with one predefined and one custom tension. *)
Definition alice : obj :=
  {[ "username" := JStr "alice";
     "email" := JStr "a@x.com";
     "submittedAt" := JStr "2024-01-01T00:00:00Z";
     "cases" := JArr
       [ JObj {[ "group" := JStr "G1";
                 "values" := JArr
                   [ JObj {[ "value" := JStr "Fairness";
                             "definition" := JStr "equal treatment" ]} ];
                 "tensions" := JArr
                   [ JObj {[ "value" := JStr "Privacy vs. Transparency";
                             "definition" := JStr "predefined" ]};
                     JObj {[ "value" := JStr "Speed vs. Care";
                             "definition" := JStr "custom" ]};
                     JObj {[ "value" := JStr "Privacy vs. Transparency" ]} ]
              ]} ] ]}.

Definition first_clock : clock := fun k =>
  match k with
  | 0 => "2024-02-01T10:00:00.000Z"
  | 1 => "2024-02-01T10:00:00.001Z"
  | _ => "2024-02-01T10:00:00.002Z"
  end.

Definition second_clock : clock := fun k =>
  match k with
  | 0 => "2024-03-01T09:00:00.000Z"
  | _ => "2024-03-01T09:00:00.001Z"
  end.

Definition first_edit : Edit.request :=
  {| Edit.originalSubmissionId := alice_key;
     Edit.editedData := {[ "cases" := JArr [] ]};
     Edit.facilitatorComment := Some (JStr " well argued ");
     Edit.editedBy := Some (JStr "bob") |}.

Definition second_edit : Edit.request :=
  {| Edit.originalSubmissionId := alice_key;
     Edit.editedData := {[ "note" := JStr "second pass" ]};
     Edit.facilitatorComment := None;
     Edit.editedBy := None |}.

(** The edited version of [alice] that [first_edit] leaves in the file. *)
Definition alice_edited : obj :=
  {[ "username" := JStr "alice";
     "email" := JStr "a@x.com";
     "submittedAt" := JStr "2024-02-01T10:00:00.000Z";
     "cases" := JArr [];
     "isEditedVersion" := JBool true;
     "originalSubmissionId" := JStr alice_key;
     "editedBy" := JStr "bob";
     "editTimestamp" := JStr "2024-02-01T10:00:00.001Z" ]}.

(** An individual case study, and a request body that tries to move its
    [id] and [submittedAt]. *)
Definition study : obj :=
  {[ "id" := JStr "1700000000000";
     "title" := JStr "Triage assistant";
     "author" := JStr "a@x.com";
     "status" := JStr "pending";
     "reviewed" := JBool false;
     "submittedAt" := JStr "2023-11-14T22:13:20.000Z" ]}.

Definition study_update : obj :=
  {[ "id" := JStr "42";
     "submittedAt" := JStr "1999-01-01T00:00:00.000Z";
     "title" := JStr "Triage assistant, revised" ]}.

(** [study] after the update, requested when [second_clock] starts. *)
Definition study_updated : obj :=
  {[ "id" := JStr "1700000000000";
     "title" := JStr "Triage assistant, revised";
     "author" := JStr "a@x.com";
     "status" := JStr "pending";
     "reviewed" := JBool false;
     "submittedAt" := JStr "2023-11-14T22:13:20.000Z";
     "updatedAt" := JStr "2024-03-01T09:00:00.000Z" ]}.

End Sample.

(** ** Individual case studies: the other routes *)

Module CaseStudyRoutes.

(** What a route that may write leaves behind. *)
Record outcome (R : Type) : Type := {
  file_after : file;
  reply : R
}.
Arguments file_after {R} _.
Arguments reply {R} _.

(** *** GET /api/case-studies; [user] is [req.query.user] *)

Record listing : Type := {
  data : list obj;
  count : nat
}.

(** [s => s.author && s.author === user] *)
Definition written_by (user : string) (s : obj) : bool :=
  ToBoolean (s !! "author") && strict_eq_string (s !! "author") user.

Definition get_case_studies (user : option string) (SUBMISSIONS_FILE : file)
    : listing :=
  let submissions := loadSubmissions SUBMISSIONS_FILE in
  let filtered :=
    match user with
    | Some user =>
        if Str.truthy user then List.filter (written_by user) submissions
        else submissions
    | None => submissions
    end in
  {| data := filtered; count := length filtered |}.

(** *** POST /api/case-studies; [submission] is the request body,
    [millis] the text of [Date.now().toString()] *)

Inductive post_response : Type :=
| Created (data : obj)           (* 201 *)
| BadRequest (error : string).   (* 400 *)

Definition requiredFields : list string := ["title"; "author"].

Definition post_case_study (millis : string) (now : clock) (submission : obj)
    (SUBMISSIONS_FILE : file) : outcome post_response :=
  let missingFields :=
    List.filter (fun field => negb (ToBoolean (submission !! field)))
                requiredFields in
  if (0 <? length missingFields)%nat then
    {| file_after := SUBMISSIONS_FILE;
       reply := BadRequest ("Missing required fields: "
                            +:+ String.concat ", " missingFields) |}
  else
    let newSubmission := object_literal
      [ Spread submission;
        Field "id" (Some (JStr millis));
        Field "submittedAt"
              (Some (or_else (submission !! "submittedAt") (JStr (now 0))));
        Field "status" (Some (JStr "pending"));
        Field "reviewed" (Some (JBool false)) ] in
    let submissions := loadSubmissions SUBMISSIONS_FILE in
    let submissions := Arr.push submissions newSubmission in
    {| file_after := saveSubmissions submissions;
       reply := Created newSubmission |}.

(** *** DELETE /api/case-studies/:id *)

Inductive delete_response : Type :=
| Deleted      (* 200 *)
| NotFound.    (* 404 *)

(** [s => s.id !== id] *)
Definition other_id (id : string) (s : obj) : bool :=
  negb (strict_eq_string (s !! "id") id).

Definition delete_case_study (id : string) (SUBMISSIONS_FILE : file)
    : outcome delete_response :=
  let submissions := loadSubmissions SUBMISSIONS_FILE in
  let filteredSubmissions := List.filter (other_id id) submissions in
  if (length filteredSubmissions =? length submissions)%nat then
    {| file_after := SUBMISSIONS_FILE; reply := NotFound |}
  else
    {| file_after := saveSubmissions filteredSubmissions; reply := Deleted |}.

End CaseStudyRoutes.

(** ** POST /api/case-studies-focus-group *)

Module FocusGroup.

(** The body is pushed as it comes; the answer is always a success. *)
Definition post_focus_group (submission : obj) (FOCUS_GROUP_FILE : file)
    : file :=
  let submissions := loadFocusGroupSubmissions FOCUS_GROUP_FILE in
  let submissions := Arr.push submissions submission in
  saveFocusGroupSubmissions submissions.

End FocusGroup.

(** ** History reports: GET /api/user-value-history/:email *)

Module ValueHistory.

(** [caseItem.values] when it is an array: reading from [null] throws
    ([None]); an array answers with [Array.prototype.values], a function,
    which is not an array; the other primitives have no such property. *)
Definition values_of (caseItem : json) : option (option (list json)) :=
  match caseItem with
  | JNull => None
  | JObj fields =>
      match fields !! "values" with
      | Some (JArr valueItems) => Some (Some valueItems)
      | _ => Some None
      end
  | _ => Some None
  end.

(** The callback of [caseItem.values.forEach]; the state is the set
    [userValues] and the array [userValueDetails]. *)
Definition visit_value (src : string) (sub : obj) (st : History.collected)
    (valueItem : json) : option History.collected :=
  let '(userValues, userValueDetails) := st in
  v ← get valueItem "value";
  match v with
  | Some item =>
      if ToBoolean v && negb (Arr.includes userValues item) then
        d ← get valueItem "definition";
        Some (userValues ++ [item],
              Arr.push userValueDetails
                {| History.value := item;
                   History.definition := or_else d (JStr "");
                   History.source := src;
                   History.submissionDate := sub !! "submittedAt" |})
      else Some st
  | None => Some st
  end.

(** The callback of [sub.cases.forEach]. *)
Definition visit_case (src : string) (sub : obj) (st : History.collected)
    (caseItem : json) : option History.collected :=
  vs ← values_of caseItem;
  match vs with
  | Some valueItems => Arr.forEach (visit_value src sub) valueItems st
  | None => Some st
  end.

Definition visit_submission (src : string) (st : History.collected)
    (sub : obj) : option History.collected :=
  match sub !! "cases" with
  | Some (JArr cases) => Arr.forEach (visit_case src sub) cases st
  | _ => Some st
  end.

(** [sub => sub.email === email] *)
Definition by_email (email : string) (sub : obj) : bool :=
  strict_eq_string (sub !! "email") email.

(** [sub => sub.author === email || sub.email === email] *)
Definition by_author_or_email (email : string) (sub : obj) : bool :=
  strict_eq_string (sub !! "author") email
  || strict_eq_string (sub !! "email") email.

(** The route; [email] is the route parameter. *)
Definition user_value_history (email : string)
    (FOCUS_GROUP_FILE SUBMISSIONS_FILE : file) : History.response :=
  let focusGroupData := loadFocusGroupSubmissions FOCUS_GROUP_FILE in
  let individualData := loadSubmissions SUBMISSIONS_FILE in
  let userFocusGroupSubmissions :=
    List.filter (by_email email) focusGroupData in
  match Arr.forEach (visit_submission "focus-group")
                    userFocusGroupSubmissions ([], []) with
  | None => History.ServerError
  | Some st =>
      let userIndividualSubmissions :=
        List.filter (by_author_or_email email) individualData in
      match Arr.forEach (visit_submission "individual")
                        userIndividualSubmissions st with
      | None => History.ServerError
      | Some (_, userValueDetails) =>
          History.Report userValueDetails (length userValueDetails)
                         (0 <? length userValueDetails)%nat
      end
  end.

End ValueHistory.

(** ** Accounts: /api/auth/... *)

Module Auth.

(** The two functions of bcryptjs the server calls.  [hash] takes the salt
    that [bcrypt.hash(password, 10)] draws and the password; [compare] takes
    a password and a stored hash. *)
Record Bcrypt : Type := {
  hash : string -> string -> string;
  compare : string -> string -> bool
}.




(** [loadUsers] and [saveUsers] (users.json). *)
Definition loadUsers (USERS_FILE : file) : list obj :=
  match USERS_FILE with
  | Some data => data
  | None => []
  end.


Record outcome (R : Type) : Type := {
  file_after : file;
  reply : R
}.
Arguments file_after {R} _.
Arguments reply {R} _.

(** *** POST /api/auth/register *)



(** *** POST /api/auth/login *)




(** *** POST /api/auth/update-profile *)






(** *** GET /api/auth/profile/:email *)


End Auth.

(** ** The two maintenance scripts *)

Module Scripts.

(** *** The status and group migration (it reads and writes
    case-studies.json of the React project) *)



(** *** update-passwords.js *)

(** The body of the [for] loop from index [i] on: [None] when
    [user.username.toLowerCase()] throws, which only a string user name
    avoids, or when the template literal of the [console.log] that ends
    the body throws on [user.email].  [salt i] is the salt drawn for the
    i-th user and [toLowerCase] is [String.prototype.toLowerCase]. *)
Fixpoint rehash (bcrypt : Auth.Bcrypt) (salt : nat -> string)
    (toLowerCase : string -> string) (i : nat) (users : list obj)
    : option (list obj) :=
  match users with
  | [] => Some []
  | user :: rest =>
      match user !! "username" with
      | Some (JStr name) =>
          let username := toLowerCase name in
          let newPassword := username +:+ "123456" in
          let passwordHash := Auth.hash bcrypt (salt i) newPassword in
          let user' := <["passwordHash" := JStr passwordHash]> user in
          logged ← template (user' !! "email");
          rest' ← rehash bcrypt salt toLowerCase (S i) rest;
          Some (user' :: rest')
      | _ => None
      end
  end.

(** [updatePasswords]: the file is written after the loop, inside the
    [try]; whatever throws is logged and nothing is written. *)
Definition updatePasswords (bcrypt : Auth.Bcrypt) (salt : nat -> string)
    (toLowerCase : string -> string) (USERS_FILE : file) : file :=
  match USERS_FILE with
  | Some users =>
      match rehash bcrypt salt toLowerCase 0 users with
      | Some users => Some users
      | None => USERS_FILE
      end
  | None => USERS_FILE
  end.

End Scripts.

(** ** Group listing: GET /api/group-submissions?group=NAME *)

Module GroupListing.

(** The object [submissionGroups]: its own properties in the order they
    were created, and the object that an assignment under the key
    ["__proto__"] made its prototype, if any ([None]: it is still
    [Object.prototype]). *)
Record groups : Type := {
  own : list (string * obj);
  proto : option obj
}.

(** The property names of [Object.prototype]; all of them read as truthy
    values. *)
Definition Object_prototype : list string :=
  [ "constructor"; "__defineGetter__"; "__defineSetter__"; "hasOwnProperty";
    "__lookupGetter__"; "__lookupSetter__"; "isPrototypeOf";
    "propertyIsEnumerable"; "toString"; "valueOf"; "__proto__";
    "toLocaleString" ].

Fixpoint own_property (key : string) (props : list (string * obj))
    : option obj :=
  match props with
  | [] => None
  | (k, v) :: rest =>
      if bool_decide (k = key) then Some v else own_property key rest
  end.

(** Truthiness of [submissionGroups[key]]: an own property holds a
    submission, which is truthy; otherwise the prototype chain answers. *)
Definition holds (g : groups) (key : string) : bool :=
  match own_property key (own g) with
  | Some _ => true
  | None =>
      match proto g with
      | Some p =>
          match p !! key with
          | Some v => ToBoolean (Some v)
          | None => bool_decide (key ∈ Object_prototype)
          end
      | None => bool_decide (key ∈ Object_prototype)
      end
  end.

Fixpoint overwrite (key : string) (s : obj) (props : list (string * obj))
    : list (string * obj) :=
  match props with
  | [] => []
  | (k, v) :: rest =>
      if bool_decide (k = key) then (k, s) :: rest
      else (k, v) :: overwrite key s rest
  end.

(** [submissionGroups[key] = s]: an own property is overwritten where it
    stands; a new key becomes a new own property, the last one, except
    ["__proto__"], whose setter on [Object.prototype] makes [s] the
    prototype (a prototype that has an own property of that name hides the
    setter, and the property is created like any other). *)
Definition assign (g : groups) (key : string) (s : obj) : groups :=
  match own_property key (own g) with
  | Some _ => {| own := overwrite key s (own g); proto := proto g |}
  | None =>
      let hidden :=
        match proto g with
        | Some p => bool_decide (is_Some (p !! "__proto__"))
        | None => false
        end in
      if bool_decide (key = "__proto__") && negb hidden
      then {| own := own g; proto := Some s |}
      else {| own := own g ++ [(key, s)]; proto := proto g |}
  end.

(** A key that is an array index: the decimal text, without leading
    zeros, of an integer below 2^32 - 1. *)
Fixpoint digits (text : string) (acc : N) : option N :=
  match text with
  | EmptyString => Some acc
  | String c rest =>
      let n := Ascii.N_of_ascii c in
      if ((48 <=? n) && (n <=? 57))%N
      then digits rest (10 * acc + (n - 48))%N
      else None
  end.

Definition array_index (key : string) : option N :=
  match key with
  | EmptyString => None
  | String c rest =>
      if (Ascii.N_of_ascii c =? 48)%N && negb (bool_decide (rest = ""))
      then None
      else
        match digits key 0 with
        | Some n => if (n <=? 4294967294)%N then Some n else None
        | None => None
        end
  end.

Fixpoint insert_sorted {V : Type} (x : N * V) (sorted : list (N * V))
    : list (N * V) :=
  match sorted with
  | [] => [x]
  | y :: rest =>
      if (x.1 <=? y.1)%N then x :: sorted else y :: insert_sorted x rest
  end.

Definition index_properties (props : list (string * obj)) : list (N * obj) :=
  foldr insert_sorted []
    (omap (fun kv => match array_index kv.1 with
                     | Some n => Some (n, kv.2)
                     | None => None
                     end) props).

Definition string_properties (props : list (string * obj)) : list obj :=
  omap (fun kv => match array_index kv.1 with
                  | Some _ => None
                  | None => Some kv.2
                  end) props.

(** [Object.values(submissionGroups)]: the values under array-index keys
    in ascending order of the index, then the others in creation order. *)
Definition values (g : groups) : list obj :=
  (snd <$> index_properties (own g)) ++ string_properties (own g).

(** [c => c.group === group]; reading [group] from [null] throws. *)
Definition in_group (group : string) (c : json) : option bool :=
  v ← get c "group"; Some (strict_eq_string v group).

(** [Array.prototype.some] and [Array.prototype.filter] with a callback
    that may throw ([None]); [some] stops at the first hit. *)
Fixpoint some {A : Type} (p : A -> option bool) (xs : list A) : option bool :=
  match xs with
  | [] => Some false
  | x :: rest =>
      match p x with
      | Some true => Some true
      | Some false => some p rest
      | None => None
      end
  end.

Fixpoint filter {A : Type} (p : A -> option bool) (xs : list A)
    : option (list A) :=
  match xs with
  | [] => Some []
  | x :: rest =>
      match p x with
      | Some keep =>
          rest' ← filter p rest;
          Some (if keep then x :: rest' else rest')
      | None => None
      end
  end.

(** [s.cases && s.cases.length], and then the receiver of [.some]: an
    array that is not empty goes on ([Some (Some cases)]); a string that is
    not empty and an object with a truthy [length] pass the test but have
    no method [some], so the call throws ([None]); everything else is
    skipped ([Some None]). *)
Definition cases_to_scan (s : obj) : option (option (list json)) :=
  match s !! "cases" with
  | Some (JArr []) => Some None
  | Some (JArr cases) => Some (Some cases)
  | Some (JStr text) => if Str.truthy text then None else Some None
  | Some (JObj fields) =>
      if ToBoolean (fields !! "length") then None else Some None
  | _ => Some None
  end.

(** The key under which a submission is grouped, as a property name:
    [submissionGroups[key]] converts a key that is no string, which the
    [originalSubmissionId] of a record may be.  [None] when the template
    literal or that conversion throws. *)
Definition group_key (s : obj) : option string :=
  if ToBoolean (s !! "isEditedVersion")
     && ToBoolean (s !! "originalSubmissionId")
  then template (s !! "originalSubmissionId")
  else identityKey s.

(** The callback of [submissions.forEach]. *)
Definition visit (group : string) (submissionGroups : groups) (s : obj)
    : option groups :=
  scan ← cases_to_scan s;
  match scan with
  | Some cases =>
      match some (in_group group) cases with
      | Some hasGroupCases =>
          if hasGroupCases then
            key ← group_key s;
            if negb (holds submissionGroups key)
               || ToBoolean (s !! "isEditedVersion")
            then Some (assign submissionGroups key s)
            else Some submissionGroups
          else Some submissionGroups
      | None => None
      end
  | None => Some submissionGroups
  end.

(** The callback of [Object.values(submissionGroups).map]. *)
Definition entry (group : string) (s : obj) : option obj :=
  match s !! "cases" with
  | Some (JArr cases) =>
      filteredCases ← filter (in_group group) cases;
      Some (object_literal
        [ Field "conceptCard" (s !! "conceptCard");
          Field "username" (s !! "username");
          Field "email" (s !! "email");
          Field "submittedAt" (s !! "submittedAt");
          Field "isEditedVersion"
                (Some (or_else (s !! "isEditedVersion") (JBool false)));
          Field "originalSubmissionId"
                (Some (or_else (s !! "originalSubmissionId") JNull));
          Field "editedBy" (Some (or_else (s !! "editedBy") JNull));
          Field "editTimestamp" (Some (or_else (s !! "editTimestamp") JNull));
          Field "cases" (Some (JArr filteredCases)) ])
  | _ => None
  end.

Inductive response : Type :=
| Listing (data : list obj) (count : nat)   (* 200 *)
| GroupRequired                             (* 400 *)
| ServerError.                              (* 500 *)

(** The groups after the [forEach]. *)
Definition grouped (group : string) (submissions : list obj) : option groups :=
  Arr.forEach (visit group) submissions {| own := []; proto := None |}.

(** The route; [group] is [req.query.group]. *)
Definition group_submissions (group : option string) (FOCUS_GROUP_FILE : file)
    : response :=
  match group with
  | Some group =>
      if negb (Str.truthy group) then GroupRequired
      else
        let submissions := loadFocusGroupSubmissions FOCUS_GROUP_FILE in
        match grouped group submissions with
        | Some submissionGroups =>
            match mapM (entry group) (values submissionGroups) with
            | Some groupSubs => Listing groupSubs (length groupSubs)
            | None => ServerError
            end
        | None => ServerError
        end
  | None => GroupRequired
  end.

(** The [data] array of an answer. *)
Definition listed (r : response) : list obj :=
  match r with
  | Listing data _ => data
  | _ => []
  end.

End GroupListing.

(** ** Vocabulary of the further properties *)

Module MoreVocabulary.

(** No value of the list is the same (SameValueZero) as an earlier one. *)
Definition pairwise_distinct (vs : list json) : Prop :=
  ∀ i j a b, i < j -> vs !! i = Some a -> vs !! j = Some b ->
             same_value_zero b a = false.

(** What the two history routes keep true of the set of values seen and of
    the details collected: the set holds the values of the details, in
    order, without repetition, and every value is truthy. *)
Definition deduplicated (st : History.collected) : Prop :=
  st.1 = History.value <$> st.2
  ∧ pairwise_distinct st.1
  ∧ Forall (fun v => ToBoolean (Some v) = true) st.1.

(** From [st] to [st'] the details only grew at the end, by entries of
    source [src]. *)
Definition grows_by (src : string) (st st' : History.collected) : Prop :=
  ∃ added, st'.2 = st.2 ++ added
           ∧ Forall (fun entry => History.source entry = src) added.


(** A submission that the group listing may store for [group]: its [cases]
    are an array in which [some] finds a case of the group. *)
Definition hits_group (group : string) (s : obj) : Prop :=
  ∃ cases, s !! "cases" = Some (JArr cases)
           ∧ GroupListing.some (GroupListing.in_group group) cases
             = Some true.

(** A text with a pipe character in it, as every identity key is. *)
Fixpoint has_pipe (text : string) : bool :=
  match text with
  | EmptyString => false
  | String c rest => (Ascii.N_of_ascii c =? 124)%N || has_pipe rest
  end.

(** An account that the loop of the password script gets through: its
    user name is a string and its email converts to text. *)
Definition rehashable (user : obj) : Prop :=
  (∃ name, user !! "username" = Some (JStr name))
  ∧ is_Some (template (user !! "email")).

(** [Object.entries(submissionGroups)]: the own properties of [g] in the
    order in which [Object.values] lists their values, the array indices
    in ascending order first, then the other names in creation order.  The
    k-th entry of the listing is made from the k-th of them. *)
Definition listed_entries (g : GroupListing.groups) : list (string * obj) :=
  (snd <$> foldr GroupListing.insert_sorted []
     (omap (fun kv => match GroupListing.array_index kv.1 with
                      | Some n => Some (n, kv)
                      | None => None
                      end) (GroupListing.own g)))
  ++ omap (fun kv => match GroupListing.array_index kv.1 with
                     | Some _ => None
                     | None => Some kv
                     end) (GroupListing.own g).

(** The own keys of [g] are own keys of [g'] too. *)
Definition keeps_keys (g g' : GroupListing.groups) : Prop :=
  ∀ key, is_Some (GroupListing.own_property key (GroupListing.own g)) ->
         is_Some (GroupListing.own_property key (GroupListing.own g')).

End MoreVocabulary.

Export MoreVocabulary.

(** ** More sample data *)

Module MoreSamples.

(** A request body for a new case study that tries to set the fields the
    server decides. *)
Definition study_body : obj :=
  {[ "title" := JStr "Loan scoring";
     "author" := JStr "a@x.com";
     "id" := JStr "7";
     "status" := JStr "approved";
     "reviewed" := JBool true ]}.

(** An update that approves a study. *)
Definition approval : obj := {[ "status" := JStr "approved" ]}.

(** An individual case study of alice's with values and tensions, some of
    which her focus-group submission has already. *)
Definition alice_study : obj :=
  {[ "id" := JStr "1700000000001";
     "title" := JStr "Tutoring bot";
     "author" := JStr "a@x.com";
     "status" := JStr "pending";
     "submittedAt" := JStr "2024-01-05T00:00:00Z";
     "cases" := JArr
       [ JObj {[ "values" := JArr
                   [ JObj {[ "value" := JStr "Fairness";
                             "definition" := JStr "another reading" ]};
                     JObj {[ "value" := JStr "Care" ]} ];
                 "tensions" := JArr
                   [ JObj {[ "value" := JStr "Speed vs. Care" ]};
                     JObj {[ "value" := JStr "Cost vs. Reach" ]} ] ]} ] ]}.

(** The edited version of alice's submission, with a case of group G1. *)
Definition alice_regrouped : obj :=
  <["cases" := JArr [ JObj {[ "group" := JStr "G1" ]} ]]> Sample.alice_edited.

(** An edit addressed to the edited version by its own key. *)
Definition third_edit : Edit.request :=
  {| Edit.originalSubmissionId := "alice|a@x.com|2024-02-01T10:00:00.000Z";
     Edit.editedData := {[ "note" := JStr "third pass" ]};
     Edit.facilitatorComment := None;
     Edit.editedBy := Some (JStr "carol") |}.



(** A record without an identity key: its [username] is an object with a
    property [toString] of its own. *)
Definition unkeyed : obj :=
  {[ "username" := JObj {[ "toString" := JNum "1" ]};
     "email" := JStr "e";
     "submittedAt" := JStr "t" ]}.

(** The same record with a case of group G1. *)
Definition unkeyed_grouped : obj :=
  <["cases" := JArr [ JObj {[ "group" := JStr "G1" ]} ]]> unkeyed.

(** An edit whose facilitator comment is a number. *)
Definition numbered_edit : Edit.request :=
  {| Edit.originalSubmissionId := Sample.alice_key;
     Edit.editedData := {[ "note" := JStr "numbered" ]};
     Edit.facilitatorComment := Some (JNum "7");
     Edit.editedBy := None |}.


End MoreSamples.

(* ===================================================================== *)
(** * Part II: properties                                                 *)
(* ===================================================================== *)

(** ** Object literals and merging *)

Section Merge.

Implicit Types (A B target source : obj) (k : string).

Lemma lookup_spread target source k :
  define target (Spread source) !! k =
    match source !! k with
    | Some v => Some v
    | None => target !! k
    end.
Proof.
  simpl. rewrite lookup_union.
  destruct (source !! k) as [v|] eqn:Hs; destruct (target !! k); done.
Qed.

Lemma lookup_field_ne target k k' ov :
  k ≠ k' -> define target (Field k ov) !! k' = target !! k'.
Proof.
  intros Hne. destruct ov; simpl.
  - by rewrite lookup_insert_ne.
  - by rewrite lookup_delete_ne.
Qed.

Lemma lookup_field target k ov :
  define target (Field k ov) !! k = ov.
Proof.
  destruct ov; simpl; [apply lookup_insert_eq | apply lookup_delete_eq].
Qed.

Lemma object_literal_snoc (parts : list part) (p : part) :
  object_literal (parts ++ [p]) = define (object_literal parts) p.
Proof. unfold object_literal. by rewrite foldl_app. Qed.

Lemma shallow_merge_snoc (sources : list obj) (last : obj) :
  shallow_merge (sources ++ [last]) = last ∪ shallow_merge sources.
Proof.
  unfold shallow_merge. rewrite fmap_app. simpl.
  by rewrite object_literal_snoc.
Qed.

(** C4. Merge precedence: in [shallow_merge [A; B]] a field that [B] has
    carries [B]'s value and a field that only [A] has carries [A]'s value;
    with any number of sources the last one wins field by field and a field
    it lacks falls through to the merge of the earlier ones. *)
Theorem shallow_merge_precedence (A B : obj) (sources : list obj)
    (last : obj) (k : string) :
  shallow_merge [A; B] !! k =
    match B !! k with
    | Some v => Some v
    | None => A !! k
    end
  ∧ shallow_merge (sources ++ [last]) !! k =
    match last !! k with
    | Some v => Some v
    | None => shallow_merge sources !! k
    end
  ∧ shallow_merge [] !! k = None.
Proof.
  split; [|split].
  - unfold shallow_merge, object_literal. simpl.
    rewrite !lookup_union, lookup_empty.
    destruct (B !! k), (A !! k); done.
  - rewrite shallow_merge_snoc. apply (lookup_spread _ last k).
  - apply lookup_empty.
Qed.

End Merge.

(** ** Submission identity *)

Section IdentityKey.

(** C5. The key is the concatenation of the three fields with pipes
    between them, and it depends on nothing else: two submissions that agree
    on [username], [email] and [submittedAt] have the same key. *)
Theorem identityKey_deterministic (a b : obj)
    (Husername : a !! "username" = b !! "username")
    (Hemail : a !! "email" = b !! "email")
    (HsubmittedAt : a !! "submittedAt" = b !! "submittedAt") :
  identityKey a = identityKey b
  ∧ ∀ username email submittedAt : string,
      a !! "username" = Some (JStr username) ->
      a !! "email" = Some (JStr email) ->
      a !! "submittedAt" = Some (JStr submittedAt) ->
      identityKey a
      = Some (username +:+ "|" +:+ email +:+ "|" +:+ submittedAt).
Proof.
  split.
  - unfold identityKey. by rewrite Husername, Hemail, HsubmittedAt.
  - intros u e t Hu He Ht. unfold identityKey. by rewrite Hu, He, Ht.
Qed.

Lemma identityKey_deterministic_witness :
  let a : obj := {[ "username" := JStr "alice"; "email" := JStr "a@x.com";
                    "submittedAt" := JStr "2024-01-01T00:00:00Z";
                    "cases" := JArr [] ]} in
  let b : obj := {[ "username" := JStr "alice"; "email" := JStr "a@x.com";
                    "submittedAt" := JStr "2024-01-01T00:00:00Z";
                    "isEditedVersion" := JBool true ]} in
  identityKey a = identityKey b
  ∧ identityKey a = Some "alice|a@x.com|2024-01-01T00:00:00Z".
Proof.
  intros a b.
  destruct (identityKey_deterministic a b) as [Heq Hcat];
    [reflexivity | reflexivity | reflexivity |].
  split; [exact Heq|].
  apply (Hcat "alice" "a@x.com" "2024-01-01T00:00:00Z"); reflexivity.
Defined.

(** A record whose three key fields are strings has a key. *)
Lemma identityKey_strings (sub : obj) (username email submittedAt : string) :
  sub !! "username" = Some (JStr username) ->
  sub !! "email" = Some (JStr email) ->
  sub !! "submittedAt" = Some (JStr submittedAt) ->
  identityKey sub = Some (username +:+ "|" +:+ email +:+ "|" +:+ submittedAt).
Proof. intros Hu He Ht. unfold identityKey. by rewrite Hu, He, Ht. Qed.

(** A key field that is an object with a property [toString] of its own
    leaves the record without a key. *)
Lemma identityKey_poisoned (sub fields : obj) (v : json) :
  sub !! "username" = Some (JObj fields) ->
  fields !! "toString" = Some v ->
  identityKey sub = None.
Proof. intros Hu Hf. unfold identityKey. rewrite Hu. simpl. by rewrite Hf. Qed.

End IdentityKey.

(** ** Searching arrays *)

Section Search.

Context {A : Type}.
Implicit Types (p : A -> bool) (xs pre post : list A) (x : A).

Lemma find_None p xs :
  Arr.find p xs = None <-> ∀ x, x ∈ xs -> p x = false.
Proof.
  induction xs as [|y xs IH]; simpl.
  - split; [intros _ x Hx; by apply not_elem_of_nil in Hx | done].
  - destruct (p y) eqn:Hy.
    + split; [done|]. intros H. specialize (H y (list_elem_of_here _ _)).
      congruence.
    + rewrite IH. split.
      * intros H x Hx. apply elem_of_cons in Hx as [->|Hx]; auto.
      * intros H x Hx. apply H. by apply list_elem_of_further.
Qed.

(** [find] returns the first element the test accepts, and [findIndex] its
    position. *)
Lemma find_Some_split p xs x :
  Arr.find p xs = Some x ->
  ∃ pre post,
    xs = pre ++ x :: post
    ∧ (∀ y, y ∈ pre -> p y = false)
    ∧ p x = true
    ∧ Arr.findIndex p xs = Some (length pre).
Proof.
  induction xs as [|y xs IH]; simpl; [done|].
  destruct (p y) eqn:Hy.
  - intros [= ->]. exists [], xs. repeat split; try done.
    intros z Hz. by apply not_elem_of_nil in Hz.
  - intros Hfind. destruct (IH Hfind) as (pre & post & -> & Hpre & Hx & Hidx).
    exists (y :: pre), post. repeat split; try done.
    + intros z Hz. apply elem_of_cons in Hz as [->|Hz]; auto.
    + by rewrite Hidx.
Qed.


Lemma find_app_Some p xs ys x :
  Arr.find p xs = Some x -> Arr.find p (xs ++ ys) = Some x.
Proof.
  induction xs as [|y xs IH]; simpl; [done|].
  destruct (p y); auto.
Qed.

Lemma insert_middle pre post x y :
  <[length pre := y]> (pre ++ x :: post) = pre ++ y :: post.
Proof.
  induction pre as [|z pre IH]; simpl; [done|]. by rewrite IH.
Qed.

Lemma lookup_middle pre post x :
  (pre ++ x :: post) !! length pre = Some x.
Proof. induction pre as [|z pre IH]; simpl; done. Qed.

Lemma elem_of_middle pre post x : x ∈ pre ++ x :: post.
Proof. apply elem_of_app. right. apply list_elem_of_here. Qed.

Lemma elem_of_middle_rest pre post x y :
  y ∈ pre ++ post -> y ∈ pre ++ x :: post.
Proof.
  rewrite !elem_of_app. intros [H|H]; [by left|].
  right. by apply list_elem_of_further.
Qed.

Lemma alter_middle (f : A -> A) pre post x :
  alter f (length pre) (pre ++ x :: post) = pre ++ f x :: post.
Proof.
  induction pre as [|z pre IH]; simpl; [done|]. f_equal. apply IH.
Qed.

(** *** Searches whose test may throw *)

Implicit Types (t : A -> option bool).

Lemma find_or_throw_None t xs :
  Arr.find_or_throw t xs = Some None <-> ∀ x, x ∈ xs -> t x = Some false.
Proof.
  induction xs as [|y xs IH]; simpl.
  - split; [intros _ x Hx; by apply not_elem_of_nil in Hx | done].
  - destruct (t y) as [[|]|] eqn:Hy.
    + split; [done|]. intros H. specialize (H y (list_elem_of_here _ _)).
      congruence.
    + rewrite IH. split.
      * intros H x Hx. apply elem_of_cons in Hx as [->|Hx]; auto.
      * intros H x Hx. apply H. by apply list_elem_of_further.
    + split; [done|]. intros H. specialize (H y (list_elem_of_here _ _)).
      congruence.
Qed.

Lemma find_or_throw_Some_split t xs x :
  Arr.find_or_throw t xs = Some (Some x) ->
  ∃ pre post,
    xs = pre ++ x :: post
    ∧ (∀ y, y ∈ pre -> t y = Some false)
    ∧ t x = Some true
    ∧ Arr.findIndex_or_throw t xs = Some (Some (length pre)).
Proof.
  induction xs as [|y xs IH]; simpl; [done|].
  destruct (t y) as [[|]|] eqn:Hy; [| |done].
  - intros [= ->]. exists [], xs. repeat split; try done.
    intros z Hz. by apply not_elem_of_nil in Hz.
  - intros Hfind. destruct (IH Hfind) as (pre & post & -> & Hpre & Hx & Hidx).
    exists (y :: pre), post. repeat split; try done.
    + intros z Hz. apply elem_of_cons in Hz as [->|Hz]; auto.
    + by rewrite Hidx.
Qed.

(** A test that answers on every element never makes the search throw,
    and the search finds what there is to find. *)
Lemma find_or_throw_total t xs :
  (∀ x, x ∈ xs -> is_Some (t x)) -> is_Some (Arr.find_or_throw t xs).
Proof.
  induction xs as [|y xs IH]; simpl; intros Hall; [by eexists|].
  destruct (Hall y (list_elem_of_here _ _)) as [[|] ->]; [by eexists|].
  apply IH. intros x Hx. apply Hall. by apply list_elem_of_further.
Qed.

Lemma find_or_throw_is_Some t xs :
  (∀ x, x ∈ xs -> is_Some (t x)) ->
  (∃ x, x ∈ xs ∧ t x = Some true) ->
  ∃ x, Arr.find_or_throw t xs = Some (Some x).
Proof.
  intros Hall (x & Hx & Hp).
  destruct (find_or_throw_total t xs Hall) as [[y|] Hfind]; [by exists y|].
  rewrite find_or_throw_None in Hfind. rewrite (Hfind x Hx) in Hp. done.
Qed.


Lemma find_or_throw_app_clean t xs ys :
  (∀ x, x ∈ xs -> t x = Some false) ->
  Arr.find_or_throw t (xs ++ ys) = Arr.find_or_throw t ys.
Proof.
  induction xs as [|y xs IH]; simpl; intros Hclean; [done|].
  rewrite (Hclean y (list_elem_of_here _ _)). apply IH.
  intros x Hx. apply Hclean. by apply list_elem_of_further.
Qed.

End Search.

(** ** Edit reconciliation *)

Import Edit.

Section Reconciliation.

Implicit Types (now : clock) (req : request) (store : list obj)
  (original existing edited sub : obj) (k : string).

(** The comment is attached under three names and touches nothing else. *)
Lemma attach_comment_lookup_ne now ticks req sub k :
  k ≠ "facilitatorComment" ->
  k ≠ "facilitatorCommentTimestamp" ->
  k ≠ "facilitatorCommentBy" ->
  attach_comment now ticks req sub !! k = sub !! k.
Proof.
  intros H1 H2 H3. unfold attach_comment. cbn [foldl].
  by rewrite !lookup_field_ne by congruence.
Qed.

(** A comment that is text never makes the test of the comment throw. *)
Lemma has_comment_text req :
  comment_is_text req -> ∃ attach, has_comment req = Some attach.
Proof.
  unfold comment_is_text, has_comment. intros Htext.
  destruct (facilitatorComment req) as [v|]; [|by eexists].
  destruct (ToBoolean (Some v)) eqn:Hv.
  - destruct (Htext v eq_refl Hv) as [comment ->]. by eexists.
  - destruct v; by eexists.
Qed.

Lemma without_comment_text req : has_comment (without_comment req) = Some false.
Proof. done. Qed.

(** *** The tests of the three searches *)

Lemma has_key_true (id : string) sub :
  has_key id sub = Some true <-> identityKey sub = Some id.
Proof.
  unfold has_key. destruct (identityKey sub) as [key|]; simpl; [|done].
  split.
  - intros [= Hkey%bool_decide_eq_true]. by subst.
  - intros [= ->]. by rewrite bool_decide_eq_true_2.
Qed.

Lemma has_key_false (id : string) sub :
  has_key id sub = Some false
  <-> ∃ key, identityKey sub = Some key ∧ key ≠ id.
Proof.
  unfold has_key. destruct (identityKey sub) as [key|]; simpl.
  - split.
    + intros [= Hkey%bool_decide_eq_false]. by exists key.
    + intros (key' & [= <-] & Hne). by rewrite bool_decide_eq_false_2.
  - split; [done | by intros (? & ? & _)].
Qed.

Lemma has_key_keyed (id : string) sub :
  is_Some (identityKey sub) ->
  has_key id sub = Some (bool_decide (identityKey sub = Some id)).
Proof.
  intros [key Hkey]. unfold has_key. rewrite Hkey. simpl. f_equal.
  apply bool_decide_ext. split; [by intros -> | by intros [= ->]].
Qed.

Lemma keyed_has_key (id : string) store :
  keyed store -> ∀ sub, sub ∈ store -> is_Some (has_key id sub).
Proof.
  intros Hkeyed sub Hsub. rewrite has_key_keyed by by apply Hkeyed.
  by eexists.
Qed.

Lemma keyed_is_edit_with_key (id : string) store :
  keyed store -> ∀ sub, sub ∈ store -> is_Some (is_edit_with_key id sub).
Proof.
  intros Hkeyed sub Hsub. unfold is_edit_with_key.
  destruct (ToBoolean _); [by apply (keyed_has_key id store) | by eexists].
Qed.

Lemma is_edit_with_key_true (id : string) sub :
  is_edit_with_key id sub = Some true ->
  ToBoolean (sub !! "isEditedVersion") = true ∧ identityKey sub = Some id.
Proof.
  unfold is_edit_with_key. destruct (ToBoolean _); [|done].
  intros Hkey. by apply has_key_true in Hkey.
Qed.

Lemma keyed_app store more : keyed store -> keyed more -> keyed (store ++ more).
Proof.
  intros H1 H2 sub [Hsub|Hsub]%elem_of_app; [by apply H1 | by apply H2].
Qed.

(** In a store whose records all have keys the first search finds the
    original when there is one. *)
Lemma find_original now req store :
  keyed store ->
  (∃ sub, sub ∈ store ∧ identityKey sub = Some (originalSubmissionId req)) ->
  ∃ original,
    Arr.find_or_throw (has_key (originalSubmissionId req)) store
      = Some (Some original)
    ∧ original ∈ store
    ∧ identityKey original = Some (originalSubmissionId req).
Proof.
  intros Hkeyed (sub & Hsub & Hkey).
  destruct (find_or_throw_is_Some (has_key (originalSubmissionId req)) store)
    as [original Hfind].
  { by apply keyed_has_key. }
  { exists sub. split; [done|]. by apply has_key_true. }
  exists original. split; [done|].
  destruct (find_or_throw_Some_split _ _ _ Hfind)
    as (pre & post & -> & _ & Hpass & _).
  split; [apply elem_of_middle | by apply has_key_true].
Qed.

(** The three branches of [reconcile], and the search that may throw
    before them. *)
Lemma reconcile_throws now req store original :
  Arr.find_or_throw (is_edit_with_key (originalSubmissionId req)) store = None ->
  reconcile now req store original = None.
Proof. intros Hthrow. unfold reconcile. by rewrite Hthrow. Qed.

Lemma reconcile_existing now req store original existing :
  Arr.find (is_edit_of (originalSubmissionId req)) store = Some existing ->
  is_Some (Arr.find_or_throw (is_edit_with_key (originalSubmissionId req))
                             store) ->
  ∃ pre post,
    store = pre ++ existing :: post
    ∧ (∀ sub, sub ∈ pre -> is_edit_of (originalSubmissionId req) sub = false)
    ∧ is_edit_of (originalSubmissionId req) existing = true
    ∧ reconcile now req store original =
        Some (pre ++ object_literal
                  [ Spread original; Spread existing; Spread (editedData req);
                    Field "editTimestamp" (Some (JStr (now 0)));
                    Field "editedBy" (Some (editor req)) ] :: post,
              Some (length pre), false, 1).
Proof.
  intros Hfind [editing Hed].
  destruct (find_Some_split _ _ _ Hfind) as (pre & post & -> & Hpre & Hx & Hidx).
  exists pre, post. repeat split; try done.
  unfold reconcile. rewrite Hed, Hfind, Hidx. simpl.
  by rewrite insert_middle.
Qed.

Lemma reconcile_editing now req store original edited :
  Arr.find (is_edit_of (originalSubmissionId req)) store = None ->
  Arr.find_or_throw (is_edit_with_key (originalSubmissionId req)) store
    = Some (Some edited) ->
  ∃ pre post,
    store = pre ++ edited :: post
    ∧ (∀ sub, sub ∈ pre ->
         is_edit_with_key (originalSubmissionId req) sub = Some false)
    ∧ is_edit_with_key (originalSubmissionId req) edited = Some true
    ∧ reconcile now req store original =
        Some (pre ++ object_literal
                  [ Spread edited; Spread (editedData req);
                    Field "editTimestamp" (Some (JStr (now 0)));
                    Field "editedBy" (Some (editor req)) ] :: post,
              Some (length pre), false, 1).
Proof.
  intros Hnone Hfind.
  destruct (find_or_throw_Some_split _ _ _ Hfind)
    as (pre & post & -> & Hpre & Hx & Hidx).
  exists pre, post. repeat split; try done.
  unfold reconcile. rewrite Hnone, Hfind. simpl. rewrite Hidx. simpl.
  by rewrite insert_middle.
Qed.

Lemma reconcile_fresh now req store original :
  Arr.find (is_edit_of (originalSubmissionId req)) store = None ->
  Arr.find_or_throw (is_edit_with_key (originalSubmissionId req)) store
    = Some None ->
  reconcile now req store original =
    Some (store ++ [ object_literal
                  [ Spread original; Spread (editedData req);
                    Field "submittedAt" (Some (JStr (now 0)));
                    Field "isEditedVersion" (Some (JBool true));
                    Field "originalSubmissionId"
                          (Some (JStr (originalSubmissionId req)));
                    Field "editedBy" (Some (editor req));
                    Field "editTimestamp" (Some (JStr (now 1))) ] ],
          Some (length store), true, 2).
Proof. intros H1 H2. unfold reconcile. by rewrite H1, H2. Qed.

(** The array [reconcile] returns is the store with one record overwritten
    or with one record added, and the index returned is the index of that
    record. *)
Lemma reconcile_frame now req store original result :
  reconcile now req store original = Some result ->
  ∃ pre x post isNewVersion ticks,
    result = (pre ++ x :: post, Some (length pre), isNewVersion, ticks)
    ∧ ((isNewVersion = false ∧ ∃ old, store = pre ++ old :: post)
       ∨ (isNewVersion = true ∧ store = pre ∧ post = [])).
Proof.
  destruct (Arr.find_or_throw (is_edit_with_key (originalSubmissionId req))
              store) as [editing|] eqn:Hed;
    [|by rewrite reconcile_throws].
  destruct (Arr.find (is_edit_of (originalSubmissionId req)) store)
    as [existing|] eqn:Hex.
  { destruct (reconcile_existing now req store original existing Hex)
      as (pre & post & Hstore & _ & _ & ->); [by eexists|].
    intros [= <-]. eexists pre, _, post, _, _. split; [done|]. left.
    split; [done|]. by exists existing. }
  destruct editing as [edited|].
  { destruct (reconcile_editing now req store original edited Hex Hed)
      as (pre & post & Hstore & _ & _ & ->).
    intros [= <-]. eexists pre, _, post, _, _. split; [done|]. left.
    split; [done|]. by exists edited. }
  rewrite (reconcile_fresh _ _ _ _ Hex Hed).
  intros [= <-]. eexists store, _, [], _, _. split; [done|]. by right.
Qed.

(** What the route leaves once [reconcile] has returned: the array is
    written as it is; the comment decides the answer and what the object
    in memory looks like. *)
Lemma save_reconciled now req store original pre x post isNewVersion ticks :
  Arr.find_or_throw (has_key (originalSubmissionId req)) store
    = Some (Some original) ->
  reconcile now req store original
    = Some (pre ++ x :: post, Some (length pre), isNewVersion, ticks) ->
  file_after (save_edited_submission now req (Some store))
    = Some (pre ++ x :: post)
  ∧ slot (save_edited_submission now req (Some store)) = Some (length pre)
  ∧ match has_comment req with
    | Some attach =>
        reply (save_edited_submission now req (Some store))
          = Saved (x !! "submittedAt") isNewVersion
        ∧ memory (save_edited_submission now req (Some store))
          = pre ++ (if attach then attach_comment now ticks req x else x)
                :: post
    | None =>
        reply (save_edited_submission now req (Some store)) = ServerError
        ∧ memory (save_edited_submission now req (Some store))
          = pre ++ x :: post
    end.
Proof.
  intros Hfind Hrec. unfold save_edited_submission. rewrite Hfind, Hrec.
  destruct (has_comment req) as [[|]|]; simpl.
  - rewrite alter_middle, lookup_middle. simpl.
    by rewrite attach_comment_lookup_ne.
  - by rewrite lookup_middle.
  - done.
Qed.

(** The ways a request over a file that was read can end. *)
Lemma save_cases now req store :
  (file_after (save_edited_submission now req (Some store)) = Some store
   ∧ slot (save_edited_submission now req (Some store)) = None
   ∧ (reply (save_edited_submission now req (Some store)) = ServerError
      ∨ reply (save_edited_submission now req (Some store)) = NotFound))
  ∨ ∃ original pre x post isNewVersion ticks,
      Arr.find_or_throw (has_key (originalSubmissionId req)) store
        = Some (Some original)
      ∧ reconcile now req store original
        = Some (pre ++ x :: post, Some (length pre), isNewVersion, ticks).
Proof.
  unfold save_edited_submission.
  destruct (Arr.find_or_throw (has_key (originalSubmissionId req)) store)
    as [[original|]|] eqn:Hfind; [| left; auto | left; auto].
  destruct (reconcile now req store original) as [result|] eqn:Hrec;
    [| left; auto].
  right.
  destruct (reconcile_frame _ _ _ _ _ Hrec)
    as (pre & x & post & isNew & ticks & -> & _).
  by eexists original, pre, x, post, isNew, ticks.
Qed.

(** The three ways in which a request over a file that was read ends
    before anything is written. *)
Lemma save_search_throws now req store :
  Arr.find_or_throw (has_key (originalSubmissionId req)) store = None ->
  save_edited_submission now req (Some store)
  = {| file_after := Some store; memory := store; slot := None;
       reply := ServerError |}.
Proof. intros Hfind. unfold save_edited_submission. by rewrite Hfind. Qed.

Lemma save_not_found now req store :
  Arr.find_or_throw (has_key (originalSubmissionId req)) store = Some None ->
  save_edited_submission now req (Some store)
  = {| file_after := Some store; memory := store; slot := None;
       reply := NotFound |}.
Proof. intros Hfind. unfold save_edited_submission. by rewrite Hfind. Qed.

Lemma save_reconcile_throws now req store original :
  Arr.find_or_throw (has_key (originalSubmissionId req)) store
    = Some (Some original) ->
  reconcile now req store original = None ->
  save_edited_submission now req (Some store)
  = {| file_after := Some store; memory := store; slot := None;
       reply := ServerError |}.
Proof.
  intros Hfind Hrec. unfold save_edited_submission. by rewrite Hfind, Hrec.
Qed.

(** When no search throws, [reconcile] returns. *)
Lemma reconcile_total now req store original :
  is_Some (Arr.find_or_throw (is_edit_with_key (originalSubmissionId req))
                             store) ->
  is_Some (reconcile now req store original).
Proof.
  intros [editing Hed].
  destruct (Arr.find (is_edit_of (originalSubmissionId req)) store)
    as [existing|] eqn:Hex.
  { destruct (reconcile_existing now req store original existing Hex)
      as (pre & post & _ & _ & _ & ->); by eexists. }
  destruct editing as [edited|].
  { destruct (reconcile_editing now req store original edited Hex Hed)
      as (pre & post & _ & _ & _ & ->). by eexists. }
  rewrite (reconcile_fresh _ _ _ _ Hex Hed). by eexists.
Qed.

(** A request ends with 500 exactly when the file cannot be read, when a
    search throws (before anything is written), or when the original was
    found, no search threw and the comment is truthy and no string (after
    the write). *)
Lemma edit_server_error_iff now req store :
  reply (save_edited_submission now req (Some store)) = ServerError
  <-> Arr.find_or_throw (has_key (originalSubmissionId req)) store = None
      ∨ ∃ original,
          Arr.find_or_throw (has_key (originalSubmissionId req)) store
            = Some (Some original)
          ∧ (Arr.find_or_throw
               (is_edit_with_key (originalSubmissionId req)) store = None
             ∨ has_comment req = None).
Proof.
  destruct (Arr.find_or_throw (has_key (originalSubmissionId req)) store)
    as [[original|]|] eqn:Hfind.
  - destruct (Arr.find_or_throw
                (is_edit_with_key (originalSubmissionId req)) store)
      as [editing|] eqn:Hed.
    + destruct (reconcile_total now req store original) as [result Hrec];
        [by eexists|].
      destruct (reconcile_frame _ _ _ _ _ Hrec)
        as (pre & x & post & isNew & ticks & -> & _).
      destruct (save_reconciled _ _ _ _ _ _ _ _ _ Hfind Hrec)
        as (_ & _ & Hanswer).
      destruct (has_comment req) as [attach|];
        destruct Hanswer as [-> _].
      * split; [done|]. by intros [?|(? & _ & [?|?])].
      * split; [|done]. intros _. right. exists original. by auto.
    + rewrite (save_reconcile_throws _ _ _ _ Hfind)
        by by apply reconcile_throws.
      split; [|done]. intros _. right. exists original. by auto.
  - rewrite (save_not_found _ _ _ Hfind). simpl.
    split; [done|]. by intros [?|(? & ? & _)].
  - rewrite (save_search_throws _ _ _ Hfind). simpl.
    split; [by left | done].
Qed.

(** A request that does not end with 500 over a store that holds a
    record with the requested key has found its original, and its other
    search did not throw. *)
Lemma found_original now req store :
  reply (save_edited_submission now req (Some store)) ≠ ServerError ->
  (∃ sub, sub ∈ store ∧ identityKey sub = Some (originalSubmissionId req)) ->
  ∃ original,
    Arr.find_or_throw (has_key (originalSubmissionId req)) store
      = Some (Some original)
    ∧ original ∈ store
    ∧ identityKey original = Some (originalSubmissionId req)
    ∧ is_Some (Arr.find_or_throw
                 (is_edit_with_key (originalSubmissionId req)) store).
Proof.
  rewrite edit_server_error_iff. intros Hok (sub & Hsub & Hkey).
  destruct (Arr.find_or_throw (has_key (originalSubmissionId req)) store)
    as [[original|]|] eqn:Hfind.
  - exists original. split; [done|].
    destruct (find_or_throw_Some_split _ _ _ Hfind)
      as (pre & post & Hstore & _ & Hpass & _).
    split; [rewrite Hstore; apply elem_of_middle|].
    split; [by apply has_key_true|].
    destruct (Arr.find_or_throw
                (is_edit_with_key (originalSubmissionId req)) store)
      as [editing|] eqn:Hed; [by eexists|].
    destruct Hok. right. exists original. by auto.
  - rewrite find_or_throw_None in Hfind.
    apply has_key_true in Hkey. rewrite (Hfind sub Hsub) in Hkey. done.
  - destruct Hok. by left.
Qed.

(** Over a store whose records all have identity keys, a request whose
    comment is text when truthy is never answered 500. *)
Lemma edit_answered now req store :
  keyed store -> comment_is_text req ->
  reply (save_edited_submission now req (Some store)) ≠ ServerError.
Proof.
  intros Hkeyed Hcomment. rewrite edit_server_error_iff.
  destruct (find_or_throw_total (has_key (originalSubmissionId req)) store)
    as [found Hfound]; [by apply keyed_has_key|].
  destruct (find_or_throw_total
              (is_edit_with_key (originalSubmissionId req)) store)
    as [editing Hed]; [by apply keyed_is_edit_with_key|].
  destruct (has_comment_text req Hcomment) as [attach Hattach].
  intros [Hthrow|(original & _ & [Hthrow|Hthrow])]; congruence.
Qed.

(** C6. Over a file that was read, the edit request answers NotFound
    exactly when every record has an identity key and none of these keys
    is the requested one.  So, unless the request ends with 500 (and in
    particular when all records have identity keys), it answers NotFound
    exactly when no submission has the requested identity key.  The file
    is then left as it was. *)
Theorem edit_not_found_iff now req store :
  (reply (save_edited_submission now req (Some store)) = NotFound
   <-> ∀ sub, sub ∈ store ->
         ∃ key, identityKey sub = Some key
                ∧ key ≠ originalSubmissionId req)
  ∧ (reply (save_edited_submission now req (Some store)) ≠ ServerError ->
     (reply (save_edited_submission now req (Some store)) = NotFound
      <-> ∀ sub, sub ∈ store ->
            identityKey sub ≠ Some (originalSubmissionId req)))
  ∧ (keyed store ->
     (reply (save_edited_submission now req (Some store)) = NotFound
      <-> ∀ sub, sub ∈ store ->
            identityKey sub ≠ Some (originalSubmissionId req)))
  ∧ (reply (save_edited_submission now req (Some store)) = NotFound ->
     file_after (save_edited_submission now req (Some store))
       = Some store).
Proof.
  assert (Hiff :
    reply (save_edited_submission now req (Some store)) = NotFound
    <-> Arr.find_or_throw (has_key (originalSubmissionId req)) store
        = Some None).
  { unfold save_edited_submission.
    destruct (Arr.find_or_throw (has_key (originalSubmissionId req)) store)
      as [[original|]|]; [|done|done].
    destruct (reconcile now req store original) as [[[[? ?] ?] ?]|];
      [|done].
    by destruct (has_comment req). }
  assert (Hexact :
    reply (save_edited_submission now req (Some store)) = NotFound
    <-> ∀ sub, sub ∈ store ->
          ∃ key, identityKey sub = Some key
                 ∧ key ≠ originalSubmissionId req).
  { rewrite Hiff, find_or_throw_None. split.
    - intros Hnone sub Hsub. by apply has_key_false, Hnone.
    - intros Hnone sub Hsub. by apply has_key_false, Hnone. }
  assert (Hnone_key :
    reply (save_edited_submission now req (Some store)) = NotFound ->
    ∀ sub, sub ∈ store ->
      identityKey sub ≠ Some (originalSubmissionId req)).
  { intros Hnf sub Hsub Hkey.
    destruct (proj1 Hexact Hnf sub Hsub) as (key & Hkey' & Hne).
    congruence. }
  split; [done|]. split; [|split].
  - intros Hok. split; [done|]. intros Hnone. apply Hiff.
    destruct (Arr.find_or_throw (has_key (originalSubmissionId req)) store)
      as [[original|]|] eqn:Hfind; [exfalso | done | exfalso].
    + destruct (find_or_throw_Some_split _ _ _ Hfind)
        as (pre & post & Hstore & _ & Hpass & _).
      apply has_key_true in Hpass. apply (Hnone original); [|done].
      rewrite Hstore. apply elem_of_middle.
    + apply Hok. by rewrite save_search_throws.
  - intros Hkeyed. split; [done|]. intros Hnone. apply Hexact.
    intros sub Hsub. destruct (Hkeyed sub Hsub) as [key Hkey].
    exists key. split; [done|]. intros ->. by apply (Hnone sub Hsub).
  - rewrite Hiff. intros Hfind. by rewrite save_not_found.
Qed.

(** The record each branch builds, written with map operations. *)
Lemma new_version_literal now req original :
  object_literal
    [ Spread original; Spread (editedData req);
      Field "submittedAt" (Some (JStr (now 0)));
      Field "isEditedVersion" (Some (JBool true));
      Field "originalSubmissionId" (Some (JStr (originalSubmissionId req)));
      Field "editedBy" (Some (editor req));
      Field "editTimestamp" (Some (JStr (now 1))) ]
  = <["editTimestamp" := JStr (now 1)]>
      (<["editedBy" := editor req]>
         (<["originalSubmissionId" := JStr (originalSubmissionId req)]>
            (<["isEditedVersion" := JBool true]>
               (<["submittedAt" := JStr (now 0)]>
                  (shallow_merge [original; editedData req]))))).
Proof. reflexivity. Qed.







(** *** One edited version per original *)

Lemma marked_edit_is_edit (id : string) sub :
  marked_edit_of id sub = true -> is_edit_of id sub = true.
Proof.
  unfold marked_edit_of, is_edit_of.
  destruct (sub !! "isEditedVersion") as [[| [|] | | | |]|]; try done.
Qed.

(** On records whose flag is a boolean the route's truthiness test and
    the comparison with [true] agree. *)
Lemma is_edit_of_marked (id : string) sub :
  flag_is_boolean sub -> is_edit_of id sub = marked_edit_of id sub.
Proof.
  unfold is_edit_of, marked_edit_of.
  intros [-> | [[|] ->]]; done.
Qed.

Section Guarded.

Variable id : string.
Variable q : obj -> bool.
Hypothesis q_is_edit : ∀ sub, q sub = true -> is_edit_of id sub = true.

Lemma clean_unmarked store :
  (∀ sub, sub ∈ store -> is_edit_of id sub = false) ->
  forallb (fun r => negb (q r)) store = true.
Proof.
  intros Hclean. apply forallb_forall. intros sub Hsub.
  apply list_elem_of_In in Hsub. specialize (Hclean sub Hsub).
  destruct (q sub) eqn:Hq; [|done].
  rewrite (q_is_edit sub Hq) in Hclean. done.
Qed.

Lemma unmarked_guarded store :
  forallb (fun r => negb (q r)) store = true -> guarded q id store = true.
Proof.
  induction store as [|sub rest IH]; simpl; [done|].
  intros [Hsub Hrest]%andb_true_iff.
  destruct (is_edit_of id sub); auto.
Qed.

Lemma guarded_app_clean pre store :
  (∀ sub, sub ∈ pre -> is_edit_of id sub = false) ->
  guarded q id (pre ++ store) = guarded q id store.
Proof.
  induction pre as [|y pre IH]; simpl; [done|]. intros Hpre.
  rewrite (Hpre y (list_elem_of_here _ _)). apply IH.
  intros sub Hsub. apply Hpre. by apply list_elem_of_further.
Qed.

Lemma unmarked_count store :
  forallb (fun r => negb (q r)) store = true -> count q store = 0.
Proof.
  unfold count. induction store as [|sub rest IH]; simpl; [done|].
  intros [Hsub Hrest]%andb_true_iff.
  destruct (q sub); [done|]. auto.
Qed.

Lemma guarded_count store :
  guarded q id store = true -> count q store <= 1.
Proof.
  induction store as [|sub rest IH]; [unfold count; simpl; lia|].
  simpl. intros Hg. unfold count in *. simpl.
  destruct (is_edit_of id sub) eqn:Hsub.
  - apply unmarked_count in Hg. unfold count in Hg.
    destruct (q sub); simpl; lia.
  - destruct (q sub) eqn:Hq; [|auto].
    rewrite (q_is_edit sub Hq) in Hsub. done.
Qed.

(** Overwriting the first record the search accepts, or any record of a
    store in which the search accepts none, keeps the shape. *)
Lemma guarded_replace pre post old new :
  (∀ sub, sub ∈ pre -> is_edit_of id sub = false) ->
  is_edit_of id old = true
  ∨ (∀ sub, sub ∈ post -> is_edit_of id sub = false) ->
  guarded q id (pre ++ old :: post) = true ->
  guarded q id (pre ++ new :: post) = true.
Proof.
  intros Hpre Hcase. rewrite !guarded_app_clean by done. simpl.
  intros Hg.
  assert (Hpost : forallb (fun r => negb (q r)) post = true).
  { destruct Hcase as [Hold|Hpost]; [by rewrite Hold in Hg|].
    by apply clean_unmarked. }
  destruct (is_edit_of id new); [done|]. by apply unmarked_guarded.
Qed.

Lemma save_guarded now req store :
  originalSubmissionId req = id ->
  guarded q id store = true ->
  ∃ store',
    file_after (save_edited_submission now req (Some store)) = Some store'
    ∧ guarded q id store' = true.
Proof.
  intros Hid Hg.
  destruct (save_cases now req store)
    as [(Hfile & _)|(original & pre & x & post & isNew & ticks & Hfind & Hrec)];
    [by exists store|].
  destruct (save_reconciled _ _ _ _ _ _ _ _ _ Hfind Hrec) as (Hfile & _).
  exists (pre ++ x :: post). split; [done|]. clear Hfile.
  rewrite Hid in *.
  destruct (Arr.find_or_throw (is_edit_with_key id) store)
    as [editing|] eqn:Hed.
  2:{ rewrite <- Hid in Hed. by rewrite reconcile_throws in Hrec. }
  destruct (Arr.find (is_edit_of id) store) as [existing|] eqn:Hex.
  { rewrite <- Hid in Hex, Hed.
    destruct (reconcile_existing now req store original existing Hex)
      as (pre' & post' & Hstore & Hpre & Hpass & Hrec'); [by eexists|].
    rewrite Hrec' in Hrec. injection Hrec as Heq _ _ _. rewrite <- Heq.
    rewrite Hid in *. subst store. eapply guarded_replace; eauto. }
  pose proof Hex as Hclean. rewrite find_None in Hclean.
  destruct editing as [edited|].
  { rewrite <- Hid in Hex, Hed.
    destruct (reconcile_editing now req store original edited Hex Hed)
      as (pre' & post' & Hstore & _ & _ & Hrec').
    rewrite Hrec' in Hrec. injection Hrec as Heq _ _ _. rewrite <- Heq.
    subst store. eapply guarded_replace; eauto.
    - intros sub Hsub. apply Hclean, elem_of_app. by left.
    - right. intros sub Hsub. apply Hclean, elem_of_app. right.
      by apply list_elem_of_further. }
  rewrite <- Hid in Hex, Hed.
  rewrite (reconcile_fresh _ _ _ _ Hex Hed) in Hrec.
  change (?l ++ [?y]) with (l ++ y :: []) in Hrec.
  injection Hrec as Heq _ _ _.
  rewrite <- Heq.
  rewrite guarded_app_clean by done. simpl. by destruct (is_edit_of id _).
Qed.

Lemma run_edits_guarded (calls : list (clock * request)) (f : file) :
  (∀ call, call ∈ calls -> originalSubmissionId call.2 = id) ->
  guarded q id (records f) = true ->
  guarded q id (records (run_edits calls f)) = true.
Proof.
  revert f. induction calls as [|[now req] calls IH]; intros f Hsame Hg;
    [done|].
  unfold run_edits. simpl. apply IH.
  - intros call Hcall. apply Hsame. by apply list_elem_of_further.
  - destruct f as [store|]; [|done].
    destruct (save_guarded now req store) as (store' & -> & Hg'); try done.
    apply (Hsame (now, req)), list_elem_of_here.
Qed.

End Guarded.

(** C1. Single edited version: after any run of edit requests for one
    [originalSubmissionId], started on a store without an edited version of
    that id, at most one record of the store has [isEditedVersion = true]
    and [originalSubmissionId] equal to the id. *)
Theorem single_edited_version (id : string)
    (calls : list (clock * request)) (FOCUS_GROUP_FILE : file)
    (Hsame : ∀ call, call ∈ calls -> originalSubmissionId call.2 = id)
    (Hnone : ∀ sub, sub ∈ records FOCUS_GROUP_FILE ->
               marked_edit_of id sub = false) :
  count (marked_edit_of id) (records (run_edits calls FOCUS_GROUP_FILE)) <= 1.
Proof.
  apply (guarded_count id), (run_edits_guarded id); try done.
  - apply marked_edit_is_edit.
  - apply marked_edit_is_edit.
  - apply unmarked_guarded, forallb_forall. intros sub Hsub.
    apply list_elem_of_In in Hsub. by rewrite (Hnone sub Hsub).
Qed.

(** The same holds of the records that the route's own search accepts
    (where [isEditedVersion] only needs to be truthy). *)
Lemma single_edit_found (id : string)
    (calls : list (clock * request)) (f : file) :
  (∀ call, call ∈ calls -> originalSubmissionId call.2 = id) ->
  (∀ sub, sub ∈ records f -> is_edit_of id sub = false) ->
  count (is_edit_of id) (records (run_edits calls f)) <= 1.
Proof.
  intros Hsame Hnone.
  apply (guarded_count id (is_edit_of id)); [done|].
  apply run_edits_guarded; try done.
  by apply unmarked_guarded, (clean_unmarked id (is_edit_of id)).
Qed.

(** *** The facilitator comment *)

Lemma trim_nonempty (comment : string) :
  Str.trim comment ≠ "" ->
  Str.truthy comment && Str.truthy (Str.trim comment) = true.
Proof.
  intros Htrim. unfold Str.truthy.
  rewrite (bool_decide_eq_false_2 _ Htrim).
  destruct comment; [done|]. by rewrite bool_decide_eq_false_2.
Qed.

(** A literal made of spreads of records without comment fields, followed
    by property definitions under other names, has no comment field. *)
Lemma literal_lacks_comment (sources : list obj) (stamps : list part) :
  Forall lacks_comment sources ->
  Forall (fun p => ∃ k ov, p = Field k ov ∧ k ∉ comment_fields) stamps ->
  lacks_comment (foldl define (shallow_merge sources) stamps).
Proof.
  intros Hsrc.
  induction stamps as [|p stamps IH] using rev_ind; intros Hst.
  - simpl. induction sources as [|s sources IH] using rev_ind.
    + intros k _. apply lookup_empty.
    + apply Forall_app in Hsrc as [Hsources [Hs _]%Forall_cons].
      rewrite shallow_merge_snoc. intros k Hk.
      apply lookup_union_None. split; [by apply Hs | by apply IH].
  - apply Forall_app in Hst as [Hst [(k' & ov & -> & Hk') _]%Forall_cons].
    rewrite foldl_app. cbn [foldl]. intros k Hk.
    rewrite lookup_field_ne by (intros ->; done). by apply IH.
Qed.

Ltac stamps :=
  repeat (apply Forall_cons_2;
          [ eexists _, _; split; [reflexivity|];
            unfold comment_fields; rewrite !elem_of_cons, elem_of_nil;
            intros [?|[?|[?|[]]]]; discriminate | ]);
  apply Forall_nil_2.

(** What [reconcile] returns, whatever the branch, when no search throws:
    the store with one record overwritten or one record added at the end,
    that record being at the index returned; it takes its fields from
    [editedData] and from records of the store, apart from the stamps. *)
Lemma reconcile_shape now req store original :
  original ∈ store ->
  is_Some (Arr.find_or_throw (is_edit_with_key (originalSubmissionId req))
                             store) ->
  ∃ pre newSubmission post isNewVersion ticks,
    reconcile now req store original
      = Some (pre ++ newSubmission :: post, Some (length pre),
              isNewVersion, ticks)
    ∧ (∀ sub, sub ∈ pre ++ post -> sub ∈ store)
    ∧ ((∀ sub, sub ∈ store -> lacks_comment sub) ->
       lacks_comment (editedData req) -> lacks_comment newSubmission).
Proof.
  intros Horig [editing Hed].
  destruct (Arr.find (is_edit_of (originalSubmissionId req)) store)
    as [existing|] eqn:Hex.
  { destruct (reconcile_existing now req store original existing Hex)
      as (pre & post & Hstore & _ & _ & Hrec); [by eexists|].
    eexists pre, _, post, _, _. split; [exact Hrec|]. split.
    - intros sub Hsub. rewrite Hstore. by apply elem_of_middle_rest.
    - intros Hlacks Hdata.
      change (lacks_comment
                (foldl define (shallow_merge [original; existing; editedData req])
                   [ Field "editTimestamp" (Some (JStr (now 0)));
                     Field "editedBy" (Some (editor req)) ])).
      apply literal_lacks_comment; [|stamps].
      apply Forall_cons_2; [by apply Hlacks|].
      apply Forall_cons_2; [apply Hlacks; rewrite Hstore; apply elem_of_middle|].
      apply Forall_cons_2; [done|]. apply Forall_nil_2. }
  destruct editing as [edited|].
  { destruct (reconcile_editing now req store original edited Hex Hed)
      as (pre & post & Hstore & _ & _ & Hrec).
    eexists pre, _, post, _, _. split; [exact Hrec|]. split.
    - intros sub Hsub. rewrite Hstore. by apply elem_of_middle_rest.
    - intros Hlacks Hdata.
      change (lacks_comment
                (foldl define (shallow_merge [edited; editedData req])
                   [ Field "editTimestamp" (Some (JStr (now 0)));
                     Field "editedBy" (Some (editor req)) ])).
      apply literal_lacks_comment; [|stamps].
      apply Forall_cons_2; [apply Hlacks; rewrite Hstore; apply elem_of_middle|].
      apply Forall_cons_2; [done|]. apply Forall_nil_2. }
  eexists store, _, [], _, _. split; [apply (reconcile_fresh _ _ _ _ Hex Hed)|].
  split.
  - intros sub Hsub. by rewrite app_nil_r in Hsub.
  - intros Hlacks Hdata.
    change (lacks_comment
              (foldl define (shallow_merge [original; editedData req])
                 [ Field "submittedAt" (Some (JStr (now 0)));
                   Field "isEditedVersion" (Some (JBool true));
                   Field "originalSubmissionId"
                         (Some (JStr (originalSubmissionId req)));
                   Field "editedBy" (Some (editor req));
                   Field "editTimestamp" (Some (JStr (now 1))) ])).
    apply literal_lacks_comment; [|stamps].
    apply Forall_cons_2; [by apply Hlacks|].
    apply Forall_cons_2; [done|]. apply Forall_nil_2.
Qed.

(** C7. A comment that is not blank is attached to [newSubmission] after
    the file was written.  Whatever the file holds, the request leaves the
    file that the same request without a comment leaves, and gives the
    same answer; a store whose records (and the [editedData]) carry none of
    the three comment fields still carries none after the request; and
    when the request is answered 200 the three fields show on the object in
    memory, which otherwise is the record that was written. *)
Theorem comment_attached_after_save now req (f : file) (comment : string)
    (Hcomment : facilitatorComment req = Some (JStr comment))
    (Htrim : Str.trim comment ≠ "") :
  let out := save_edited_submission now req f in
  let quiet := save_edited_submission now (without_comment req) f in
  file_after out = file_after quiet
  ∧ reply out = reply quiet
  ∧ ((∀ sub, sub ∈ records f -> lacks_comment sub) ->
     lacks_comment (editedData req) ->
     ∀ sub, sub ∈ records (file_after out) -> lacks_comment sub)
  ∧ (∀ v isNewVersion, reply out = Saved v isNewVersion ->
     ∃ (i ticks : nat) (persisted inMemory : obj),
       slot out = Some i
       ∧ records (file_after out) !! i = Some persisted
       ∧ memory out !! i = Some inMemory
       ∧ inMemory !! "facilitatorComment" = Some (JStr comment)
       ∧ inMemory !! "facilitatorCommentTimestamp" = Some (JStr (now ticks))
       ∧ inMemory !! "facilitatorCommentBy" = Some (editor req)
       ∧ (∀ k, k ∉ comment_fields -> inMemory !! k = persisted !! k)).
Proof.
  intros out quiet. subst out quiet.
  destruct f as [store|]; [|done].
  destruct (Arr.find_or_throw (has_key (originalSubmissionId req)) store)
    as [[original|]|] eqn:Hfind.
  2:{ rewrite (save_not_found now req), (save_not_found now (without_comment req))
        by done. done. }
  2:{ rewrite (save_search_throws now req),
        (save_search_throws now (without_comment req)) by done. done. }
  destruct (reconcile now req store original) as [result|] eqn:Hrec.
  2:{ rewrite (save_reconcile_throws now req _ original),
        (save_reconcile_throws now (without_comment req) _ original)
        by done. done. }
  assert (Hin : original ∈ store).
  { destruct (find_or_throw_Some_split _ _ _ Hfind) as (pre & post & -> & _).
    apply elem_of_middle. }
  destruct (reconcile_shape now req store original Hin)
    as (pre & newSubmission & post & isNew & ticks & Hrec' & Hrest & Hlacks).
  { destruct (Arr.find_or_throw
                (is_edit_with_key (originalSubmissionId req)) store) eqn:Hed;
      [by eexists|].
    by rewrite reconcile_throws in Hrec. }
  clear Hrec. rename Hrec' into Hrec.
  destruct (save_reconciled _ _ _ _ _ _ _ _ _ Hfind Hrec)
    as (Hfile & Hslot & Hanswer).
  assert (Hhas : has_comment req = Some true).
  { unfold has_comment. by rewrite Hcomment, (trim_nonempty _ Htrim). }
  rewrite Hhas in Hanswer. destruct Hanswer as [Hreply Hmemory].
  destruct (save_reconciled now (without_comment req) store original
              pre newSubmission post isNew ticks Hfind Hrec)
    as (Hquiet & _ & Hquiet_reply).
  rewrite without_comment_text in Hquiet_reply.
  destruct Hquiet_reply as [Hquiet_reply _].
  rewrite Hfile, Hquiet, Hreply, Hquiet_reply, Hslot, Hmemory.
  split; [done|]. split; [done|]. split.
  { intros Hstore Hdata sub Hsub. cbn [records] in *.
    apply elem_of_app in Hsub as [Hsub|Hsub].
    - apply Hstore, Hrest, elem_of_app. by left.
    - apply elem_of_cons in Hsub as [->|Hsub]; [by apply Hlacks|].
      apply Hstore, Hrest, elem_of_app. by right. }
  intros v b _.
  exists (length pre), ticks, newSubmission,
    (attach_comment now ticks req newSubmission).
  cbn [records]. rewrite !lookup_middle.
  do 3 (split; [done|]).
  split.
  { unfold attach_comment. cbn [foldl].
    by rewrite !lookup_field_ne, lookup_field by done. }
  split.
  { unfold attach_comment. cbn [foldl].
    by rewrite lookup_field_ne, lookup_field by done. }
  split.
  { unfold attach_comment. cbn [foldl]. by rewrite lookup_field. }
  intros k Hk. apply attach_comment_lookup_ne; intros ->; apply Hk;
    unfold comment_fields; rewrite !elem_of_cons; tauto.
Qed.

(** The edited version is looked for only once the original is found: a
    store of keyed records that holds an edit of [id] but no record under
    the key [id] answers 404 and stays as it is. *)
Lemma edit_without_original now req store :
  (∀ sub, sub ∈ store ->
     ∃ key, identityKey sub = Some key ∧ key ≠ originalSubmissionId req) ->
  reply (save_edited_submission now req (Some store)) = NotFound
  ∧ file_after (save_edited_submission now req (Some store)) = Some store.
Proof.
  intros Hnone. unfold save_edited_submission.
  assert (Arr.find_or_throw (has_key (originalSubmissionId req)) store
          = Some None) as ->; [|done].
  apply find_or_throw_None. intros sub Hsub. by apply has_key_false, Hnone.
Qed.

(** A record whose key fields do not convert, met before the original is
    found, ends the request with 500 and the file as it was: the template
    literal of the first search throws inside the handler's [try]. *)
Lemma edit_over_unkeyed_record now req (sub : obj) store :
  identityKey sub = None ->
  reply (save_edited_submission now req (Some (sub :: store))) = ServerError
  ∧ file_after (save_edited_submission now req (Some (sub :: store)))
    = Some (sub :: store).
Proof.
  intros Hkey. unfold save_edited_submission, has_key. simpl.
  by rewrite Hkey.
Qed.

(** A truthy comment that is no string makes the request fail after the
    file was written. *)
Lemma edit_with_untrimmable_comment now req store (v : json) :
  facilitatorComment req = Some v ->
  ToBoolean (Some v) = true ->
  (∀ comment, v ≠ JStr comment) ->
  reply (save_edited_submission now req (Some store)) = ServerError
  ∨ reply (save_edited_submission now req (Some store)) = NotFound.
Proof.
  intros Hv Htruthy Hno.
  assert (Hhas : has_comment req = None).
  { unfold has_comment. rewrite Hv. destruct v; try done.
    - by rewrite Htruthy.
    - by rewrite Htruthy.
    - by destruct (Hno s). }
  destruct (save_cases now req store)
    as [(_ & _ & [?|?])|(original & pre & x & post & isNew & ticks
                          & Hfind & Hrec)]; [by left | by right |].
  destruct (save_reconciled _ _ _ _ _ _ _ _ _ Hfind Hrec) as (_ & _ & Hans).
  rewrite Hhas in Hans. left. by destruct Hans.
Qed.

(** *** Reading the file *)

(** C8. Both loaders turn an absent or unreadable file into the empty
    array.  The edit route does not go through them: it reads
    the file itself, so on an absent file it answers 500, where the same
    request over what the loader returns would answer 404. *)
Theorem edit_reads_file_unguarded now req :
  (∀ data, loadFocusGroupSubmissions (Some data) = data)
  ∧ loadFocusGroupSubmissions None = []
  ∧ loadSubmissions None = []
  ∧ reply (save_edited_submission now req None) = ServerError
  ∧ file_after (save_edited_submission now req None) = None
  ∧ reply (save_edited_submission now req
             (Some (loadFocusGroupSubmissions None))) = NotFound.
Proof. repeat split. Qed.

(** *** The properties on sample data *)

Lemma single_edited_version_witness :
  count (marked_edit_of Sample.alice_key)
        (records (run_edits [ (Sample.first_clock, Sample.first_edit);
                              (Sample.second_clock, Sample.second_edit) ]
                            (Some [Sample.alice]))) <= 1.
Proof.
  apply single_edited_version.
  - intros call Hcall.
    apply elem_of_cons in Hcall as [->|Hcall]; [reflexivity|].
    apply list_elem_of_singleton in Hcall as ->. reflexivity.
  - intros sub Hsub. apply list_elem_of_singleton in Hsub as ->.
    vm_compute. reflexivity.
Defined.





(** The claim without the proviso fails: the one record of this store has
    no identity key, so no submission has the requested key, and the
    request ends with 500, not with NotFound. *)
Lemma edit_not_found_iff_counterexample :
  (∀ sub, sub ∈ [MoreSamples.unkeyed] ->
     identityKey sub ≠ Some Sample.alice_key)
  ∧ reply (save_edited_submission Sample.first_clock Sample.first_edit
             (Some [MoreSamples.unkeyed])) = ServerError
  ∧ reply (save_edited_submission Sample.first_clock Sample.first_edit
             (Some [MoreSamples.unkeyed])) ≠ NotFound.
Proof.
  split; [|split].
  - intros sub Hsub. apply list_elem_of_singleton in Hsub as ->.
    vm_compute. discriminate.
  - vm_compute. reflexivity.
  - vm_compute. discriminate.
Qed.

Lemma comment_attached_after_save_witness :
  file_after (save_edited_submission Sample.first_clock Sample.first_edit
                (Some [Sample.alice]))
  = file_after (save_edited_submission Sample.first_clock
                  (without_comment Sample.first_edit) (Some [Sample.alice]))
  ∧ ∃ (i : nat) (inMemory : obj),
      memory (save_edited_submission Sample.first_clock Sample.first_edit
                (Some [Sample.alice])) !! i = Some inMemory
      ∧ inMemory !! "facilitatorComment" = Some (JStr " well argued ").
Proof.
  destruct (comment_attached_after_save Sample.first_clock Sample.first_edit
              (Some [Sample.alice]) " well argued ")
    as (Hfile & _ & _ & Hmemory).
  - reflexivity.
  - vm_compute. discriminate.
  - split; [exact Hfile|].
    destruct (Hmemory (Some (JStr "2024-02-01T10:00:00.000Z")) true)
      as (i & ticks & persisted & inMemory & _ & _ & Hmem & Hfield & _).
    + vm_compute. reflexivity.
    + exists i, inMemory. split; [exact Hmem | exact Hfield].
Defined.

End Reconciliation.

(** Worked runs on the sample data. *)
Example first_edit_file :
  file_after (save_edited_submission Sample.first_clock Sample.first_edit
                (Some [Sample.alice]))
  = Some [Sample.alice; Sample.alice_edited].
Proof. vm_compute. reflexivity. Qed.

Example first_edit_memory :
  memory (save_edited_submission Sample.first_clock Sample.first_edit
            (Some [Sample.alice]))
  = [ Sample.alice;
      <["facilitatorCommentBy" := JStr "bob"]>
        (<["facilitatorCommentTimestamp" := JStr "2024-02-01T10:00:00.002Z"]>
           (<["facilitatorComment" := JStr " well argued "]>
              Sample.alice_edited)) ].
Proof. vm_compute. reflexivity. Qed.

Example second_edit_file :
  file_after (save_edited_submission Sample.second_clock Sample.second_edit
                (Some [Sample.alice; Sample.alice_edited]))
  = Some [ Sample.alice;
           <["editedBy" := JStr "unknown"]>
             (<["editTimestamp" := JStr "2024-03-01T09:00:00.000Z"]>
                (<["note" := JStr "second pass"]> Sample.alice_edited)) ].
Proof. vm_compute. reflexivity. Qed.

(** A record without an identity key ahead of the records searched: the
    template literal of the first search throws, the request ends with 500
    and the file stays as it was, also when no record has the key. *)
Example unkeyed_record_edit :
  reply (save_edited_submission Sample.first_clock Sample.first_edit
           (Some [MoreSamples.unkeyed; Sample.alice])) = ServerError
  ∧ file_after (save_edited_submission Sample.first_clock Sample.first_edit
                  (Some [MoreSamples.unkeyed; Sample.alice]))
    = Some [MoreSamples.unkeyed; Sample.alice]
  ∧ reply (save_edited_submission Sample.first_clock Sample.first_edit
             (Some [MoreSamples.unkeyed])) = ServerError.
Proof. vm_compute. repeat split. Qed.

(** The same record behind the original does no harm as long as it is not
    flagged as edited: the first search stops at the original and the third
    one does not read the key of an unflagged record. *)
Example unkeyed_record_behind :
  reply (save_edited_submission Sample.first_clock Sample.first_edit
           (Some [Sample.alice; MoreSamples.unkeyed]))
  = Saved (Some (JStr "2024-02-01T10:00:00.000Z")) true.
Proof. vm_compute. reflexivity. Qed.

(** A comment that is a number: the edited version is written, then
    [facilitatorComment.trim()] throws and the request ends with 500. *)
Example numbered_comment_edit :
  reply (save_edited_submission Sample.first_clock MoreSamples.numbered_edit
           (Some [Sample.alice])) = ServerError
  ∧ length (records (file_after
              (save_edited_submission Sample.first_clock
                 MoreSamples.numbered_edit (Some [Sample.alice])))) = 2.
Proof. vm_compute. repeat split. Qed.

(** ** Updating a case study *)

Section Update.

Import CaseStudies.

Lemma findIndex_Some {A : Type} (p : A -> bool) (xs : list A) (i : nat) :
  Arr.findIndex p xs = Some i ->
  ∃ x, xs !! i = Some x
       ∧ p x = true
       ∧ ∀ j y, j < i -> xs !! j = Some y -> p y = false.
Proof.
  revert i. induction xs as [|z xs IH]; intros i; simpl; [done|].
  destruct (p z) eqn:Hz.
  - intros [= <-]. exists z. repeat split; try done. lia.
  - destruct (Arr.findIndex p xs) as [n|] eqn:Hidx; [|done].
    intros [= <-]. destruct (IH n eq_refl) as (x & Hx & Hp & Hbefore).
    exists x. repeat split; try done.
    intros [|j] y Hj Hy; simpl in Hy.
    + by injection Hy as <-.
    + apply (Hbefore j); [lia | done].
Qed.

(** C10. A successful update keeps the record's [id] and [submittedAt],
    whatever the request body says about them; every other field of the
    body overwrites the record's, and [updatedAt] is set to the time of the
    request. *)
Theorem update_keeps_id_and_submittedAt (now : clock) (id : string)
    (updateFields : obj) (SUBMISSIONS_FILE : file) (data : obj)
    (Hok : reply (put_case_study now id updateFields SUBMISSIONS_FILE)
             = Updated data) :
  ∃ (i : nat) (current : obj),
    loadSubmissions SUBMISSIONS_FILE !! i = Some current
    ∧ current !! "id" = Some (JStr id)
    ∧ (∀ j s, j < i -> loadSubmissions SUBMISSIONS_FILE !! j = Some s ->
         has_id id s = false)
    ∧ file_after (put_case_study now id updateFields SUBMISSIONS_FILE)
        = Some (<[i := data]> (loadSubmissions SUBMISSIONS_FILE))
    ∧ data !! "id" = current !! "id"
    ∧ data !! "submittedAt" = current !! "submittedAt"
    ∧ data !! "updatedAt" = Some (JStr (now 0))
    ∧ ∀ k, k ≠ "id" -> k ≠ "submittedAt" -> k ≠ "updatedAt" ->
        data !! k = match updateFields !! k with
                    | Some v => Some v
                    | None => current !! k
                    end.
Proof.
  unfold put_case_study in *.
  destruct (Arr.findIndex (has_id id) (loadSubmissions SUBMISSIONS_FILE))
    as [i|] eqn:Hidx; [|done].
  destruct (findIndex_Some _ _ _ Hidx) as (current & Hcur & Hid & Hbefore).
  rewrite Hcur in *.
  destruct (strict_eq_string (current !! "status") "pending"); [|done].
  simpl in Hok. injection Hok as <-.
  exists i, current. split; [done|]. split.
  { unfold has_id, strict_eq_string in Hid.
    destruct (current !! "id") as [[| | |s| |]|]; try done.
    by apply bool_decide_eq_true in Hid as ->. }
  split; [done|]. split; [done|].
  unfold object_literal. cbn [foldl].
  split; [by rewrite !lookup_field_ne, lookup_field by done|].
  split; [by rewrite lookup_field_ne, lookup_field by done|].
  split; [by rewrite lookup_field|].
  intros k Hk1 Hk2 Hk3.
  rewrite !lookup_field_ne, !lookup_spread, lookup_empty by done.
  by destruct (updateFields !! k), (current !! k).
Qed.

Lemma update_keeps_id_and_submittedAt_witness :
  reply (put_case_study Sample.second_clock "1700000000000"
           Sample.study_update (Some [Sample.study]))
    = Updated Sample.study_updated
  ∧ file_after (put_case_study Sample.second_clock "1700000000000"
                  Sample.study_update (Some [Sample.study]))
    = Some [Sample.study_updated]
  ∧ Sample.study_updated !! "id" = Sample.study !! "id"
  ∧ Sample.study_updated !! "submittedAt" = Sample.study !! "submittedAt".
Proof.
  assert (Hok : reply (put_case_study Sample.second_clock "1700000000000"
                         Sample.study_update (Some [Sample.study]))
                = Updated Sample.study_updated).
  { vm_compute. reflexivity. }
  destruct (update_keeps_id_and_submittedAt Sample.second_clock
              "1700000000000" Sample.study_update (Some [Sample.study])
              Sample.study_updated Hok)
    as (i & current & Hcur & _ & _ & Hfile & Hid & Hat & _).
  destruct i as [|i]; [|by destruct i].
  injection Hcur as <-.
  split; [exact Hok|]. split; [exact Hfile|]. split; [exact Hid | exact Hat].
Defined.

End Update.

(** ** Tension history *)

Section TensionHistory.

Import History.

Lemma forEach_invariant {S A : Type} (I : S -> Prop) (f : S -> A -> option S)
    (xs : list A) (s s' : S) :
  (∀ s x s', I s -> f s x = Some s' -> I s') ->
  I s -> Arr.forEach f xs s = Some s' -> I s'.
Proof.
  intros Hstep. revert s. induction xs as [|x xs IH]; intros s Hs; simpl.
  - by intros [= <-].
  - destruct (f s x) as [s1|] eqn:Hf; [|done]. apply IH. by eapply Hstep.
Qed.

Lemma includes_false (xs : list json) (v x : json) :
  Arr.includes xs v = false -> x ∈ xs -> same_value_zero v x = false.
Proof.
  unfold Arr.includes. intros Hnone Hx.
  destruct (same_value_zero v x) eqn:Hsame; [|done].
  assert (existsb (same_value_zero v) xs = true); [|congruence].
  apply existsb_exists. exists x. split; [by apply list_elem_of_In | done].
Qed.

Lemma visit_tension_custom_only src sub st tensionItem st' :
  custom_only st -> visit_tension src sub st tensionItem = Some st' ->
  custom_only st'.
Proof.
  intros Hinv. unfold visit_tension. destruct st as [userTensions details].
  destruct (get tensionItem "value") as [[tension|]|];
    cbn [mbind option_bind]; [| by intros [= <-] | done].
  destruct (ToBoolean (Some tension)
            && negb (Arr.includes userTensions tension)
            && negb (Arr.includes (JStr <$> predefinedTensions) tension))
    eqn:Hcond; [|by intros [= <-]].
  destruct (get tensionItem "definition") as [d|];
    cbn [mbind option_bind]; [|done].
  intros [= <-]. intros entry label Hentry Hlabel.
  unfold Arr.push in Hentry. cbn [snd] in Hentry.
  apply elem_of_app in Hentry as [Hentry|Hentry]; [by apply (Hinv entry)|].
  apply list_elem_of_singleton in Hentry as ->. simpl. intros ->.
  apply andb_true_iff in Hcond as [_ Hpre%negb_true_iff].
  apply (includes_false _ _ (JStr label)) in Hpre.
  - simpl in Hpre. by rewrite bool_decide_eq_true_2 in Hpre.
  - by apply list_elem_of_fmap_2.
Qed.

Lemma visit_submission_custom_only src st sub st' :
  custom_only st -> visit_submission src st sub = Some st' -> custom_only st'.
Proof.
  intros Hinv. unfold visit_submission.
  destruct (sub !! "cases") as [[| | | |cases|]|]; try by intros [= <-].
  apply forEach_invariant; [|done].
  clear. intros st caseItem st' Hinv. unfold visit_case.
  destruct (get caseItem "tensions") as [[[| | | |tensions|]|]|];
    cbn [mbind option_bind]; try done; try by intros [= <-].
  apply forEach_invariant; [|done].
  intros ? ? ?. apply visit_tension_custom_only.
Qed.

(** C9. No entry of the tension history carries the value
    ["Privacy vs. Transparency"], nor any other predefined label, whatever
    the two collections hold and whoever the user is. *)
Theorem predefined_tensions_excluded (email : string)
    (FOCUS_GROUP_FILE SUBMISSIONS_FILE : file)
    (entry : detail) (label : string)
    (Hentry : entry ∈ entries (user_tension_history email FOCUS_GROUP_FILE
                                 SUBMISSIONS_FILE))
    (Hlabel : label ∈ predefinedTensions) :
  value entry ≠ JStr label
  ∧ value entry ≠ JStr "Privacy vs. Transparency".
Proof.
  assert (Hall : custom_only
            ([], entries (user_tension_history email FOCUS_GROUP_FILE
                            SUBMISSIONS_FILE))).
  { unfold user_tension_history.
    destruct (Arr.forEach (visit_submission "focus-group") _ _)
      as [st|] eqn:Hfocus; simpl; [|by intros ? ? ?%elem_of_nil].
    destruct (Arr.forEach (visit_submission "individual") _ st)
      as [[seen details]|] eqn:Hind; simpl; [|by intros ? ? ?%elem_of_nil].
    assert (Hst : custom_only st).
    { eapply forEach_invariant; [| |exact Hfocus].
      - intros ? ? ?. apply visit_submission_custom_only.
      - by intros ? ? ?%elem_of_nil. }
    assert (Hfinal : custom_only (seen, details)).
    { eapply forEach_invariant; [| exact Hst | exact Hind].
      intros ? ? ?. apply visit_submission_custom_only. }
    exact Hfinal. }
  split.
  - by apply (Hall entry label).
  - apply (Hall entry "Privacy vs. Transparency"); [done|].
    apply list_elem_of_here.
Qed.

Example alice_tension_history :
  user_tension_history "a@x.com" (Some [Sample.alice]) None
  = Report [ {| value := JStr "Speed vs. Care";
                definition := JStr "custom";
                source := "focus-group";
                submissionDate := Some (JStr "2024-01-01T00:00:00Z") |} ]
           1 true.
Proof. vm_compute. reflexivity. Qed.

Lemma predefined_tensions_excluded_witness :
  let entry := {| value := JStr "Speed vs. Care";
                  definition := JStr "custom";
                  source := "focus-group";
                  submissionDate := Some (JStr "2024-01-01T00:00:00Z") |} in
  entry ∈ entries (user_tension_history "a@x.com" (Some [Sample.alice]) None)
  ∧ value entry ≠ JStr "Privacy vs. Transparency".
Proof.
  intros entry.
  assert (Hentry : entry ∈ entries (user_tension_history "a@x.com"
                                      (Some [Sample.alice]) None)).
  { vm_compute. apply list_elem_of_here. }
  split; [exact Hentry|].
  apply (predefined_tensions_excluded "a@x.com" (Some [Sample.alice]) None
           entry "Privacy vs. Transparency" Hentry).
  apply list_elem_of_here.
Defined.

End TensionHistory.

(* ===================================================================== *)
(** * Part III: the rest of the server                                    *)
(* ===================================================================== *)

(** ** Filtering arrays *)

Section Filter.

Context {A : Type}.
Implicit Types (p : A -> bool) (xs : list A).

Lemma filter_length_le p xs : length (List.filter p xs) <= length xs.
Proof.
  induction xs as [|x xs IH]; simpl; [lia|]. destruct (p x); simpl; lia.
Qed.

(** A filter keeps the length exactly when it keeps every element. *)
Lemma filter_length_eq p xs :
  length (List.filter p xs) = length xs <-> ∀ x, x ∈ xs -> p x = true.
Proof.
  induction xs as [|x xs IH]; simpl.
  - split; [intros _ y Hy; by apply elem_of_nil in Hy | done].
  - destruct (p x) eqn:Hx; simpl.
    + split.
      * intros Hlen y Hy. apply elem_of_cons in Hy as [->|Hy]; [done|].
        apply IH; [lia | done].
      * intros Hall. f_equal. apply IH. intros y Hy. apply Hall.
        by apply list_elem_of_further.
    + split.
      * pose proof (filter_length_le p xs). lia.
      * intros Hall. rewrite (Hall x (list_elem_of_here _ _)) in Hx. done.
Qed.

Lemma filter_all p xs :
  (∀ x, x ∈ xs -> p x = true) -> List.filter p xs = xs.
Proof.
  induction xs as [|x xs IH]; simpl; [done|]. intros Hall.
  rewrite (Hall x (list_elem_of_here _ _)). f_equal. apply IH.
  intros y Hy. apply Hall. by apply list_elem_of_further.
Qed.

Lemma elem_of_filter p xs x :
  x ∈ List.filter p xs <-> x ∈ xs ∧ p x = true.
Proof. rewrite !list_elem_of_In. apply filter_In. Qed.

Lemma findIndex_None p xs :
  Arr.findIndex p xs = None <-> ∀ x, x ∈ xs -> p x = false.
Proof.
  induction xs as [|y xs IH]; simpl.
  - split; [intros _ x Hx; by apply elem_of_nil in Hx | done].
  - destruct (p y) eqn:Hy.
    + split; [done|]. intros H. rewrite (H y (list_elem_of_here _ _)) in Hy.
      done.
    + destruct (Arr.findIndex p xs) as [n|]; simpl.
      * split; [done|]. intros H. destruct IH as [_ IH].
        exfalso. assert (Some n = None); [|done]. apply IH.
        intros x Hx. apply H. by apply list_elem_of_further.
      * split; [|done]. intros _ x Hx.
        apply elem_of_cons in Hx as [->|Hx]; [done|]. by apply IH.
Qed.

Lemma findIndex_app_clean p xs ys :
  (∀ x, x ∈ xs -> p x = false) ->
  Arr.findIndex p (xs ++ ys) = (fun i => length xs + i) <$> Arr.findIndex p ys.
Proof.
  induction xs as [|x xs IH]; simpl; intros Hclean.
  - by destruct (Arr.findIndex p ys).
  - rewrite (Hclean x (list_elem_of_here _ _)), IH.
    + by destruct (Arr.findIndex p ys).
    + intros y Hy. apply Hclean. by apply list_elem_of_further.
Qed.


End Filter.

(** ** Individual case studies *)

Section CaseStudyCrud.

Import CaseStudyRoutes.

Implicit Types (now : clock) (millis id : string) (submission : obj)
  (f : file).

(** X1. POST /api/case-studies refuses a body exactly when [title] or
    [author] is missing or falsy, names the missing fields, and then leaves
    the file as it is. *)
Theorem post_case_study_validation millis now submission f :
  (ToBoolean (submission !! "title") && ToBoolean (submission !! "author")
     = false
   <-> ∃ error, reply (post_case_study millis now submission f)
                  = BadRequest error)
  ∧ (∀ error, reply (post_case_study millis now submission f)
                = BadRequest error ->
       file_after (post_case_study millis now submission f) = f
       ∧ error = "Missing required fields: " +:+
                 (if ToBoolean (submission !! "title") then "author"
                  else if ToBoolean (submission !! "author") then "title"
                  else "title, author")).
Proof.
  unfold post_case_study, requiredFields. simpl.
  destruct (ToBoolean (submission !! "title")),
           (ToBoolean (submission !! "author")); simpl.
  - split; [split; [done | by intros [? ?]] | done].
  - split; [split; [by eexists | done]|]. by intros error [= <-].
  - split; [split; [by eexists | done]|]. by intros error [= <-].
  - split; [split; [by eexists | done]|]. by intros error [= <-].
Qed.

Lemma post_case_study_accepts millis now submission f :
  ToBoolean (submission !! "title") = true ->
  ToBoolean (submission !! "author") = true ->
  post_case_study millis now submission f =
    {| file_after := Some (loadSubmissions f ++
         [ object_literal
             [ Spread submission;
               Field "id" (Some (JStr millis));
               Field "submittedAt"
                     (Some (or_else (submission !! "submittedAt")
                                    (JStr (now 0))));
               Field "status" (Some (JStr "pending"));
               Field "reviewed" (Some (JBool false)) ] ]);
       reply := Created (object_literal
             [ Spread submission;
               Field "id" (Some (JStr millis));
               Field "submittedAt"
                     (Some (or_else (submission !! "submittedAt")
                                    (JStr (now 0))));
               Field "status" (Some (JStr "pending"));
               Field "reviewed" (Some (JBool false)) ]) |}.
Proof.
  intros Ht Ha. unfold post_case_study, requiredFields. simpl.
  by rewrite Ht, Ha.
Qed.

(** X2. An accepted POST appends one record and keeps the stored ones;
    the server decides [id], [status] and [reviewed] whatever the body says
    about them, keeps a truthy [submittedAt] of the body and otherwise
    stamps the time, and copies every other field of the body. *)
Theorem post_case_study_creates millis now submission f
    (Htitle : ToBoolean (submission !! "title") = true)
    (Hauthor : ToBoolean (submission !! "author") = true) :
  ∃ newSubmission,
    reply (post_case_study millis now submission f) = Created newSubmission
    ∧ file_after (post_case_study millis now submission f)
        = Some (loadSubmissions f ++ [newSubmission])
    ∧ newSubmission !! "id" = Some (JStr millis)
    ∧ newSubmission !! "status" = Some (JStr "pending")
    ∧ newSubmission !! "reviewed" = Some (JBool false)
    ∧ newSubmission !! "submittedAt"
        = Some (if ToBoolean (submission !! "submittedAt")
                then default JNull (submission !! "submittedAt")
                else JStr (now 0))
    ∧ ∀ k, k ≠ "id" -> k ≠ "status" -> k ≠ "reviewed" ->
           k ≠ "submittedAt" -> newSubmission !! k = submission !! k.
Proof.
  rewrite post_case_study_accepts by done. simpl.
  eexists. split; [done|]. split; [done|].
  unfold object_literal. cbn [foldl].
  split; [by rewrite !lookup_field_ne, lookup_field by done|].
  split; [by rewrite !lookup_field_ne, lookup_field by done|].
  split; [by rewrite lookup_field|].
  split.
  { rewrite !lookup_field_ne, lookup_field by done. f_equal.
    unfold or_else. by destruct (submission !! "submittedAt") as [v|]. }
  intros k H1 H2 H3 H4.
  rewrite !lookup_field_ne, lookup_spread, lookup_empty by done.
  by destruct (submission !! k).
Qed.

(** X3. DELETE removes every record that carries the id and nothing
    else, keeping the order of the rest; it answers 404, writing nothing,
    exactly when no record carries the id; after a deletion the same
    request answers 404. *)
Theorem delete_case_study_removes_all id f :
  (reply (delete_case_study id f) = NotFound
   <-> ∀ s, s ∈ loadSubmissions f -> CaseStudies.has_id id s = false)
  ∧ (reply (delete_case_study id f) = NotFound ->
     file_after (delete_case_study id f) = f)
  ∧ (reply (delete_case_study id f) = Deleted ->
     ∃ kept,
       file_after (delete_case_study id f) = Some kept
       ∧ kept = List.filter (other_id id) (loadSubmissions f)
       ∧ sublist kept (loadSubmissions f)
       ∧ (∀ s, s ∈ kept <->
               s ∈ loadSubmissions f ∧ CaseStudies.has_id id s = false)
       ∧ reply (delete_case_study id (Some kept)) = NotFound).
Proof.
  unfold delete_case_study.
  destruct (length (List.filter (other_id id) (loadSubmissions f))
            =? length (loadSubmissions f))%nat eqn:Hlen; simpl.
  - apply Nat.eqb_eq in Hlen. rewrite filter_length_eq in Hlen.
    split; [|done]. split; [|done]. intros _ s Hs.
    specialize (Hlen s Hs). unfold other_id in Hlen.
    by apply negb_true_iff in Hlen.
  - apply Nat.eqb_neq in Hlen. split; [|split; [done|]].
    + split; [done|]. intros Hnone. exfalso. apply Hlen.
      apply filter_length_eq. intros s Hs. unfold other_id.
      apply negb_true_iff. by apply Hnone.
    + intros _. eexists. split; [done|]. split; [done|]. split.
      { clear. induction (loadSubmissions f) as [|s l IH]; simpl; [done|].
        destruct (other_id id s); by constructor. }
      split.
      { intros s. rewrite elem_of_filter. unfold other_id.
        by rewrite negb_true_iff. }
      rewrite filter_all, Nat.eqb_refl; [done|].
      intros s Hs. by apply elem_of_filter in Hs as [_ Hs].
Qed.

Lemma put_not_found now id updateFields f :
  (∀ s, s ∈ loadSubmissions f -> CaseStudies.has_id id s = false) ->
  CaseStudies.put_case_study now id updateFields f
  = {| CaseStudies.file_after := f; CaseStudies.reply := CaseStudies.NotFound |}.
Proof.
  intros Hnone. unfold CaseStudies.put_case_study.
  by rewrite (proj2 (findIndex_None _ _) Hnone).
Qed.

(** X4. PUT answers 404 exactly when no record carries the id and 403
    exactly when the first record that carries it has a [status] other than
    ["pending"]; it never answers 500, it writes nothing unless it answers
    200, and the store keeps its length in every case. *)
Theorem put_case_study_errors now id updateFields f :
  let out := CaseStudies.put_case_study now id updateFields f in
  (CaseStudies.reply out = CaseStudies.NotFound
   <-> ∀ s, s ∈ loadSubmissions f -> CaseStudies.has_id id s = false)
  ∧ (CaseStudies.reply out = CaseStudies.Forbidden
     <-> ∃ i current,
           Arr.findIndex (CaseStudies.has_id id) (loadSubmissions f) = Some i
           ∧ loadSubmissions f !! i = Some current
           ∧ strict_eq_string (current !! "status") "pending" = false)
  ∧ CaseStudies.reply out ≠ CaseStudies.ServerError
  ∧ ((∀ data, CaseStudies.reply out ≠ CaseStudies.Updated data) ->
     CaseStudies.file_after out = f)
  ∧ length (loadSubmissions (CaseStudies.file_after out))
    = length (loadSubmissions f).
Proof.
  intros out. subst out. unfold CaseStudies.put_case_study.
  destruct (Arr.findIndex (CaseStudies.has_id id) (loadSubmissions f))
    as [i|] eqn:Hidx.
  - destruct (findIndex_Some _ _ _ Hidx) as (current & Hcur & Hid & _).
    rewrite Hcur.
    assert (Hsome : ¬ ∀ s, s ∈ loadSubmissions f ->
                       CaseStudies.has_id id s = false).
    { intros Hnone. apply list_elem_of_lookup_2 in Hcur.
      rewrite (Hnone _ Hcur) in Hid. done. }
    destruct (strict_eq_string (current !! "status") "pending") eqn:Hst;
      simpl.
    + split; [done|]. split.
      { split; [done|]. intros (i' & c' & [= <-] & Hc' & Hst').
        rewrite Hcur in Hc'. injection Hc' as <-. congruence. }
      split; [done|]. split; [by intros H; destruct (H _ eq_refl)|].
      by rewrite length_insert.
    + split; [done|]. split; [|done].
      split; [intros _; by exists i, current | done].
  - simpl. pose proof (proj1 (findIndex_None _ _) Hidx) as Hnone.
    split; [done|]. split; [|done]. split; [done|].
    by intros (i & c & [=] & _).
Qed.

(** X5. PUT overwrites [status] like any other field of the body, and the
    pending check reads the stored value: once an update has stored another
    status, every later update of that id is answered 403 and writes
    nothing. *)
Theorem put_case_study_locks now id updateFields f data status
    (Hok : CaseStudies.reply (CaseStudies.put_case_study now id updateFields f)
             = CaseStudies.Updated data)
    (Hstatus : updateFields !! "status" = Some status)
    (Hother : strict_eq_string (Some status) "pending" = false) :
  data !! "status" = Some status
  ∧ ∀ now' updateFields',
      CaseStudies.put_case_study now' id updateFields'
        (CaseStudies.file_after (CaseStudies.put_case_study now id updateFields f))
      = {| CaseStudies.file_after :=
             CaseStudies.file_after
               (CaseStudies.put_case_study now id updateFields f);
           CaseStudies.reply := CaseStudies.Forbidden |}.
Proof.
  unfold CaseStudies.put_case_study in *.
  destruct (Arr.findIndex (CaseStudies.has_id id) (loadSubmissions f))
    as [i|] eqn:Hidx; [|done].
  destruct (findIndex_Some _ _ _ Hidx) as (current & Hcur & Hid & Hbefore).
  rewrite Hcur in *.
  destruct (strict_eq_string (current !! "status") "pending"); [|done].
  simpl in Hok. simpl. injection Hok as <-.
  assert (Hdata_status :
    object_literal
      [ Spread current; Spread updateFields; Field "id" (current !! "id");
        Field "submittedAt" (current !! "submittedAt");
        Field "updatedAt" (Some (JStr (now 0))) ] !! "status" = Some status).
  { unfold object_literal. cbn [foldl].
    rewrite !lookup_field_ne, lookup_spread by done. by rewrite Hstatus. }
  split; [done|]. intros now' updateFields'.
  set (updated := object_literal _) in *.
  assert (Hlt : i < length (loadSubmissions f))
    by (by apply lookup_lt_Some in Hcur).
  assert (Hidx' : Arr.findIndex (CaseStudies.has_id id)
                    (<[i := updated]> (loadSubmissions f)) = Some i).
  { rewrite <- (take_drop_middle _ _ _ Hcur) at 1.
    assert (Hlen : length (take i (loadSubmissions f)) = i)
      by (rewrite length_take; lia).
    rewrite <- Hlen at 1. rewrite insert_middle.
    rewrite findIndex_app_clean.
    - simpl. assert (CaseStudies.has_id id updated = true) as ->.
      { unfold CaseStudies.has_id, updated, object_literal. cbn [foldl].
        rewrite !lookup_field_ne, lookup_field by done. exact Hid. }
      simpl. f_equal. lia.
    - intros s Hs. apply list_elem_of_lookup in Hs as [j Hj].
      pose proof (lookup_lt_Some _ _ _ Hj) as Hjlt.
      rewrite length_take in Hjlt.
      rewrite lookup_take_lt in Hj by lia. apply (Hbefore j s); [lia|done]. }
  rewrite Hidx', list_lookup_insert_eq by done.
  rewrite Hdata_status, Hother. done.
Qed.

(** X6. A record just created can be updated by the id the POST answered,
    and deleting that id brings the store back, provided no stored record
    already carries the id. *)
Theorem post_then_put_or_delete millis now submission f now' updateFields
    (Htitle : ToBoolean (submission !! "title") = true)
    (Hauthor : ToBoolean (submission !! "author") = true)
    (Hfresh : ∀ s, s ∈ loadSubmissions f ->
                CaseStudies.has_id millis s = false) :
  let created := file_after (post_case_study millis now submission f) in
  (∃ data,
     CaseStudies.reply (CaseStudies.put_case_study now' millis updateFields
                          created) = CaseStudies.Updated data
     ∧ data !! "id" = Some (JStr millis))
  ∧ delete_case_study millis created
    = {| file_after := Some (loadSubmissions f); reply := Deleted |}.
Proof.
  intros created. subst created.
  rewrite post_case_study_accepts by done. simpl.
  set (newSubmission := object_literal _).
  assert (Hid : newSubmission !! "id" = Some (JStr millis)).
  { unfold newSubmission, object_literal. cbn [foldl].
    by rewrite !lookup_field_ne, lookup_field by done. }
  assert (Hst : newSubmission !! "status" = Some (JStr "pending")).
  { unfold newSubmission, object_literal. cbn [foldl].
    by rewrite !lookup_field_ne, lookup_field by done. }
  assert (Hhas : CaseStudies.has_id millis newSubmission = true).
  { unfold CaseStudies.has_id. rewrite Hid. simpl.
    by apply bool_decide_eq_true. }
  split.
  - unfold CaseStudies.put_case_study. simpl.
    rewrite findIndex_app_clean by done. simpl. rewrite Hhas. simpl.
    rewrite Nat.add_0_r.
    change (loadSubmissions f ++ [newSubmission])
      with (loadSubmissions f ++ newSubmission :: []).
    rewrite lookup_middle, Hst. simpl.
    eexists. split; [done|].
    unfold object_literal. cbn [foldl].
    by rewrite !lookup_field_ne, lookup_field by done.
  - assert (Hgone : other_id millis newSubmission = false).
    { unfold other_id. fold (CaseStudies.has_id millis newSubmission).
      by rewrite Hhas. }
    assert (Hkept : List.filter (other_id millis)
                      (loadSubmissions f ++ [newSubmission])
                    = loadSubmissions f).
    { rewrite List.filter_app. simpl. rewrite Hgone, app_nil_r.
      apply filter_all. intros s Hs. unfold other_id.
      apply negb_true_iff. by apply Hfresh. }
    unfold delete_case_study. simpl. rewrite Hkept, length_app. simpl.
    destruct (Nat.eqb_spec (length (loadSubmissions f))
                (length (loadSubmissions f) + 1)); [lia | done].
Qed.

(** X7. GET /api/case-studies with a non-empty [user] lists exactly the
    stored records whose [author] is that string, in stored order, and
    counts them; a record created for that author shows up last. *)
Theorem get_case_studies_by_user user f millis now submission
    (Huser : user ≠ "") :
  let listed := get_case_studies (Some user) f in
  (∀ s, s ∈ data listed
        <-> s ∈ loadSubmissions f ∧ s !! "author" = Some (JStr user))
  ∧ sublist (data listed) (loadSubmissions f)
  ∧ count listed = length (data listed)
  ∧ (ToBoolean (submission !! "title") = true ->
     submission !! "author" = Some (JStr user) ->
     ∃ newSubmission,
       reply (post_case_study millis now submission f) = Created newSubmission
       ∧ data (get_case_studies (Some user)
                 (file_after (post_case_study millis now submission f)))
         = data listed ++ [newSubmission]).
Proof.
  intros listed. subst listed. unfold get_case_studies.
  assert (Htruthy : Str.truthy user = true).
  { unfold Str.truthy. by rewrite bool_decide_eq_false_2. }
  assert (Hwritten : ∀ s, written_by user s = true
                          <-> s !! "author" = Some (JStr user)).
  { intros s. unfold written_by, strict_eq_string.
    destruct (s !! "author") as [[| | |a| |]|]; simpl;
      rewrite ?andb_false_r; try (split; [done | by intros [=]]).
    destruct (decide (a = user)) as [->|Hne].
    + rewrite bool_decide_eq_false_2, bool_decide_eq_true_2 by done. done.
    + rewrite (bool_decide_eq_false_2 (a = user)) by done.
      rewrite andb_false_r. split; [done | by intros [= ->]]. }
  rewrite Htruthy. simpl. split.
  { intros s. by rewrite elem_of_filter, Hwritten. }
  split.
  { clear. induction (loadSubmissions f) as [|s l IH]; simpl; [done|].
    destruct (written_by user s); by constructor. }
  split; [done|].
  intros Htitle Hauthor.
  assert (Ha : ToBoolean (submission !! "author") = true).
  { rewrite Hauthor. simpl. by rewrite bool_decide_eq_false_2. }
  rewrite post_case_study_accepts by done. simpl.
  eexists. split; [done|].
  rewrite List.filter_app. f_equal. simpl.
  set (newSubmission := object_literal _).
  assert (written_by user newSubmission = true) as ->; [|done].
  apply Hwritten. unfold newSubmission, object_literal. cbn [foldl].
  rewrite !lookup_field_ne, lookup_spread by done. by rewrite Hauthor.
Qed.

End CaseStudyCrud.

(** ** More on edit reconciliation *)

Section EditedInPlace.

Implicit Types (now : clock) (req : request) (store : list obj).

(** X8. Editing an edited version through its own key: when the request
    does not end with 500 and the store holds no edited version of the
    requested id but an edited record whose own key is that id, the first
    such record is overwritten in place with itself overridden by
    [editedData], stamped with a fresh [editTimestamp] and [editedBy];
    nothing is appended and the answer says [isNewVersion = false]. *)
Theorem edit_updates_edited_in_place now req store
    (Hok : reply (save_edited_submission now req (Some store))
           ≠ ServerError)
    (Hnone : ∀ sub, sub ∈ store ->
               is_edit_of (originalSubmissionId req) sub = false)
    (Hedited : ∃ sub, sub ∈ store
                 ∧ is_edit_with_key (originalSubmissionId req) sub
                   = Some true) :
  ∃ (i : nat) (edited : obj),
    store !! i = Some edited
    ∧ is_edit_with_key (originalSubmissionId req) edited = Some true
    ∧ (∀ j sub, j < i -> store !! j = Some sub ->
         is_edit_with_key (originalSubmissionId req) sub = Some false)
    ∧ let newSubmission :=
        <["editedBy" := editor req]>
          (<["editTimestamp" := JStr (now 0)]>
             (shallow_merge [edited; editedData req])) in
      let out := save_edited_submission now req (Some store) in
      file_after out = Some (<[i := newSubmission]> store)
      ∧ length (records (file_after out)) = length store
      ∧ slot out = Some i
      ∧ reply out = Saved (newSubmission !! "submittedAt") false.
Proof.
  destruct (found_original now req store Hok)
    as (original & Hfind & _ & _ & [editing Hed]).
  { destruct Hedited as (sub & Hsub & Hkey). exists sub. split; [done|].
    by apply is_edit_with_key_true in Hkey as [_ ?]. }
  destruct editing as [edited|].
  2:{ rewrite find_or_throw_None in Hed.
      destruct Hedited as (sub & Hsub & Hkey).
      rewrite (Hed sub Hsub) in Hkey. done. }
  apply find_None in Hnone.
  destruct (reconcile_editing now req store original edited Hnone Hed)
    as (pre & post & Hstore & Hpre & Hpass & Hrec).
  destruct (save_reconciled _ _ _ _ _ _ _ _ _ Hfind Hrec)
    as (Hfile & Hslot & Hanswer).
  destruct (has_comment req) as [attach|]; destruct Hanswer as [Hanswer _];
    [|done].
  exists (length pre), edited.
  split; [rewrite Hstore; apply lookup_middle|]. split; [done|]. split.
  { intros j sub Hj Hsub. apply Hpre. rewrite Hstore in Hsub.
    rewrite lookup_app_l in Hsub by lia.
    by apply list_elem_of_lookup_2 in Hsub. }
  intros newSubmission out. subst out. rewrite Hfile, Hslot, Hanswer.
  split; [by rewrite Hstore, insert_middle|].
  split; [by rewrite Hstore; simpl; rewrite !length_app|]. done.
Qed.

(** The comment makes the request fail exactly when it is truthy and no
    string. *)
Lemma has_comment_None req :
  has_comment req = None
  <-> ∃ v, facilitatorComment req = Some v
           ∧ ToBoolean (Some v) = true
           ∧ ∀ comment, v ≠ JStr comment.
Proof.
  unfold has_comment. split.
  - destruct (facilitatorComment req) as [v|]; [|done].
    intros Hnone. exists v. split; [done|].
    destruct v; try done; simpl in *.
    + by destruct b.
    + by destruct (negb _).
  - intros (v & -> & Htruthy & Hno).
    destruct v; try done; simpl in *.
    + by rewrite Htruthy.
    + by rewrite Htruthy.
    + by destruct (Hno s).
Qed.

(** X9. Whatever the request, the edit route changes the stored array at
    one index at most, the one it reports as [slot]: every other record
    stays where and what it was and nothing is ever removed.  The array
    grows by one record at most; under an answer 200 it grows exactly when
    the answer says [isNewVersion = true]; under 404 the file is as it
    was; under 500 the file is as it was unless the facilitator comment
    is truthy and no string, which fails the request after the write.  An
    absent file stays absent. *)
Theorem edit_touches_one_record now req (f : file) :
  let out := save_edited_submission now req f in
  (∀ j, slot out ≠ Some j ->
        records (file_after out) !! j = records f !! j)
  ∧ (length (records f) <= length (records (file_after out))
     ∧ length (records (file_after out)) <= S (length (records f)))
  ∧ (∀ v isNewVersion, reply out = Saved v isNewVersion ->
       length (records (file_after out))
       = length (records f) + (if isNewVersion then 1 else 0))
  ∧ (reply out = NotFound -> file_after out = f)
  ∧ (reply out = ServerError ->
     file_after out = f
     ∨ ∃ v, facilitatorComment req = Some v
            ∧ ToBoolean (Some v) = true
            ∧ ∀ comment, v ≠ JStr comment)
  ∧ (file_after out = None <-> f = None).
Proof.
  intros out. subst out. destruct f as [store|].
  2:{ simpl. split; [done|]. split; [lia|]. split; [done|].
      split; [done|]. split; [by left | done]. }
  destruct (save_cases now req store)
    as [(Hfile & Hslot & Hreply)
       |(original & pre & x & post & isNew & ticks & Hfind & Hrec)].
  { rewrite Hfile. cbn [records].
    split; [done|]. split; [lia|]. split.
    { intros v b Hv. destruct Hreply as [Hr|Hr]; rewrite Hr in Hv; done. }
    split; [done|]. split; [by left | done]. }
  destruct (save_reconciled _ _ _ _ _ _ _ _ _ Hfind Hrec)
    as (Hfile & Hslot & Hanswer).
  rewrite Hfile, Hslot. cbn [records].
  destruct (reconcile_frame _ _ _ _ _ Hrec)
    as (pre' & x' & post' & isNew' & ticks' & Heq & Hcase).
  injection Heq as Hdata Hlen0 <- <-.
  assert (Hframe : ∀ j, Some (length pre) ≠ Some j ->
            (pre ++ x :: post) !! j = store !! j).
  { intros j Hj. assert (j ≠ length pre') by congruence.
    rewrite Hdata.
    destruct Hcase as [(_ & old & ->)|(_ & -> & ->)].
    - destruct (decide (j < length pre')) as [Hlt|Hge].
      + by rewrite !lookup_app_l.
      + rewrite !lookup_app_r by lia.
        destruct (j - length pre') as [|m] eqn:Hm; [lia | done].
    - destruct (decide (j < length pre')) as [Hlt|Hge].
      + by rewrite lookup_app_l.
      + rewrite !lookup_ge_None_2; [done | lia |].
        rewrite length_app. simpl. lia. }
  split; [exact Hframe|]. clear Hframe.
  assert (Hlen : length (pre ++ x :: post)
                 = length store + (if isNew then 1 else 0)).
  { rewrite Hdata.
    destruct Hcase as [(-> & old & ->)|(-> & -> & ->)].
    - rewrite !length_app. simpl. lia.
    - rewrite !length_app. simpl. lia. }
  split; [destruct isNew; lia|]. split.
  { intros v b Hv. destruct (has_comment req) as [attach|].
    - destruct Hanswer as [Hr _]. rewrite Hr in Hv.
      by injection Hv as _ <-.
    - destruct Hanswer as [Hr _]. rewrite Hr in Hv. done. }
  split.
  { intros Hnf. destruct (has_comment req) as [attach|];
      destruct Hanswer as [Hr _]; rewrite Hr in Hnf; done. }
  split; [|done].
  intros Herr. right. apply has_comment_None.
  destruct (has_comment req) as [attach|]; [|done].
  destruct Hanswer as [Hr _]. rewrite Hr in Herr. done.
Qed.

(** X10. A submission posted to the focus-group collection with string
    [username], [email] and [submittedAt] can be edited under its key right
    away, also when the file did not exist before the POST: when the older
    records all have identity keys and the facilitator comment of the edit,
    if there is one, is text, the edit is never answered 404 or 500.  When
    moreover nothing in the old file bears on that key and the posted
    record is not flagged as edited, the edit creates the edited version
    behind it. *)
Theorem posted_submission_can_be_edited (submission : obj) (f : file)
    now req (username email submittedAt : string)
    (Husername : submission !! "username" = Some (JStr username))
    (Hemail : submission !! "email" = Some (JStr email))
    (HsubmittedAt : submission !! "submittedAt" = Some (JStr submittedAt))
    (Hid : originalSubmissionId req
           = username +:+ "|" +:+ email +:+ "|" +:+ submittedAt)
    (Hkeyed : keyed (records f))
    (Hcomment : comment_is_text req) :
  let posted := FocusGroup.post_focus_group submission f in
  posted = Some (records f ++ [submission])
  ∧ (∃ v isNewVersion,
       reply (save_edited_submission now req posted) = Saved v isNewVersion)
  ∧ ((∀ sub, sub ∈ records f ->
        identityKey sub ≠ Some (originalSubmissionId req)
        ∧ is_edit_of (originalSubmissionId req) sub = false) ->
     ToBoolean (submission !! "isEditedVersion") = false ->
     ∃ newSubmission,
       file_after (save_edited_submission now req posted)
         = Some (records f ++ [submission; newSubmission])
       ∧ newSubmission !! "originalSubmissionId"
           = Some (JStr (originalSubmissionId req))
       ∧ reply (save_edited_submission now req posted)
           = Saved (Some (JStr (now 0))) true).
Proof.
  intros posted.
  assert (Hposted : posted = Some (records f ++ [submission])).
  { subst posted. by destruct f. }
  assert (Hkey : identityKey submission = Some (originalSubmissionId req)).
  { rewrite Hid. by apply identityKey_strings. }
  assert (Hall : keyed (records f ++ [submission])).
  { apply keyed_app; [done|]. intros sub ->%list_elem_of_singleton.
    by eexists. }
  destruct (has_comment_text req Hcomment) as [attach Hattach].
  split; [done|]. rewrite Hposted. split.
  - destruct (find_original now req _ Hall) as (original & Hfind & Hin & _).
    { exists submission. split; [|done].
      apply elem_of_app. right. apply list_elem_of_here. }
    destruct (reconcile_shape now req _ original Hin)
      as (pre & x & post & isNew & ticks & Hrec & _).
    { apply find_or_throw_total. by apply keyed_is_edit_with_key. }
    destruct (save_reconciled _ _ _ _ _ _ _ _ _ Hfind Hrec)
      as (_ & _ & Hanswer).
    rewrite Hattach in Hanswer. destruct Hanswer as [Hanswer _].
    by eexists _, _.
  - intros Hold Hflag.
    assert (Hclean : ∀ sub, sub ∈ records f ->
              has_key (originalSubmissionId req) sub = Some false).
    { intros sub Hsub. rewrite has_key_keyed by by apply Hkeyed.
      f_equal. apply bool_decide_eq_false. by apply Hold. }
    assert (Hfind : Arr.find_or_throw (has_key (originalSubmissionId req))
                      (records f ++ [submission]) = Some (Some submission)).
    { rewrite find_or_throw_app_clean by done. simpl.
      by rewrite (proj2 (has_key_true _ _) Hkey). }
    assert (Hex : Arr.find (is_edit_of (originalSubmissionId req))
                    (records f ++ [submission]) = None).
    { apply find_None. intros sub Hsub.
      apply elem_of_app in Hsub as [Hsub|Hsub]; [by apply Hold|].
      apply list_elem_of_singleton in Hsub as ->.
      unfold is_edit_of. by rewrite Hflag. }
    assert (Hed : Arr.find_or_throw
                    (is_edit_with_key (originalSubmissionId req))
                    (records f ++ [submission]) = Some None).
    { apply find_or_throw_None. intros sub Hsub.
      apply elem_of_app in Hsub as [Hsub|Hsub].
      - unfold is_edit_with_key.
        destruct (ToBoolean (sub !! "isEditedVersion")); [|done].
        by apply Hclean.
      - apply list_elem_of_singleton in Hsub as ->.
        unfold is_edit_with_key. by rewrite Hflag. }
    pose proof (reconcile_fresh now req _ submission Hex Hed) as Hrec.
    rewrite new_version_literal in Hrec.
    set (newSubmission := <["editTimestamp" := _]> _) in Hrec.
    change ((records f ++ [submission]) ++ [newSubmission])
      with ((records f ++ [submission]) ++ newSubmission :: []) in Hrec.
    destruct (save_reconciled _ _ _ _ _ _ _ _ _ Hfind Hrec)
      as (Hfile & _ & Hanswer).
    rewrite Hattach in Hanswer. destruct Hanswer as [Hanswer _].
    exists newSubmission. rewrite Hfile, Hanswer.
    split; [by rewrite <- app_assoc|]. split.
    { unfold newSubmission.
      do 2 (rewrite lookup_insert_ne by done). by rewrite lookup_insert_eq. }
    f_equal. unfold newSubmission.
    do 4 (rewrite lookup_insert_ne by done). by rewrite lookup_insert_eq.
Qed.

End EditedInPlace.

(** ** History reports: values and tensions without repetition *)

Section Histories.

Lemma same_value_zero_sym (a b : json) :
  same_value_zero a b = same_value_zero b a.
Proof.
  destruct a, b; simpl; try done; apply bool_decide_ext; split; congruence.
Qed.

Lemma same_value_zero_string (v : string) (a : json) :
  same_value_zero (JStr v) a = true -> a = JStr v.
Proof.
  destruct a; simpl; try done. by intros ->%bool_decide_eq_true.
Qed.

Lemma includes_true (xs : list json) (v : json) :
  Arr.includes xs v = true -> ∃ x, x ∈ xs ∧ same_value_zero v x = true.
Proof.
  unfold Arr.includes. intros (x & Hx & Hsame)%existsb_exists.
  exists x. by rewrite list_elem_of_In.
Qed.

Lemma pairwise_distinct_snoc (vs : list json) (v : json) :
  pairwise_distinct vs -> Arr.includes vs v = false ->
  pairwise_distinct (vs ++ [v]).
Proof.
  intros Hvs Hnew i j a b Hij Ha Hb.
  destruct (decide (j < length vs)) as [Hj|Hj].
  - rewrite lookup_app_l in Ha, Hb by lia. by apply (Hvs i j).
  - assert (j = length vs) as ->.
    { apply lookup_lt_Some in Hb. rewrite length_app in Hb. simpl in Hb. lia. }
    rewrite lookup_app_l in Ha by lia.
    change (vs ++ [v]) with (vs ++ v :: []) in Hb.
    rewrite lookup_middle in Hb. injection Hb as <-.
    apply (includes_false vs). { done. }
    by apply list_elem_of_lookup_2 in Ha.
Qed.

Lemma deduplicated_add (seen : list json) (details : list History.detail)
    (entry : History.detail) :
  deduplicated (seen, details) ->
  ToBoolean (Some (History.value entry)) = true ->
  Arr.includes seen (History.value entry) = false ->
  deduplicated (seen ++ [History.value entry], Arr.push details entry).
Proof.
  intros (Htrack & Hdist & Htruthy) Hv Hnew. simpl in *.
  split; [|split]; simpl.
  - unfold Arr.push. by rewrite fmap_app, Htrack.
  - by apply pairwise_distinct_snoc.
  - apply Forall_app. split; [done|]. by apply Forall_singleton.
Qed.

(** The details of a deduplicated state have pairwise different, truthy
    values. *)
Lemma deduplicated_entries (st : History.collected) i j a b :
  deduplicated st -> i ≠ j ->
  st.2 !! i = Some a -> st.2 !! j = Some b ->
  same_value_zero (History.value a) (History.value b) = false
  ∧ ToBoolean (Some (History.value a)) = true.
Proof.
  intros (Htrack & Hdist & Htruthy) Hij Ha Hb.
  assert (Hva : st.1 !! i = Some (History.value a))
    by (by rewrite Htrack, list_lookup_fmap, Ha).
  assert (Hvb : st.1 !! j = Some (History.value b))
    by (by rewrite Htrack, list_lookup_fmap, Hb).
  split.
  - destruct (Nat.lt_total i j) as [Hlt|[?|Hgt]]; [|done|].
    + rewrite same_value_zero_sym. by apply (Hdist i j).
    + by apply (Hdist j i).
  - rewrite Forall_lookup in Htruthy. by apply (Htruthy i).
Qed.

Lemma forEach_extends {S A : Type} (I : S -> Prop) (R : S -> S -> Prop)
    (f : S -> A -> option S) (xs : list A) (s s' : S) :
  (∀ s, R s s) -> (∀ a b c, R a b -> R b c -> R a c) ->
  (∀ s x s', I s -> f s x = Some s' -> I s' ∧ R s s') ->
  I s -> Arr.forEach f xs s = Some s' -> I s' ∧ R s s'.
Proof.
  intros Hrefl Htrans Hstep. revert s.
  induction xs as [|x xs IH]; intros s Hs; simpl.
  - intros [= <-]. by split.
  - destruct (f s x) as [s1|] eqn:Hf; [|done]. intros Hrest.
    destruct (Hstep s x s1 Hs Hf) as [Hs1 HR1].
    destruct (IH s1 Hs1 Hrest) as [Hs' HR']. split; [done|].
    by apply (Htrans s s1 s').
Qed.

(** A [forEach] that ran to its end called the callback on each element,
    from a state the earlier calls led to. *)
Lemma forEach_visits {S A : Type} (I : S -> Prop) (R : S -> S -> Prop)
    (f : S -> A -> option S) (xs : list A) (x : A) (s s' : S) :
  (∀ s, R s s) -> (∀ a b c, R a b -> R b c -> R a c) ->
  (∀ s x s', I s -> f s x = Some s' -> I s' ∧ R s s') ->
  x ∈ xs -> I s -> Arr.forEach f xs s = Some s' ->
  ∃ s1 s2, I s1 ∧ f s1 x = Some s2 ∧ R s2 s'.
Proof.
  intros Hrefl Htrans Hstep Hx. revert s.
  induction xs as [|y xs IH]; intros s Hs; simpl.
  - by apply elem_of_nil in Hx.
  - destruct (f s y) as [s1|] eqn:Hf; [|done]. intros Hrest.
    destruct (Hstep s y s1 Hs Hf) as [Hs1 HR1].
    apply elem_of_cons in Hx as [->|Hx].
    + exists s, s1. split; [done|]. split; [done|].
      by destruct (forEach_extends I R f xs s1 s' Hrefl Htrans Hstep Hs1 Hrest).
    + by apply (IH Hx s1).
Qed.

Lemma grows_by_refl src st : grows_by src st st.
Proof. exists []. by rewrite app_nil_r. Qed.

Lemma grows_by_trans src a b c :
  grows_by src a b -> grows_by src b c -> grows_by src a c.
Proof.
  intros (x & Hx & Hsx) (y & Hy & Hsy). exists (x ++ y).
  split; [by rewrite Hy, Hx, app_assoc | by apply Forall_app].
Qed.

(** *** Values *)

(** One value item: the state stays deduplicated and the details grow at
    the end only, by an entry of the source of the pass. *)
Lemma visit_value_step src sub st valueItem st' :
  deduplicated st ->
  ValueHistory.visit_value src sub st valueItem = Some st' ->
  deduplicated st' ∧ grows_by src st st'.
Proof.
  intros Hded. unfold ValueHistory.visit_value.
  destruct st as [userValues details].
  destruct (get valueItem "value") as [[item|]|];
    cbn [mbind option_bind];
    [| intros [= <-]; split; [done | apply grows_by_refl] | done].
  destruct (ToBoolean (Some item) && negb (Arr.includes userValues item))
    eqn:Hcond; [|intros [= <-]; split; [done | apply grows_by_refl]].
  destruct (get valueItem "definition") as [d|];
    cbn [mbind option_bind]; [|done].
  intros [= <-]. apply andb_true_iff in Hcond as [Htruthy Hnew%negb_true_iff].
  split.
  - by apply (deduplicated_add userValues details
                {| History.value := item; History.definition := or_else d (JStr "");
                   History.source := src;
                   History.submissionDate := sub !! "submittedAt" |}).
  - eexists [_]. split; [reflexivity|]. by apply Forall_singleton.
Qed.

Lemma visit_case_step src sub st caseItem st' :
  deduplicated st ->
  ValueHistory.visit_case src sub st caseItem = Some st' ->
  deduplicated st' ∧ grows_by src st st'.
Proof.
  intros Hded. unfold ValueHistory.visit_case.
  destruct (ValueHistory.values_of caseItem) as [[valueItems|]|];
    cbn [mbind option_bind];
    [| intros [= <-]; split; [done | apply grows_by_refl] | done].
  apply forEach_extends;
    [apply grows_by_refl | apply grows_by_trans | | done].
  intros ? ? ?. apply visit_value_step.
Qed.

Lemma visit_submission_step src st sub st' :
  deduplicated st ->
  ValueHistory.visit_submission src st sub = Some st' ->
  deduplicated st' ∧ grows_by src st st'.
Proof.
  intros Hded. unfold ValueHistory.visit_submission.
  destruct (sub !! "cases") as [[| | | |cases|]|];
    try (intros [= <-]; split; [done | apply grows_by_refl]).
  apply forEach_extends;
    [apply grows_by_refl | apply grows_by_trans | | done].
  intros ? ? ?. apply visit_case_step.
Qed.

Lemma deduplicated_nil : deduplicated ([], []).
Proof.
  split; [done|]. split; [|done]. intros i j a b _ Ha. done.
Qed.

Lemma grows_by_elem src st st' entry :
  grows_by src st st' -> entry ∈ st.2 -> entry ∈ st'.2.
Proof. intros (added & -> & _) Hin. apply elem_of_app. by left. Qed.

(** The two passes of the value route. *)
Lemma value_history_run email (fg ind : file) data n b :
  ValueHistory.user_value_history email fg ind = History.Report data n b ->
  ∃ st seen,
    Arr.forEach (ValueHistory.visit_submission "focus-group")
      (List.filter (ValueHistory.by_email email)
                   (loadFocusGroupSubmissions fg)) ([], []) = Some st
    ∧ Arr.forEach (ValueHistory.visit_submission "individual")
        (List.filter (ValueHistory.by_author_or_email email)
                     (loadSubmissions ind)) st = Some (seen, data)
    ∧ n = length data ∧ b = (0 <? length data)%nat.
Proof.
  unfold ValueHistory.user_value_history.
  destruct (Arr.forEach (ValueHistory.visit_submission "focus-group") _ _)
    as [st|] eqn:Hfocus; [|done].
  destruct (Arr.forEach (ValueHistory.visit_submission "individual") _ st)
    as [[seen details]|] eqn:Hind; [|done].
  intros [= <- <- <-]. by exists st, seen.
Qed.

Lemma value_pass src (subs : list obj) st st' :
  deduplicated st ->
  Arr.forEach (ValueHistory.visit_submission src) subs st = Some st' ->
  deduplicated st' ∧ grows_by src st st'.
Proof.
  intros Hded. apply forEach_extends;
    [apply grows_by_refl | apply grows_by_trans | | done].
  intros ? ? ?. apply visit_submission_step.
Qed.

(** X11. The value history never lists a value twice: any two entries
    have different values (as [Set] compares them), and every listed value
    is truthy. *)
Theorem value_history_distinct email (fg ind : file) (i j : nat)
    (a b : History.detail)
    (Hij : i ≠ j)
    (Ha : History.entries (ValueHistory.user_value_history email fg ind) !! i
          = Some a)
    (Hb : History.entries (ValueHistory.user_value_history email fg ind) !! j
          = Some b) :
  same_value_zero (History.value a) (History.value b) = false
  ∧ ToBoolean (Some (History.value a)) = true.
Proof.
  destruct (ValueHistory.user_value_history email fg ind)
    as [data n hasSubmissions|] eqn:Hrun; [|done].
  destruct (value_history_run _ _ _ _ _ _ Hrun)
    as (st & seen & Hfocus & Hind & _).
  destruct (value_pass _ _ _ _ deduplicated_nil Hfocus) as [Hst _].
  destruct (value_pass _ _ _ _ Hst Hind) as [Hfinal _].
  by apply (deduplicated_entries (seen, data) i j).
Qed.

(** X12. The value history lists what the focus-group collection gave
    first and what the individual collection added after it; when the
    request succeeds the first part is what the focus-group collection
    alone would give, and [count] and [hasSubmissions] describe the
    list. *)
Theorem value_history_sources email (fg ind : file) :
  ∃ fromFocusGroup fromIndividual,
    History.entries (ValueHistory.user_value_history email fg ind)
      = fromFocusGroup ++ fromIndividual
    ∧ Forall (fun entry => History.source entry = "focus-group")
             fromFocusGroup
    ∧ Forall (fun entry => History.source entry = "individual")
             fromIndividual
    ∧ ∀ data n b,
        ValueHistory.user_value_history email fg ind = History.Report data n b
        -> n = length data
           ∧ (b = true <-> data ≠ [])
           ∧ History.entries (ValueHistory.user_value_history email fg None)
             = fromFocusGroup.
Proof.
  destruct (ValueHistory.user_value_history email fg ind)
    as [data n hasSubmissions|] eqn:Hrun;
    [|by exists [], []].
  destruct (value_history_run _ _ _ _ _ _ Hrun)
    as (st & seen & Hfocus & Hind & -> & ->).
  destruct (value_pass _ _ _ _ deduplicated_nil Hfocus)
    as [Hst (x & Hx & Hsx)].
  destruct (value_pass _ _ _ _ Hst Hind) as [_ (y & Hy & Hsy)].
  simpl in Hx, Hy. exists x, y. rewrite Hy, Hx. simpl.
  split; [done|]. split; [done|]. split; [done|].
  intros ? ? ? [= <- <- <-]. split; [done|]. split.
  - destruct (x ++ y); simpl; split; done.
  - unfold ValueHistory.user_value_history. rewrite Hfocus. simpl.
    destruct st as [seen1 data1]. simpl in Hx. by rewrite Hx.
Qed.

Lemma visit_value_records src sub st (itemFields : obj) st' (v : string) :
  deduplicated st ->
  ValueHistory.visit_value src sub st (JObj itemFields) = Some st' ->
  itemFields !! "value" = Some (JStr v) -> v ≠ "" ->
  ∃ entry, entry ∈ st'.2 ∧ History.value entry = JStr v.
Proof.
  intros (Htrack & _) Hvisit Hv Hne. unfold ValueHistory.visit_value in Hvisit.
  destruct st as [userValues details]. simpl in Htrack, Hvisit.
  rewrite Hv in Hvisit. cbn [mbind option_bind] in Hvisit.
  assert (ToBoolean (Some (JStr v)) = true) as Htruthy.
  { simpl. by rewrite bool_decide_eq_false_2. }
  rewrite Htruthy in Hvisit.
  destruct (Arr.includes userValues (JStr v)) eqn:Hinc; simpl in Hvisit.
  - injection Hvisit as <-. simpl.
    destruct (includes_true _ _ Hinc) as (x & Hx & Hsame).
    apply same_value_zero_string in Hsame as ->.
    rewrite Htrack in Hx. apply list_elem_of_fmap in Hx as (entry & Hval & Hin).
    by exists entry.
  - injection Hvisit as <-. simpl. eexists. split.
    + unfold Arr.push. apply elem_of_app. right. apply list_elem_of_here.
    + done.
Qed.

(** X13. First seen wins across the two collections: when the request
    succeeds, a non-empty string value found in a focus-group submission of
    the user is listed with source ["focus-group"], whatever the
    individual collection holds. *)
Theorem value_history_first_seen email (fg ind : file)
    (data : list History.detail) (n : nat) (b : bool)
    (sub caseFields itemFields : obj) (cases valueItems : list json)
    (v : string)
    (Hreport : ValueHistory.user_value_history email fg ind
               = History.Report data n b)
    (Hsub : sub ∈ loadFocusGroupSubmissions fg)
    (Hemail : sub !! "email" = Some (JStr email))
    (Hcases : sub !! "cases" = Some (JArr cases))
    (Hcase : JObj caseFields ∈ cases)
    (Hvalues : caseFields !! "values" = Some (JArr valueItems))
    (Hitem : JObj itemFields ∈ valueItems)
    (Hvalue : itemFields !! "value" = Some (JStr v))
    (Hne : v ≠ "") :
  ∃ entry, entry ∈ data
           ∧ History.value entry = JStr v
           ∧ History.source entry = "focus-group".
Proof.
  destruct (value_history_run _ _ _ _ _ _ Hreport)
    as (st & seen & Hfocus & Hind & _).
  destruct (value_pass _ _ _ _ deduplicated_nil Hfocus)
    as [Hst (x & Hx & Hsx)].
  destruct (value_pass _ _ _ _ Hst Hind) as [_ Hgrow].
  assert (Hlisted : sub ∈ List.filter (ValueHistory.by_email email)
                            (loadFocusGroupSubmissions fg)).
  { apply elem_of_filter. split; [done|].
    unfold ValueHistory.by_email. rewrite Hemail. simpl.
    by apply bool_decide_eq_true. }
  destruct (forEach_visits deduplicated (grows_by "focus-group") _ _ sub _ _
              (grows_by_refl _) (grows_by_trans _)
              (fun s x s' => visit_submission_step _ s x s')
              Hlisted deduplicated_nil Hfocus)
    as (s1 & s2 & Hs1 & Hvisit1 & Hgrow1).
  unfold ValueHistory.visit_submission in Hvisit1. rewrite Hcases in Hvisit1.
  destruct (forEach_visits deduplicated (grows_by "focus-group") _ _ _ _ _
              (grows_by_refl _) (grows_by_trans _)
              (fun s x s' => visit_case_step _ sub s x s')
              Hcase Hs1 Hvisit1)
    as (s3 & s4 & Hs3 & Hvisit2 & Hgrow2).
  unfold ValueHistory.visit_case in Hvisit2. simpl in Hvisit2.
  rewrite Hvalues in Hvisit2. cbn [mbind option_bind] in Hvisit2.
  destruct (forEach_visits deduplicated (grows_by "focus-group") _ _ _ _ _
              (grows_by_refl _) (grows_by_trans _)
              (fun s x s' => visit_value_step _ sub s x s')
              Hitem Hs3 Hvisit2)
    as (s5 & s6 & Hs5 & Hvisit3 & Hgrow3).
  destruct (visit_value_records _ _ _ _ _ v Hs5 Hvisit3 Hvalue Hne)
    as (entry & Hin & Hval).
  exists entry.
  assert (Hin_st : entry ∈ st.2).
  { eapply grows_by_elem; [exact Hgrow1|].
    eapply grows_by_elem; [exact Hgrow2|].
    eapply grows_by_elem; [exact Hgrow3|]. done. }
  split; [by apply (grows_by_elem _ _ _ _ Hgrow Hin_st)|]. split; [done|].
  simpl in Hx. rewrite Hx in Hin_st.
  rewrite Forall_forall in Hsx. by apply Hsx.
Qed.

(** *** Tensions *)

Lemma visit_tension_step src sub st tensionItem st' :
  deduplicated st ->
  History.visit_tension src sub st tensionItem = Some st' ->
  deduplicated st' ∧ grows_by src st st'.
Proof.
  intros Hded. unfold History.visit_tension.
  destruct st as [userTensions details].
  destruct (get tensionItem "value") as [[tension|]|];
    cbn [mbind option_bind];
    [| intros [= <-]; split; [done | apply grows_by_refl] | done].
  destruct (ToBoolean (Some tension)
            && negb (Arr.includes userTensions tension)
            && negb (Arr.includes (JStr <$> History.predefinedTensions)
                                  tension))
    eqn:Hcond; [|intros [= <-]; split; [done | apply grows_by_refl]].
  destruct (get tensionItem "definition") as [d|];
    cbn [mbind option_bind]; [|done].
  intros [= <-].
  apply andb_true_iff in Hcond as [Hcond _].
  apply andb_true_iff in Hcond as [Htruthy Hnew%negb_true_iff].
  split.
  - by apply (deduplicated_add userTensions details
                {| History.value := tension;
                   History.definition := or_else d (JStr "");
                   History.source := src;
                   History.submissionDate := sub !! "submittedAt" |}).
  - eexists [_]. split; [reflexivity|]. by apply Forall_singleton.
Qed.

Lemma tension_pass src (subs : list obj) st st' :
  deduplicated st ->
  Arr.forEach (History.visit_submission src) subs st = Some st' ->
  deduplicated st' ∧ grows_by src st st'.
Proof.
  intros Hded. apply forEach_extends;
    [apply grows_by_refl | apply grows_by_trans | | done].
  clear. intros st sub st' Hded. unfold History.visit_submission.
  destruct (sub !! "cases") as [[| | | |cases|]|];
    try (intros [= <-]; split; [done | apply grows_by_refl]).
  apply forEach_extends;
    [apply grows_by_refl | apply grows_by_trans | | done].
  clear. intros st caseItem st' Hded. unfold History.visit_case.
  destruct (get caseItem "tensions") as [[[| | | |tensions|]|]|];
    cbn [mbind option_bind]; try done;
    try (intros [= <-]; split; [done | apply grows_by_refl]).
  apply forEach_extends;
    [apply grows_by_refl | apply grows_by_trans | | done].
  intros ? ? ?. apply visit_tension_step.
Qed.

(** X14. The tension history never lists a tension twice either, lists
    truthy values only, and lists the focus-group entries before the
    individual ones. *)
Theorem tension_history_distinct email (fg ind : file) (i j : nat)
    (a b : History.detail)
    (Hij : i ≠ j)
    (Ha : History.entries (History.user_tension_history email fg ind) !! i
          = Some a)
    (Hb : History.entries (History.user_tension_history email fg ind) !! j
          = Some b) :
  same_value_zero (History.value a) (History.value b) = false
  ∧ ToBoolean (Some (History.value a)) = true
  ∧ (i < j -> History.source a = "individual" ->
     History.source b = "individual").
Proof.
  unfold History.user_tension_history in *.
  destruct (Arr.forEach (History.visit_submission "focus-group") _ _)
    as [st|] eqn:Hfocus; [|done].
  destruct (Arr.forEach (History.visit_submission "individual") _ st)
    as [[seen data]|] eqn:Hind; [|done].
  simpl in Ha, Hb.
  destruct (tension_pass _ _ _ _ deduplicated_nil Hfocus)
    as [Hst (x & Hx & Hsx)].
  destruct (tension_pass _ _ _ _ Hst Hind) as [Hfinal (y & Hy & Hsy)].
  destruct (deduplicated_entries (seen, data) i j a b Hfinal Hij Ha Hb)
    as [Hdiff Htruthy].
  split; [done|]. split; [done|].
  intros Hlt Hsrc. simpl in Hx, Hy. rewrite Hy, Hx in Ha, Hb. simpl in Ha, Hb.
  rewrite Forall_lookup in Hsx. rewrite Forall_lookup in Hsy.
  destruct (decide (i < length x)) as [Hi|Hi].
  - rewrite lookup_app_l in Ha by done.
    rewrite (Hsx i a Ha) in Hsrc. done.
  - rewrite lookup_app_r in Hb by lia. by apply (Hsy _ b Hb).
Qed.

End Histories.

(** ** Accounts *)

Section Accounts.

Import Auth.

Implicit Types (bcrypt : Bcrypt) (now : clock) (f : file) (users : list obj).










End Accounts.

(** ** The maintenance scripts *)

Section Maintenance.

Import Scripts.





Lemma rehash_Some bcrypt salt toLowerCase (users users' : list obj) (n : nat) :
  rehash bcrypt salt toLowerCase n users = Some users' ->
  length users' = length users
  ∧ ∀ i user, users !! i = Some user ->
      ∃ name,
        user !! "username" = Some (JStr name)
        ∧ users' !! i =
            Some (<["passwordHash" :=
                      JStr (Auth.hash bcrypt (salt (n + i))
                              (toLowerCase name +:+ "123456"))]> user).
Proof.
  revert n users'. induction users as [|user rest IH]; intros n users'; simpl.
  - intros [= <-]. split; [done|]. intros i u Hu. done.
  - destruct (user !! "username") as [[| | |name| |]|] eqn:Hname; try done.
    destruct (template _) as [logged|]; [|done].
    destruct (rehash bcrypt salt toLowerCase (S n) rest) as [rest'|] eqn:Hrest;
      [|done].
    cbn [mbind option_bind]. intros [= <-].
    destruct (IH (S n) rest' Hrest) as [Hlen Hall].
    split; [by simpl; rewrite Hlen|].
    intros [|i] u Hu; simpl in Hu.
    + injection Hu as <-. exists name. split; [done|].
      simpl. by rewrite Nat.add_0_r.
    + destruct (Hall i u Hu) as (name' & Hn & Hl). exists name'.
      split; [done|]. simpl. rewrite Hl.
      by replace (n + S i) with (S n + i) by lia.
Qed.

Lemma rehash_None bcrypt salt toLowerCase (users : list obj) (n : nat) :
  rehash bcrypt salt toLowerCase n users = None <->
  ∃ user, user ∈ users ∧ ¬ rehashable user.
Proof.
  revert n. induction users as [|user rest IH]; intros n; simpl.
  - split; [done|]. by intros (? & ?%elem_of_nil & _).
  - destruct (user !! "username") as [[| | |name| |]|] eqn:Hname;
      try (split; [intros _; exists user; split;
                     [apply list_elem_of_here
                     | intros [[name' Hname'] _]; congruence] | done]).
    rewrite lookup_insert_ne by done.
    destruct (template (user !! "email")) as [logged|] eqn:Hemail;
      cbn [mbind option_bind].
    2:{ split; [|done]. intros _. exists user.
        split; [apply list_elem_of_here|].
        intros [_ [logged Hlogged]]. congruence. }
    destruct (rehash bcrypt salt toLowerCase (S n) rest) as [rest'|] eqn:Hrest;
      cbn [mbind option_bind].
    + split; [done|]. intros (u & Hu & Hbad).
      apply elem_of_cons in Hu as [->|Hu].
      * destruct Hbad. split; [by exists name | by exists logged].
      * assert (Some rest' = None); [|done].
        rewrite <- Hrest. apply (proj2 (IH _)). by exists u.
    + split; [|done]. intros _.
      destruct (proj1 (IH _) Hrest) as (u & Hu & Hbad).
      exists u. split; [by apply list_elem_of_further | done].
Qed.

(** X19. The password script is all or nothing.  The loop gets through an
    account when its user name is a string and its email converts to text
    (the loop prints both).  When it gets through every account, each
    account gets the hash of its lower-cased user name followed by
    ["123456"] and keeps every other field; when there is an account it
    does not get through, or the file is absent, nothing is written. *)
Theorem updatePasswords_all_or_nothing bcrypt salt toLowerCase (f : file) :
  let after := updatePasswords bcrypt salt toLowerCase f in
  length (Auth.loadUsers after) = length (Auth.loadUsers f)
  ∧ ((∃ user, user ∈ Auth.loadUsers f ∧ ¬ rehashable user) -> after = f)
  ∧ ((∀ user, user ∈ Auth.loadUsers f -> rehashable user) ->
     ∀ i user, Auth.loadUsers f !! i = Some user ->
       ∃ name,
         user !! "username" = Some (JStr name)
         ∧ Auth.loadUsers after !! i =
             Some (<["passwordHash" :=
                       JStr (Auth.hash bcrypt (salt i)
                               (toLowerCase name +:+ "123456"))]> user)).
Proof.
  intros after. subst after. unfold updatePasswords.
  destruct f as [users|]; simpl.
  2:{ split; [done|]. split; [done|]. intros _ i user Hu. done. }
  destruct (rehash bcrypt salt toLowerCase 0 users) as [users'|] eqn:Hre.
  - destruct (rehash_Some _ _ _ _ _ _ Hre) as [Hlen Hall]. simpl.
    split; [done|]. split.
    + intros Hbad.
      pose proof (proj2 (rehash_None bcrypt salt toLowerCase users 0) Hbad)
        as Hnone.
      rewrite Hnone in Hre. done.
    + intros _ i user Hu. by apply Hall.
  - split; [done|]. split; [done|].
    intros Hgood i user Hu. exfalso.
    destruct (proj1 (rehash_None _ _ _ _ _) Hre) as (u & Hin & Hbad).
    by apply Hbad, Hgood.
Qed.

(** An account whose email is an object with a property [toString] of its
    own stops the script, whatever its user name. *)
Lemma updatePasswords_stops bcrypt salt toLowerCase (users : list obj)
    (user fields : obj) (v : json) :
  user ∈ users ->
  user !! "email" = Some (JObj fields) ->
  fields !! "toString" = Some v ->
  updatePasswords bcrypt salt toLowerCase (Some users) = Some users.
Proof.
  intros Hin Hemail Hfields. unfold updatePasswords.
  assert (rehash bcrypt salt toLowerCase 0 users = None) as ->; [|done].
  apply rehash_None. exists user. split; [done|].
  intros [_ [logged Hlogged]]. rewrite Hemail in Hlogged. simpl in Hlogged.
  by rewrite Hfields in Hlogged.
Qed.

End Maintenance.

(** ** Group listing *)

Section Listing.

Implicit Types (group key : string) (g : GroupListing.groups) (s : obj).

Lemma in_group_true group (c : json) :
  GroupListing.in_group group c = Some true ->
  ∃ fields, c = JObj fields ∧ fields !! "group" = Some (JStr group).
Proof.
  unfold GroupListing.in_group, get, strict_eq_string.
  destruct c as [| | | | |fields]; try done; simpl.
  intros [= Heq]. exists fields. split; [done|].
  destruct (fields !! "group") as [[| | |t| |]|]; try done.
  by apply bool_decide_eq_true in Heq as ->.
Qed.

Lemma some_true {A : Type} (p : A -> option bool) (xs : list A) :
  GroupListing.some p xs = Some true -> ∃ x, x ∈ xs ∧ p x = Some true.
Proof.
  induction xs as [|x xs IH]; simpl; [done|].
  destruct (p x) as [[|]|] eqn:Hx; [| |done].
  - intros _. exists x. split; [apply list_elem_of_here | done].
  - intros (y & Hy & Hp)%IH. exists y.
    split; [by apply list_elem_of_further | done].
Qed.

Lemma filter_kept {A : Type} (p : A -> option bool) (xs ys : list A) :
  GroupListing.filter p xs = Some ys ->
  ∀ y, y ∈ ys <-> y ∈ xs ∧ p y = Some true.
Proof.
  revert ys. induction xs as [|x xs IH]; intros ys; simpl.
  - intros [= <-] y. split; [by intros ?%elem_of_nil|].
    by intros [?%elem_of_nil _].
  - destruct (p x) as [keep|] eqn:Hx; [|done].
    destruct (GroupListing.filter p xs) as [rest|]; [|done].
    cbn [mbind option_bind]. intros [= <-] y.
    specialize (IH rest eq_refl y). destruct keep.
    + rewrite !elem_of_cons, IH. split.
      * intros [->|[? ?]]; [by split; [left|] | by split; [right|]].
      * intros [[->|?] ?]; [by left | by right].
    + rewrite elem_of_cons, IH. split.
      * intros [? ?]. by split; [right|].
      * intros [[->|?] ?]; [congruence | done].
Qed.

Lemma own_property_elem key (props : list (string * obj)) s :
  GroupListing.own_property key props = Some s -> (key, s) ∈ props.
Proof.
  induction props as [|[k v] props IH]; simpl; [done|].
  case_bool_decide as Hk.
  - intros [= <-]. subst k. apply list_elem_of_here.
  - intros H. by apply list_elem_of_further, IH.
Qed.

Lemma overwrite_elem key s (props : list (string * obj)) kv :
  kv ∈ GroupListing.overwrite key s props -> kv ∈ props ∨ kv = (key, s).
Proof.
  induction props as [|[k v] props IH]; simpl; [by left|].
  case_bool_decide as Hk.
  - subst k. rewrite !elem_of_cons. intros [->|?]; [by right | left; by right].
  - rewrite !elem_of_cons. intros [->|Hin]; [left; by left|].
    destruct (IH Hin) as [?|?]; [left; by right | by right].
Qed.

Lemma assign_elem g key s kv :
  kv ∈ GroupListing.own (GroupListing.assign g key s) ->
  kv ∈ GroupListing.own g ∨ kv = (key, s).
Proof.
  unfold GroupListing.assign.
  destruct (GroupListing.own_property key (GroupListing.own g)); simpl.
  - apply overwrite_elem.
  - destruct (bool_decide (key = "__proto__") && negb _); simpl; [by left|].
    rewrite elem_of_app, list_elem_of_singleton. tauto.
Qed.

Lemma insert_sorted_elem (x y : N * obj) (sorted : list (N * obj)) :
  y ∈ GroupListing.insert_sorted x sorted <-> y = x ∨ y ∈ sorted.
Proof.
  induction sorted as [|z sorted IH]; simpl.
  - rewrite list_elem_of_singleton. split; [by left | by intros [?|?%elem_of_nil]].
  - destruct (x.1 <=? z.1)%N.
    + by rewrite elem_of_cons.
    + rewrite !elem_of_cons, IH. tauto.
Qed.

(** [Object.values] returns values of own properties only. *)
Lemma values_elem g s :
  s ∈ GroupListing.values g -> ∃ key, (key, s) ∈ GroupListing.own g.
Proof.
  unfold GroupListing.values, GroupListing.index_properties,
    GroupListing.string_properties.
  rewrite elem_of_app. intros [Hidx|Hstr].
  - apply list_elem_of_fmap in Hidx as ([n v] & -> & Hin). simpl.
    induction (GroupListing.own g) as [|[k w] props IH]; simpl in Hin.
    { by apply elem_of_nil in Hin. }
    destruct (GroupListing.array_index k) as [m|] eqn:Hk; simpl in Hin.
    + apply insert_sorted_elem in Hin as [[= -> ->]|Hin].
      * exists k. apply list_elem_of_here.
      * destruct (IH Hin) as [key Hkey]. exists key.
        by apply list_elem_of_further.
    + destruct (IH Hin) as [key Hkey]. exists key.
      by apply list_elem_of_further.
  - apply list_elem_of_omap in Hstr as ([k w] & Hin & Hsome). simpl in Hsome.
    destruct (GroupListing.array_index k); [done|]. injection Hsome as ->.
    by exists k.
Qed.

(** Only submissions with a case of the group are stored. *)
Lemma grouped_hits group (submissions : list obj) g key s :
  GroupListing.grouped group submissions = Some g ->
  (key, s) ∈ GroupListing.own g -> hits_group group s.
Proof.
  unfold GroupListing.grouped. intros Hrun.
  revert key s.
  apply (forEach_invariant
           (fun g => ∀ key s, (key, s) ∈ GroupListing.own g ->
                              hits_group group s)
           (GroupListing.visit group) submissions
           {| GroupListing.own := []; GroupListing.proto := None |} g);
    [| |exact Hrun].
  - clear. intros g s g' Hinv. unfold GroupListing.visit.
    destruct (GroupListing.cases_to_scan s) as [[cases|]|] eqn:Hscan;
      cbn [mbind option_bind]; [| by intros [= <-] | done].
    destruct (GroupListing.some (GroupListing.in_group group) cases)
      as [[|]|] eqn:Hsome; [| by intros [= <-] | done].
    destruct (GroupListing.group_key s) as [key0|];
      cbn [mbind option_bind]; [|done].
    destruct (negb _ || _); [|by intros [= <-]].
    intros [= <-] key s' Hin.
    apply assign_elem in Hin as [Hin|[= -> ->]]; [by apply (Hinv key)|].
    exists cases. split; [|done].
    unfold GroupListing.cases_to_scan in Hscan.
    destruct (s !! "cases") as [[| | |text|[|c cs]|fields]|]; try done.
    + by destruct (Str.truthy text).
    + by injection Hscan as <-.
    + by destruct (ToBoolean (fields !! "length")).
  - simpl. intros key s Hin. by apply elem_of_nil in Hin.
Qed.

(** X20. The group listing answers 400 without a group name; every
    submission it lists comes with a [cases] array that is not empty and
    holds nothing but cases of the requested group, and [count] is the
    number of submissions listed. *)
Theorem group_listing_cases (group : option string) (f : file) (item : obj)
    (Hitem : item ∈ GroupListing.listed
                      (GroupListing.group_submissions group f)) :
  ∃ name cases,
    group = Some name ∧ name ≠ ""
    ∧ item !! "cases" = Some (JArr cases)
    ∧ cases ≠ []
    ∧ (∀ c, c ∈ cases ->
         ∃ fields, c = JObj fields ∧ fields !! "group" = Some (JStr name))
    ∧ ∃ data, GroupListing.group_submissions group f
              = GroupListing.Listing data (length data).
Proof.
  unfold GroupListing.group_submissions in *.
  destruct group as [name|]; [|by apply elem_of_nil in Hitem].
  destruct (Str.truthy name) eqn:Hname; simpl in *;
    [|by apply elem_of_nil in Hitem].
  destruct (GroupListing.grouped name (loadFocusGroupSubmissions f))
    as [g|] eqn:Hrun; [|by apply elem_of_nil in Hitem].
  destruct (mapM (GroupListing.entry name) (GroupListing.values g))
    as [data|] eqn:Hmap; [|by apply elem_of_nil in Hitem].
  simpl in Hitem. apply mapM_Some in Hmap.
  apply list_elem_of_lookup in Hitem as [i Hi].
  destruct (Forall2_lookup_r _ _ _ _ _ Hmap Hi) as (s & Hs & Hentry).
  apply list_elem_of_lookup_2 in Hs. apply values_elem in Hs as [key Hkey].
  destruct (grouped_hits _ _ _ _ _ Hrun Hkey) as (cases & Hcases & Hsome).
  unfold GroupListing.entry in Hentry. rewrite Hcases in Hentry.
  destruct (GroupListing.filter (GroupListing.in_group name) cases)
    as [filteredCases|] eqn:Hfilter; [|done].
  cbn [mbind option_bind] in Hentry. injection Hentry as <-.
  exists name, filteredCases. split; [done|]. split.
  { unfold Str.truthy in Hname. apply negb_true_iff in Hname.
    by apply bool_decide_eq_false in Hname. }
  split.
  { unfold object_literal. cbn [foldl]. by rewrite lookup_field. }
  pose proof (filter_kept _ _ _ Hfilter) as Hkept.
  split.
  { destruct (some_true _ _ Hsome) as (c & Hc & Hp).
    assert (c ∈ filteredCases) by (by apply Hkept).
    intros ->. by apply elem_of_nil in H. }
  split; [|by eexists].
  intros c Hc. apply Hkept in Hc as [_ Hp]. by apply in_group_true.
Qed.

Lemma forEach_app {S A : Type} (f : S -> A -> option S) (xs ys : list A)
    (s : S) :
  Arr.forEach f (xs ++ ys) s
  = match Arr.forEach f xs s with
    | Some s' => Arr.forEach f ys s'
    | None => None
    end.
Proof.
  revert s. induction xs as [|x xs IH]; intros s; simpl; [done|].
  destruct (f s x); [apply IH | done].
Qed.

Lemma some_hit {A : Type} (p : A -> option bool) (xs : list A) :
  Forall (fun x => is_Some (p x)) xs ->
  (∃ x, x ∈ xs ∧ p x = Some true) ->
  GroupListing.some p xs = Some true.
Proof.
  induction 1 as [|x xs [b Hb] _ IH]; intros (y & Hy & Hp).
  - by apply elem_of_nil in Hy.
  - simpl. rewrite Hb. destruct b; [done|]. apply IH.
    apply elem_of_cons in Hy as [->|Hy]; [congruence|]. by exists y.
Qed.

Lemma filter_total {A : Type} (p : A -> option bool) (xs : list A) :
  Forall (fun x => is_Some (p x)) xs -> is_Some (GroupListing.filter p xs).
Proof.
  induction 1 as [|x xs [b Hb] _ [rest IH]]; simpl; [by eexists|].
  rewrite Hb, IH. by eexists.
Qed.

(** *** The order of the listing *)

Lemma insert_sorted_fmap {V W : Type} (h : V -> W) (x : N * V)
    (sorted : list (N * V)) :
  prod_map id h <$> GroupListing.insert_sorted x sorted
  = GroupListing.insert_sorted (prod_map id h x) (prod_map id h <$> sorted).
Proof.
  induction sorted as [|y sorted IH]; [done|].
  destruct x as [n v], y as [m w]. cbn [GroupListing.insert_sorted fmap
    list_fmap prod_map fst snd id].
  destruct (n <=? m)%N; [done|].
  cbn [fmap list_fmap prod_map fst snd id]. f_equal. apply IH.
Qed.

Lemma index_properties_listed (props : list (string * obj)) :
  GroupListing.index_properties props
  = prod_map id snd
      <$> foldr GroupListing.insert_sorted []
            (omap (fun kv => match GroupListing.array_index kv.1 with
                             | Some n => Some (n, kv)
                             | None => None
                             end) props).
Proof.
  unfold GroupListing.index_properties, omap.
  induction props as [|[k v] props IH]; simpl; [done|].
  destruct (GroupListing.array_index k) as [n|]; simpl; [|done].
  by rewrite IH, insert_sorted_fmap.
Qed.

Lemma insert_sorted_perm {V : Type} (x : N * V) (sorted : list (N * V)) :
  GroupListing.insert_sorted x sorted ≡ₚ x :: sorted.
Proof.
  induction sorted as [|y sorted IH]; simpl; [done|].
  destruct (x.1 <=? y.1)%N; [done|].
  rewrite IH. apply Permutation_swap.
Qed.

(** [Object.values] lists the values of [Object.entries]. *)
Lemma values_listed g : GroupListing.values g = snd <$> listed_entries g.
Proof.
  unfold GroupListing.values, listed_entries.
  rewrite fmap_app, index_properties_listed. f_equal.
  - rewrite <- !list_fmap_compose. apply list_fmap_ext.
    by intros i [m [k w]].
  - unfold GroupListing.string_properties, omap.
    induction (GroupListing.own g) as [|[k v] props IH]; simpl; [done|].
    destruct (GroupListing.array_index k); simpl; [done|]. by rewrite IH.
Qed.

(** The listing holds what [submissionGroups] holds, each property
    once. *)
Lemma listed_entries_perm g : listed_entries g ≡ₚ GroupListing.own g.
Proof.
  unfold listed_entries, omap.
  induction (GroupListing.own g) as [|[k v] props IH]; simpl; [done|].
  destruct (GroupListing.array_index k) as [n|]; simpl.
  - rewrite insert_sorted_perm. simpl. by rewrite IH.
  - rewrite <- Permutation_middle. by rewrite IH.
Qed.

Lemma own_property_None key (props : list (string * obj)) :
  GroupListing.own_property key props = None <-> key ∉ props.*1.
Proof.
  induction props as [|[k v] props IH]; simpl.
  - split; [intros _; apply not_elem_of_nil | done].
  - rewrite not_elem_of_cons. case_bool_decide as Hk.
    + subst k. split; [done | by intros [? _]].
    + rewrite IH. split; [by intros ?; split; [congruence|] | by intros [_ ?]].
Qed.

Lemma own_property_NoDup key (props : list (string * obj)) s :
  NoDup props.*1 -> (key, s) ∈ props ->
  GroupListing.own_property key props = Some s.
Proof.
  induction props as [|[k v] props IH]; simpl.
  - by intros _ ?%elem_of_nil.
  - intros [Hk Hnodup]%NoDup_cons Hin. case_bool_decide as Heq.
    + subst k. apply elem_of_cons in Hin as [[= ->]|Hin]; [done|].
      exfalso. apply Hk. apply list_elem_of_fmap. by exists (key, s).
    + apply elem_of_cons in Hin as [[= -> ->]|Hin]; [done|]. by apply IH.
Qed.

Lemma overwrite_keys key s (props : list (string * obj)) :
  (GroupListing.overwrite key s props).*1 = props.*1.
Proof.
  induction props as [|[k v] props IH]; [done|].
  cbn [GroupListing.overwrite]. case_bool_decide; [done|].
  rewrite !fmap_cons. by rewrite IH.
Qed.

Lemma assign_keys_NoDup g key s :
  NoDup (GroupListing.own g).*1 ->
  NoDup (GroupListing.own (GroupListing.assign g key s)).*1.
Proof.
  intros Hnodup. unfold GroupListing.assign.
  destruct (GroupListing.own_property key (GroupListing.own g)) eqn:Hown;
    cbn [GroupListing.own].
  - by rewrite overwrite_keys.
  - destruct (bool_decide (key = "__proto__") && negb _);
      cbn [GroupListing.own]; [done|].
    rewrite fmap_app. simpl. apply NoDup_app. split; [done|].
    split; [|apply NoDup_singleton].
    intros k Hk ->%list_elem_of_singleton.
    by apply own_property_None in Hown.
Qed.

Lemma forEach_invariant_in {S A : Type} (I : S -> Prop)
    (f : S -> A -> option S) (xs : list A) (st st' : S) :
  (∀ a x b, x ∈ xs -> I a -> f a x = Some b -> I b) ->
  I st -> Arr.forEach f xs st = Some st' -> I st'.
Proof.
  revert st. induction xs as [|x xs IH]; intros st Hstep Hst; simpl.
  - by intros [= <-].
  - destruct (f st x) as [st1|] eqn:Hf; [|done]. apply IH.
    + intros a y b Hy. apply Hstep. by apply list_elem_of_further.
    + eapply Hstep; [apply list_elem_of_here | done | done].
Qed.

(** What [submissionGroups] holds after the scan: every property once,
    each holding a stored submission under the key of that submission. *)
Lemma grouped_keys group (submissions : list obj) g :
  GroupListing.grouped group submissions = Some g ->
  NoDup (GroupListing.own g).*1
  ∧ ∀ key s, (key, s) ∈ GroupListing.own g ->
      s ∈ submissions ∧ GroupListing.group_key s = Some key.
Proof.
  unfold GroupListing.grouped.
  apply (forEach_invariant_in
           (fun g => NoDup (GroupListing.own g).*1
                     ∧ ∀ key s, (key, s) ∈ GroupListing.own g ->
                         s ∈ submissions
                         ∧ GroupListing.group_key s = Some key)).
  - intros g0 s g1 Hs [Hnodup Hinv]. unfold GroupListing.visit.
    destruct (GroupListing.cases_to_scan s) as [[cases|]|];
      cbn [mbind option_bind]; [| by intros [= <-] | done].
    destruct (GroupListing.some (GroupListing.in_group group) cases)
      as [[|]|]; [| by intros [= <-] | done].
    destruct (GroupListing.group_key s) as [key0|] eqn:Hkey;
      cbn [mbind option_bind]; [|done].
    destruct (negb _ || _); [|by intros [= <-]].
    intros [= <-]. split; [by apply assign_keys_NoDup|].
    intros key s' Hin.
    apply assign_elem in Hin as [Hin|[= -> ->]]; [by apply Hinv | done].
  - simpl. split; [apply NoDup_nil_2|]. by intros key s ?%elem_of_nil.
Qed.

Lemma listed_entries_NoDup group (submissions : list obj) g :
  GroupListing.grouped group submissions = Some g ->
  NoDup (listed_entries g).*1.
Proof.
  intros [Hnodup _]%grouped_keys. by rewrite listed_entries_perm.
Qed.

(** Overwriting a key that is no array index changes one of the
    properties that [Object.entries] lists after the indexed ones, in
    place. *)
Lemma overwrite_listed key s (props : list (string * obj)) (old : obj) :
  GroupListing.array_index key = None ->
  GroupListing.own_property key props = Some old ->
  omap (fun kv => match GroupListing.array_index kv.1 with
                  | Some n => Some (n, kv)
                  | None => None
                  end) (GroupListing.overwrite key s props)
  = omap (fun kv => match GroupListing.array_index kv.1 with
                    | Some n => Some (n, kv)
                    | None => None
                    end) props
  ∧ ∃ j,
      omap (fun kv => match GroupListing.array_index kv.1 with
                      | Some _ => None
                      | None => Some kv
                      end) props !! j = Some (key, old)
      ∧ omap (fun kv => match GroupListing.array_index kv.1 with
                        | Some _ => None
                        | None => Some kv
                        end) (GroupListing.overwrite key s props)
        = <[j := (key, s)]>
            (omap (fun kv => match GroupListing.array_index kv.1 with
                             | Some _ => None
                             | None => Some kv
                             end) props).
Proof.
  intros Hkey Hold. split.
  - clear Hold. unfold omap.
    induction props as [|[k v] props IH]; simpl; [done|].
    case_bool_decide as Hk.
    + subst k. simpl. by rewrite Hkey.
    + simpl. by rewrite IH.
  - revert Hold. unfold omap.
    induction props as [|[k v] props IH]; simpl; [done|].
    case_bool_decide as Hk.
    + subst k. intros [= ->]. simpl. rewrite Hkey. by exists 0.
    + intros Hold. destruct (IH Hold) as (j & Hj & Hstr). simpl.
      destruct (GroupListing.array_index k).
      * by exists j.
      * exists (S j). simpl. by rewrite Hstr.
Qed.

Lemma assign_listed g key s :
  key ≠ "__proto__" ->
  GroupListing.array_index key = None ->
  match GroupListing.own_property key (GroupListing.own g) with
  | Some old =>
      ∃ i, listed_entries g !! i = Some (key, old)
           ∧ listed_entries (GroupListing.assign g key s)
             = <[i := (key, s)]> (listed_entries g)
  | None =>
      listed_entries (GroupListing.assign g key s)
      = listed_entries g ++ [(key, s)]
  end.
Proof.
  intros Hproto Hindex. unfold GroupListing.assign.
  destruct (GroupListing.own_property key (GroupListing.own g))
    as [old|] eqn:Hown.
  - destruct (overwrite_listed key s _ old Hindex Hown)
      as [Hidx (j & Hj & Hstr)].
    unfold listed_entries. simpl. rewrite Hidx, Hstr.
    set (front := snd <$> foldr GroupListing.insert_sorted [] _).
    exists (length front + j). split.
    + rewrite lookup_app_r by lia.
      by replace (length front + j - length front) with j by lia.
    + by rewrite insert_app_r.
  - rewrite (bool_decide_eq_false_2 (key = "__proto__")) by done. simpl.
    unfold listed_entries. simpl.
    rewrite !omap_app. simpl. rewrite Hindex. simpl.
    by rewrite !app_nil_r, app_assoc.
Qed.

(** A flagged record with a string [originalSubmissionId] and a case of
    the group, visited after the others: its entry replaces, in place, the
    one grouped under that id, or is added at the end. *)
Lemma listing_with_edit (group : string) (store : list obj)
    (e : obj) (id : string) (cases : list json)
    (g : GroupListing.groups) (data : list obj) :
  ToBoolean (e !! "isEditedVersion") = true ->
  e !! "originalSubmissionId" = Some (JStr id) ->
  id ≠ "" -> id ≠ "__proto__" -> GroupListing.array_index id = None ->
  e !! "cases" = Some (JArr cases) ->
  JNull ∉ cases ->
  (∃ fields, JObj fields ∈ cases ∧ fields !! "group" = Some (JStr group)) ->
  GroupListing.grouped group store = Some g ->
  mapM (GroupListing.entry group) (GroupListing.values g) = Some data ->
  ∃ item data',
    GroupListing.entry group e = Some item
    ∧ item !! "isEditedVersion" = e !! "isEditedVersion"
    ∧ item !! "originalSubmissionId" = Some (JStr id)
    ∧ GroupListing.grouped group (store ++ [e])
      = Some (GroupListing.assign g id e)
    ∧ mapM (GroupListing.entry group)
           (GroupListing.values (GroupListing.assign g id e)) = Some data'
    ∧ match GroupListing.own_property id (GroupListing.own g) with
      | Some old =>
          ∃ i oldItem,
            listed_entries g !! i = Some (id, old)
            ∧ GroupListing.entry group old = Some oldItem
            ∧ data !! i = Some oldItem
            ∧ data' = <[i := item]> data
      | None => data' = data ++ [item]
      end.
Proof.
  intros Hflag Hid Hnonempty Hproto Hindex Hcases Hnonull Hhit Hrun Hmap.
  assert (Hdefined : Forall (fun c => is_Some (GroupListing.in_group group c))
                            cases).
  { apply Forall_forall. intros c Hc. unfold GroupListing.in_group.
    destruct c; simpl; first [exfalso; by apply Hnonull | by eexists]. }
  assert (Hsome : GroupListing.some (GroupListing.in_group group) cases
                  = Some true).
  { apply some_hit; [done|]. destruct Hhit as (fields & Hin & Hg).
    exists (JObj fields). split; [done|].
    unfold GroupListing.in_group. simpl. rewrite Hg. simpl.
    by rewrite bool_decide_eq_true_2. }
  destruct (filter_total _ _ Hdefined) as [filteredCases Hfilter].
  assert (Hentry : ∃ item, GroupListing.entry group e = Some item
            ∧ item !! "isEditedVersion" = e !! "isEditedVersion"
            ∧ item !! "originalSubmissionId" = Some (JStr id)).
  { unfold GroupListing.entry. rewrite Hcases, Hfilter.
    cbn [mbind option_bind]. eexists. split; [done|].
    unfold object_literal. cbn [foldl].
    split.
    - rewrite !lookup_field_ne, lookup_field by done.
      unfold or_else. rewrite Hflag.
      by destruct (e !! "isEditedVersion").
    - rewrite !lookup_field_ne, lookup_field by done.
      rewrite Hid. unfold or_else. simpl.
      by rewrite bool_decide_eq_false_2. }
  destruct Hentry as (item & Hitem & Hitem_flag & Hitem_id).
  exists item.
  assert (Hvisit : GroupListing.grouped group (store ++ [e])
                   = Some (GroupListing.assign g id e)).
  { unfold GroupListing.grouped in *. rewrite forEach_app, Hrun. simpl.
    unfold GroupListing.visit, GroupListing.cases_to_scan.
    rewrite Hcases.
    destruct cases as [|c cs].
    { destruct Hhit as (? & ?%elem_of_nil & _). done. }
    cbn [mbind option_bind]. rewrite Hsome.
    unfold GroupListing.group_key. rewrite Hflag, Hid. simpl.
    rewrite bool_decide_eq_false_2 by done. simpl.
    by rewrite orb_true_r. }
  apply mapM_Some in Hmap. rewrite values_listed in Hmap.
  pose proof (assign_listed g id e Hproto Hindex) as Hlisted.
  destruct (GroupListing.own_property id (GroupListing.own g))
    as [old|] eqn:Hown.
  - destruct Hlisted as (i & Hi & Hnew).
    assert (Hold : (listed_entries g).*2 !! i = Some old).
    { by rewrite list_lookup_fmap, Hi. }
    destruct (Forall2_lookup_l _ _ _ _ _ Hmap Hold)
      as (oldItem & HoldItem & Hentry).
    exists (<[i := item]> data).
    do 4 (split; [done|]). split.
    + apply mapM_Some. rewrite values_listed, Hnew, list_fmap_insert.
      simpl. by apply Forall2_insert.
    + by exists i, oldItem.
  - exists (data ++ [item]).
    do 4 (split; [done|]). split; [|done].
    apply mapM_Some. rewrite values_listed, Hlisted, fmap_app. simpl.
    apply Forall2_app; [done|]. by apply Forall2_cons.
Qed.

(** The two steps of the route that can fail. *)
Lemma group_listing_run (group : string) (f : file) data n :
  GroupListing.group_submissions (Some group) f = GroupListing.Listing data n ->
  group ≠ "" ∧ n = length data
  ∧ ∃ g, GroupListing.grouped group (loadFocusGroupSubmissions f) = Some g
         ∧ mapM (GroupListing.entry group) (GroupListing.values g) = Some data.
Proof.
  unfold GroupListing.group_submissions.
  destruct (Str.truthy group) eqn:Hgroup; simpl; [|done].
  destruct (GroupListing.grouped group (loadFocusGroupSubmissions f))
    as [g|]; [|done].
  destruct (mapM (GroupListing.entry group) (GroupListing.values g))
    as [data0|] eqn:Hmap; [|done].
  intros [= <- <-]. split.
  { unfold Str.truthy in Hgroup. apply negb_true_iff in Hgroup.
    by apply bool_decide_eq_false in Hgroup. }
  split; [done|]. by exists g.
Qed.

Lemma group_listing_of (group : string) (store : list obj) g data :
  group ≠ "" ->
  GroupListing.grouped group store = Some g ->
  mapM (GroupListing.entry group) (GroupListing.values g) = Some data ->
  GroupListing.group_submissions (Some group) (Some store)
  = GroupListing.Listing data (length data).
Proof.
  intros Hgroup Hrun Hmap. unfold GroupListing.group_submissions.
  unfold Str.truthy. rewrite bool_decide_eq_false_2 by done. simpl.
  by rewrite Hrun, Hmap.
Qed.

(** The listing is made entry by entry from what [submissionGroups]
    holds, in the order of [Object.entries]. *)
Lemma listing_by_entries (group : string) g (data : list obj) :
  mapM (GroupListing.entry group) (GroupListing.values g) = Some data ->
  Forall2 (fun kv listed => GroupListing.entry group kv.2 = Some listed)
          (listed_entries g) data.
Proof.
  intros Hmap%mapM_Some. rewrite values_listed in Hmap.
  by apply Forall2_fmap_l in Hmap.
Qed.

(** X21. An edited version takes precedence.  Take a record flagged as
    edited, with a string [originalSubmissionId] that is not empty, is no
    array index and is not ["__proto__"] (no identity key is any of these),
    and with [cases] that hold no [null] and hold a case of the group.
    When it is added to a collection that the route can list, the route
    lists the new collection too, and the new listing is the old one with
    the entry of the new record either in the place of the entry made
    from the property of [submissionGroups] named by that id, or, when
    there is no such property, added at the end; all other entries stay
    as they were.  The property replaced held a stored record grouped
    under that id, and no other property has that name. *)
Theorem edited_version_takes_precedence (group : string) (f : file)
    (e : obj) (id : string) (cases : list json)
    (data : list obj) (n : nat)
    (Hflag : ToBoolean (e !! "isEditedVersion") = true)
    (Hid : e !! "originalSubmissionId" = Some (JStr id))
    (Hnonempty : id ≠ "")
    (Hproto : id ≠ "__proto__")
    (Hindex : GroupListing.array_index id = None)
    (Hcases : e !! "cases" = Some (JArr cases))
    (Hnonull : JNull ∉ cases)
    (Hhit : ∃ fields, JObj fields ∈ cases
                      ∧ fields !! "group" = Some (JStr group))
    (Hbefore : GroupListing.group_submissions (Some group) f
               = GroupListing.Listing data n) :
  ∃ item data' g,
    GroupListing.entry group e = Some item
    ∧ item !! "isEditedVersion" = e !! "isEditedVersion"
    ∧ item !! "originalSubmissionId" = Some (JStr id)
    ∧ GroupListing.grouped group (loadFocusGroupSubmissions f) = Some g
    ∧ Forall2 (fun kv listed => GroupListing.entry group kv.2 = Some listed)
              (listed_entries g) data
    ∧ NoDup (listed_entries g).*1
    ∧ GroupListing.group_submissions (Some group)
        (Some (loadFocusGroupSubmissions f ++ [e]))
      = GroupListing.Listing data' (length data')
    ∧ ((∃ i old,
          listed_entries g !! i = Some (id, old)
          ∧ old ∈ loadFocusGroupSubmissions f
          ∧ GroupListing.group_key old = Some id
          ∧ data' = <[i := item]> data)
       ∨ ((id ∉ (listed_entries g).*1) ∧ data' = data ++ [item])).
Proof.
  destruct (group_listing_run _ _ _ _ Hbefore)
    as (Hgroup & _ & g & Hrun & Hmap).
  destruct (listing_with_edit group _ e id cases g data Hflag Hid Hnonempty
              Hproto Hindex Hcases Hnonull Hhit Hrun Hmap)
    as (item & data' & Hitem & Hf & Hi & Hrun' & Hmap' & Hshape).
  destruct (grouped_keys _ _ _ Hrun) as [Hnodup Hkeys].
  exists item, data', g. do 4 (split; [done|]).
  split; [by apply listing_by_entries|].
  split; [by rewrite listed_entries_perm|].
  split; [by apply (group_listing_of _ _ _ _ Hgroup Hrun' Hmap')|].
  destruct (GroupListing.own_property id (GroupListing.own g))
    as [old|] eqn:Hown.
  - left. destruct Hshape as (i & oldItem & Hlisted & _ & _ & ->).
    exists i, old. split; [done|].
    destruct (Hkeys id old) as [Hin Hkey]; [|done].
    by apply own_property_elem.
  - right. split; [|done]. rewrite listed_entries_perm.
    by apply own_property_None.
Qed.

Lemma has_pipe_app (a b : string) :
  has_pipe (a +:+ b) = has_pipe a || has_pipe b.
Proof.
  induction a as [|c a IH]; simpl; [done|]. by rewrite IH, orb_assoc.
Qed.

Lemma identityKey_has_pipe (s : obj) key :
  identityKey s = Some key -> has_pipe key = true.
Proof.
  unfold identityKey.
  destruct (template (s !! "username")) as [u|]; [|done].
  destruct (template (s !! "email")) as [m|]; [|done].
  destruct (template (s !! "submittedAt")) as [t|]; [|done].
  cbn [mbind option_bind]. intros [= <-].
  rewrite !has_pipe_app. simpl. by rewrite orb_true_r.
Qed.

Lemma digits_pipe (text : string) (acc : N) :
  has_pipe text = true -> GroupListing.digits text acc = None.
Proof.
  revert acc. induction text as [|c rest IH]; intros acc; simpl; [done|].
  destruct (Ascii.N_of_ascii c =? 124)%N eqn:Hc; simpl.
  - intros _. apply N.eqb_eq in Hc. by rewrite Hc.
  - intros Hrest. destruct (_ && _); [by apply IH | done].
Qed.

(** An identity key is no array index and no property of
    [Object.prototype]. *)
Lemma pipe_key (key : string) :
  has_pipe key = true ->
  key ≠ "" ∧ key ≠ "__proto__"
  ∧ GroupListing.array_index key = None
  ∧ bool_decide (key ∈ GroupListing.Object_prototype) = false.
Proof.
  intros Hpipe. split; [by intros ->|]. split; [by intros ->|]. split.
  - unfold GroupListing.array_index. destruct key as [|c rest]; [done|].
    destruct (_ && _); [done|]. by rewrite digits_pipe.
  - apply bool_decide_eq_false. unfold GroupListing.Object_prototype.
    rewrite !elem_of_cons, elem_of_nil.
    intros Hin. repeat (destruct Hin as [->|Hin]; [done|]). done.
Qed.

Lemma forEach_visits_in {S A : Type} (I : S -> Prop) (R : S -> S -> Prop)
    (f : S -> A -> option S) (xs : list A) (x : A) (st st' : S) :
  (∀ a : S, R a a) -> (∀ a b c : S, R a b -> R b c -> R a c) ->
  (∀ (a : S) (y : A) (b : S),
     y ∈ xs -> I a -> f a y = Some b -> I b ∧ R a b) ->
  x ∈ xs -> I st -> Arr.forEach f xs st = Some st' ->
  ∃ st1 st2, I st1 ∧ f st1 x = Some st2 ∧ R st2 st'.
Proof.
  intros Hrefl Htrans. revert st.
  induction xs as [|y xs IH]; intros st Hstep Hx Hst; simpl.
  - by apply elem_of_nil in Hx.
  - destruct (f st y) as [st1|] eqn:Hf; [|done]. intros Hrest.
    destruct (Hstep st y st1 (list_elem_of_here _ _) Hst Hf) as [Hst1 HR1].
    assert (Hstep' : ∀ (a : S) (z : A) (b : S),
              z ∈ xs -> I a -> f a z = Some b -> I b ∧ R a b).
    { intros ? ? ? Hz. apply Hstep. by apply list_elem_of_further. }
    apply elem_of_cons in Hx as [->|Hx].
    + exists st, st1. split; [done|]. split; [done|].
      clear IH Hf HR1 Hst Hstep. revert st1 Hst1 Hrest.
      induction xs as [|z xs IH]; intros st1 Hst1; simpl.
      * by intros [= <-].
      * destruct (f st1 z) as [st2|] eqn:Hz; [|done]. intros Hrest.
        destruct (Hstep' st1 z st2 (list_elem_of_here _ _) Hst1 Hz)
          as [Hst2 HR2].
        apply (Htrans st1 st2 st'); [done|]. apply IH; [|done|done].
        intros ? ? ? Hy. apply Hstep'. by apply list_elem_of_further.
    + by apply (IH st1).
Qed.

Lemma own_property_overwrite key s key' (props : list (string * obj)) :
  is_Some (GroupListing.own_property key' props) ->
  is_Some (GroupListing.own_property key'
             (GroupListing.overwrite key s props)).
Proof.
  induction props as [|[k v] props IH]; simpl; [done|].
  case_bool_decide as Hk'; case_bool_decide as Hk; simpl.
  - intros _. by rewrite bool_decide_eq_true_2.
  - intros _. by rewrite bool_decide_eq_true_2.
  - rewrite bool_decide_eq_false_2 by done. done.
  - rewrite bool_decide_eq_false_2 by done. done.
Qed.

Lemma own_property_app key (props more : list (string * obj)) :
  GroupListing.own_property key (props ++ more)
  = match GroupListing.own_property key props with
    | Some v => Some v
    | None => GroupListing.own_property key more
    end.
Proof.
  induction props as [|[k v] props IH]; simpl; [done|].
  by case_bool_decide.
Qed.

(** While no key is ["__proto__"], the prototype stays [Object.prototype]
    and no own key is lost. *)
Lemma visit_keeps_keys group g s g' :
  GroupListing.group_key s ≠ Some "__proto__" ->
  GroupListing.proto g = None ->
  GroupListing.visit group g s = Some g' ->
  GroupListing.proto g' = None ∧ keeps_keys g g'.
Proof.
  intros Hkey Hproto. unfold GroupListing.visit.
  assert (Hsame : Some g = Some g' ->
                  GroupListing.proto g' = None ∧ keeps_keys g g').
  { intros [= <-]. split; [done|]. by intros key H. }
  destruct (GroupListing.cases_to_scan s) as [[cases|]|];
    cbn [mbind option_bind]; [| done | done].
  destruct (GroupListing.some (GroupListing.in_group group) cases)
    as [[|]|]; [| done | done].
  destruct (GroupListing.group_key s) as [key0|];
    cbn [mbind option_bind]; [|done].
  destruct (negb _ || _); [|done].
  clear Hsame. intros [= <-]. unfold GroupListing.assign.
  destruct (GroupListing.own_property key0 (GroupListing.own g)) eqn:Hown;
    simpl.
  - split; [done|]. intros key. simpl. apply own_property_overwrite.
  - rewrite (bool_decide_eq_false_2 (_ = "__proto__")) by congruence. simpl.
    split; [done|]. intros key [v Hv]. simpl.
    rewrite own_property_app, Hv. by eexists.
Qed.

(** X22. An edited version hides its original.  Let the collection hold
    an unflagged submission with an identity key and a case of the group,
    let no stored record be grouped under the name ["__proto__"], and let
    the route list the collection.  When a record flagged as edited is
    added whose [originalSubmissionId] is that identity key and whose
    [cases] hold no [null] and hold a case of the group, the listing keeps
    its length, and the entry of the edited version stands where the
    entry made from the property of [submissionGroups] named by that key
    stood; that property held a stored record grouped under the key, and no
    other property has that name. *)
Theorem edited_version_hides_original (group : string) (f : file)
    (o e : obj) (key : string) (cases : list json) (data : list obj)
    (n : nat)
    (Ho : o ∈ loadFocusGroupSubmissions f)
    (Hplain : ToBoolean (o !! "isEditedVersion") = false)
    (Hohit : hits_group group o)
    (Hkey : identityKey o = Some key)
    (Hflag : ToBoolean (e !! "isEditedVersion") = true)
    (Hid : e !! "originalSubmissionId" = Some (JStr key))
    (Hcases : e !! "cases" = Some (JArr cases))
    (Hnonull : JNull ∉ cases)
    (Hhit : ∃ fields, JObj fields ∈ cases
                      ∧ fields !! "group" = Some (JStr group))
    (Hnoproto : ∀ s, s ∈ loadFocusGroupSubmissions f ->
                  GroupListing.group_key s ≠ Some "__proto__")
    (Hbefore : GroupListing.group_submissions (Some group) f
               = GroupListing.Listing data n) :
  ∃ item i old g,
    GroupListing.entry group e = Some item
    ∧ item !! "originalSubmissionId" = Some (JStr key)
    ∧ GroupListing.grouped group (loadFocusGroupSubmissions f) = Some g
    ∧ Forall2 (fun kv listed => GroupListing.entry group kv.2 = Some listed)
              (listed_entries g) data
    ∧ NoDup (listed_entries g).*1
    ∧ listed_entries g !! i = Some (key, old)
    ∧ old ∈ loadFocusGroupSubmissions f
    ∧ GroupListing.group_key old = Some key
    ∧ GroupListing.group_submissions (Some group)
        (Some (loadFocusGroupSubmissions f ++ [e]))
      = GroupListing.Listing (<[i := item]> data) (length data).
Proof.
  destruct (group_listing_run _ _ _ _ Hbefore)
    as (Hgroup & _ & g & Hrun & Hmap).
  destruct (pipe_key _ (identityKey_has_pipe o key Hkey))
    as (Hnonempty & Hproto & Hindex & Hnative).
  assert (Hown : is_Some (GroupListing.own_property key
                            (GroupListing.own g))).
  { destruct (forEach_visits_in
                (fun g => GroupListing.proto g = None) keeps_keys
                (GroupListing.visit group) (loadFocusGroupSubmissions f) o
                {| GroupListing.own := []; GroupListing.proto := None |} g
                (fun g key H => H)
                (fun a b c Hab Hbc key H => Hbc key (Hab key H))
                (fun g s g' Hs Hg Hv =>
                   visit_keeps_keys group g s g' (Hnoproto s Hs) Hg Hv)
                Ho eq_refl Hrun)
      as (g1 & g2 & Hproto1 & Hvisit & Hkeeps).
    apply Hkeeps. clear Hkeeps.
    destruct Hohit as (ocases & Hocases & Hosome).
    unfold GroupListing.visit, GroupListing.cases_to_scan in Hvisit.
    rewrite Hocases in Hvisit.
    destruct ocases as [|c cs]; [done|].
    cbn [mbind option_bind] in Hvisit. rewrite Hosome in Hvisit.
    assert (Hgkey : GroupListing.group_key o = Some key).
    { unfold GroupListing.group_key. by rewrite Hplain. }
    rewrite Hgkey in Hvisit. cbn [mbind option_bind] in Hvisit.
    rewrite Hplain, orb_false_r in Hvisit.
    unfold GroupListing.holds in Hvisit. rewrite Hproto1, Hnative in Hvisit.
    destruct (GroupListing.own_property key (GroupListing.own g1))
      as [v|] eqn:Hown1; simpl in Hvisit.
    - injection Hvisit as <-. by eexists.
    - injection Hvisit as <-. unfold GroupListing.assign.
      rewrite Hown1, (bool_decide_eq_false_2 (_ = "__proto__")) by done.
      simpl. rewrite own_property_app, Hown1. simpl.
      rewrite bool_decide_eq_true_2 by done. by eexists. }
  destruct (listing_with_edit group _ e key cases g data Hflag Hid
              Hnonempty Hproto Hindex Hcases Hnonull Hhit Hrun Hmap)
    as (item & data' & Hitem & _ & Hi & Hrun' & Hmap' & Hshape).
  destruct (grouped_keys _ _ _ Hrun) as [Hnodup Hkeys].
  destruct Hown as [old Hold]. rewrite Hold in Hshape.
  destruct Hshape as (i & oldItem & Hlisted & _ & _ & ->).
  exists item, i, old, g. do 3 (split; [done|]).
  split; [by apply listing_by_entries|].
  split; [by rewrite listed_entries_perm|].
  split; [done|].
  destruct (Hkeys key old) as [Hin Hgk]; [by apply own_property_elem|].
  do 2 (split; [done|]).
  rewrite (group_listing_of _ _ _ _ Hgroup Hrun' Hmap').
  by rewrite length_insert.
Qed.

End Listing.

(** A submission of the group without an identity key: the template
    literal that makes its key throws and the listing ends with 500. *)
Example unkeyed_listing :
  GroupListing.group_submissions (Some "G1")
    (Some [Sample.alice; MoreSamples.unkeyed_grouped])
  = GroupListing.ServerError.
Proof. vm_compute. reflexivity. Qed.

(** ** The further properties on sample data *)

Section MoreWitnesses.

Lemma post_case_study_creates_witness :
  ∃ newSubmission,
    CaseStudyRoutes.reply
      (CaseStudyRoutes.post_case_study "1700000000002" Sample.first_clock
         MoreSamples.study_body (Some [Sample.study]))
      = CaseStudyRoutes.Created newSubmission
    ∧ newSubmission !! "id" = Some (JStr "1700000000002")
    ∧ newSubmission !! "status" = Some (JStr "pending")
    ∧ newSubmission !! "reviewed" = Some (JBool false).
Proof.
  destruct (post_case_study_creates "1700000000002" Sample.first_clock
              MoreSamples.study_body (Some [Sample.study]))
    as (newSubmission & Hreply & _ & Hid & Hstatus & Hreviewed & _).
  - reflexivity.
  - reflexivity.
  - exists newSubmission. repeat split; assumption.
Defined.

Lemma put_case_study_locks_witness :
  CaseStudies.reply
    (CaseStudies.put_case_study Sample.second_clock "1700000000000"
       Sample.study_update
       (CaseStudies.file_after
          (CaseStudies.put_case_study Sample.first_clock "1700000000000"
             MoreSamples.approval (Some [Sample.study]))))
  = CaseStudies.Forbidden.
Proof.
  destruct (put_case_study_locks Sample.first_clock "1700000000000"
              MoreSamples.approval (Some [Sample.study])
              (<["updatedAt" := JStr "2024-02-01T10:00:00.000Z"]>
                 (<["status" := JStr "approved"]> Sample.study))
              (JStr "approved")) as [_ Hlocked].
  - vm_compute. reflexivity.
  - reflexivity.
  - reflexivity.
  - rewrite (Hlocked Sample.second_clock Sample.study_update). reflexivity.
Defined.

Lemma post_then_put_or_delete_witness :
  CaseStudyRoutes.delete_case_study "1700000000002"
    (CaseStudyRoutes.file_after
       (CaseStudyRoutes.post_case_study "1700000000002" Sample.first_clock
          MoreSamples.study_body (Some [Sample.study])))
  = {| CaseStudyRoutes.file_after := Some [Sample.study];
       CaseStudyRoutes.reply := CaseStudyRoutes.Deleted |}.
Proof.
  destruct (post_then_put_or_delete "1700000000002" Sample.first_clock
              MoreSamples.study_body (Some [Sample.study])
              Sample.second_clock Sample.study_update) as [_ Hdelete].
  - reflexivity.
  - reflexivity.
  - intros s Hs. apply list_elem_of_singleton in Hs as ->.
    vm_compute. reflexivity.
  - exact Hdelete.
Defined.

Lemma get_case_studies_by_user_witness :
  CaseStudyRoutes.count
    (CaseStudyRoutes.get_case_studies (Some "a@x.com")
       (Some [Sample.study; MoreSamples.alice_study]))
  = length (CaseStudyRoutes.data
              (CaseStudyRoutes.get_case_studies (Some "a@x.com")
                 (Some [Sample.study; MoreSamples.alice_study]))).
Proof.
  destruct (get_case_studies_by_user "a@x.com"
              (Some [Sample.study; MoreSamples.alice_study])
              "1700000000002" Sample.first_clock MoreSamples.study_body)
    as (_ & _ & Hcount & _).
  - discriminate.
  - exact Hcount.
Defined.

Lemma edit_updates_edited_in_place_witness :
  ∃ v, reply (save_edited_submission Sample.second_clock
                MoreSamples.third_edit
                (Some [Sample.alice; Sample.alice_edited])) = Saved v false.
Proof.
  destruct (edit_updates_edited_in_place Sample.second_clock
              MoreSamples.third_edit [Sample.alice; Sample.alice_edited])
    as (i & edited & _ & _ & _ & _ & _ & _ & Hreply).
  - vm_compute. discriminate.
  - intros sub Hsub. apply elem_of_cons in Hsub as [->|Hsub].
    + vm_compute. reflexivity.
    + apply list_elem_of_singleton in Hsub as ->. vm_compute. reflexivity.
  - exists Sample.alice_edited.
    split; [apply list_elem_of_further, list_elem_of_here|].
    vm_compute. reflexivity.
  - eexists. exact Hreply.
Defined.

Lemma posted_submission_can_be_edited_witness :
  FocusGroup.post_focus_group Sample.alice None = Some [Sample.alice]
  ∧ ∃ v isNewVersion,
      reply (save_edited_submission Sample.first_clock Sample.first_edit
               (FocusGroup.post_focus_group Sample.alice None))
      = Saved v isNewVersion.
Proof.
  destruct (posted_submission_can_be_edited Sample.alice None
              Sample.first_clock Sample.first_edit
              "alice" "a@x.com" "2024-01-01T00:00:00Z")
    as (Hposted & Hreply & _).
  - reflexivity.
  - reflexivity.
  - reflexivity.
  - reflexivity.
  - intros sub Hsub. by apply elem_of_nil in Hsub.
  - intros v Hv _. vm_compute in Hv. injection Hv as <-. by eexists.
  - split; [exact Hposted | exact Hreply].
Defined.

Lemma value_history_distinct_witness :
  same_value_zero (JStr "Fairness") (JStr "Care") = false
  ∧ ToBoolean (Some (JStr "Fairness")) = true.
Proof.
  apply (value_history_distinct "a@x.com" (Some [Sample.alice])
           (Some [MoreSamples.alice_study]) 0 1
           {| History.value := JStr "Fairness";
              History.definition := JStr "equal treatment";
              History.source := "focus-group";
              History.submissionDate := Some (JStr "2024-01-01T00:00:00Z") |}
           {| History.value := JStr "Care";
              History.definition := JStr "";
              History.source := "individual";
              History.submissionDate := Some (JStr "2024-01-05T00:00:00Z") |}).
  - lia.
  - vm_compute. reflexivity.
  - vm_compute. reflexivity.
Defined.

Lemma value_history_first_seen_witness :
  ∃ entry,
    entry ∈ History.entries
              (ValueHistory.user_value_history "a@x.com" (Some [Sample.alice])
                 (Some [MoreSamples.alice_study]))
    ∧ History.value entry = JStr "Fairness"
    ∧ History.source entry = "focus-group".
Proof.
  destruct (ValueHistory.user_value_history "a@x.com" (Some [Sample.alice])
              (Some [MoreSamples.alice_study]))
    as [data n b|] eqn:Hreport; [|vm_compute in Hreport; discriminate].
  refine (value_history_first_seen "a@x.com" (Some [Sample.alice])
            (Some [MoreSamples.alice_study]) data n b Sample.alice
            {[ "group" := JStr "G1";
               "values" := JArr
                 [ JObj {[ "value" := JStr "Fairness";
                           "definition" := JStr "equal treatment" ]} ];
               "tensions" := JArr
                 [ JObj {[ "value" := JStr "Privacy vs. Transparency";
                           "definition" := JStr "predefined" ]};
                   JObj {[ "value" := JStr "Speed vs. Care";
                           "definition" := JStr "custom" ]};
                   JObj {[ "value" := JStr "Privacy vs. Transparency" ]} ] ]}
            {[ "value" := JStr "Fairness";
               "definition" := JStr "equal treatment" ]}
            _ _ "Fairness" Hreport _ _ _ _ _ _ _ _).
  - apply list_elem_of_here.
  - reflexivity.
  - reflexivity.
  - apply list_elem_of_here.
  - reflexivity.
  - apply list_elem_of_here.
  - reflexivity.
  - discriminate.
Defined.

Lemma tension_history_distinct_witness :
  same_value_zero (JStr "Speed vs. Care") (JStr "Cost vs. Reach") = false
  ∧ ToBoolean (Some (JStr "Speed vs. Care")) = true.
Proof.
  destruct (tension_history_distinct "a@x.com" (Some [Sample.alice])
           (Some [MoreSamples.alice_study]) 0 1
           {| History.value := JStr "Speed vs. Care";
              History.definition := JStr "custom";
              History.source := "focus-group";
              History.submissionDate := Some (JStr "2024-01-01T00:00:00Z") |}
           {| History.value := JStr "Cost vs. Reach";
              History.definition := JStr "";
              History.source := "individual";
              History.submissionDate := Some (JStr "2024-01-05T00:00:00Z") |})
    as (Hdiff & Htruthy & _).
  - lia.
  - vm_compute. reflexivity.
  - vm_compute. reflexivity.
  - split; [exact Hdiff | exact Htruthy].
Defined.





Lemma group_listing_cases_witness :
  ∃ item name cases,
    item ∈ GroupListing.listed
             (GroupListing.group_submissions (Some "G1")
                (Some [Sample.alice]))
    ∧ name = "G1"
    ∧ item !! "cases" = Some (JArr cases)
    ∧ length cases = 1.
Proof.
  destruct (GroupListing.listed
              (GroupListing.group_submissions (Some "G1")
                 (Some [Sample.alice]))) as [|item rest] eqn:Hlisted;
    [vm_compute in Hlisted; discriminate|].
  assert (Hin : item ∈ GroupListing.listed
                         (GroupListing.group_submissions (Some "G1")
                            (Some [Sample.alice]))).
  { rewrite Hlisted. apply list_elem_of_here. }
  destruct (group_listing_cases (Some "G1") (Some [Sample.alice]) item Hin)
    as (name & cases & Hname & _ & Hcases & _ & _ & _).
  exists item, name, cases.
  split; [apply list_elem_of_here|]. split; [by injection Hname as <-|].
  split; [exact Hcases|].
  vm_compute in Hlisted. injection Hlisted as <- _.
  vm_compute in Hcases. injection Hcases as <-. reflexivity.
Defined.

Lemma edited_version_takes_precedence_witness :
  ∃ item data',
    GroupListing.entry "G1" MoreSamples.alice_regrouped = Some item
    ∧ GroupListing.group_submissions (Some "G1")
        (Some [Sample.alice; MoreSamples.alice_regrouped])
      = GroupListing.Listing data' (length data').
Proof.
  destruct (GroupListing.group_submissions (Some "G1") (Some [Sample.alice]))
    as [data n| |] eqn:Hbefore; try (vm_compute in Hbefore; discriminate).
  destruct (edited_version_takes_precedence "G1" (Some [Sample.alice])
              MoreSamples.alice_regrouped Sample.alice_key
              [JObj {[ "group" := JStr "G1" ]}] data n)
    as (item & data' & g & Hitem & _ & _ & _ & _ & _ & Hafter & _).
  - reflexivity.
  - reflexivity.
  - discriminate.
  - discriminate.
  - vm_compute. reflexivity.
  - reflexivity.
  - intros Hnull. apply list_elem_of_singleton in Hnull. discriminate.
  - eexists. split; [apply list_elem_of_here | reflexivity].
  - exact Hbefore.
  - exists item, data'. split; [exact Hitem | exact Hafter].
Defined.

Lemma edited_version_hides_original_witness :
  ∃ data',
    GroupListing.group_submissions (Some "G1")
      (Some [Sample.alice; MoreSamples.alice_regrouped])
    = GroupListing.Listing data' 1.
Proof.
  destruct (GroupListing.group_submissions (Some "G1") (Some [Sample.alice]))
    as [data n| |] eqn:Hbefore; try (vm_compute in Hbefore; discriminate).
  assert (Hlen : length data = 1).
  { vm_compute in Hbefore. by injection Hbefore as <- _. }
  destruct (edited_version_hides_original "G1" (Some [Sample.alice])
              Sample.alice MoreSamples.alice_regrouped Sample.alice_key
              [JObj {[ "group" := JStr "G1" ]}] data n)
    as (item & i & old & g & _ & _ & _ & _ & _ & _ & _ & _ & Hafter).
  - apply list_elem_of_here.
  - reflexivity.
  - eexists. split; [reflexivity|]. vm_compute. reflexivity.
  - reflexivity.
  - reflexivity.
  - reflexivity.
  - reflexivity.
  - intros Hnull. apply list_elem_of_singleton in Hnull. discriminate.
  - eexists. split; [apply list_elem_of_here | reflexivity].
  - intros s Hs. apply list_elem_of_singleton in Hs as ->.
    vm_compute. discriminate.
  - exact Hbefore.
  - eexists. rewrite <- Hlen. exact Hafter.
Defined.

End MoreWitnesses.
